(** * Heart-rate zone and metrics engine ([hr_controller.py])

    A shallow embedding of the [HRController] class and the properties
    of its zone table, zone classifier, wattage / calorie / recovery
    estimators and zone-distribution aggregator.

    Python's [int] is [Z].  Python's [float] is IEEE-754 binary64,
    taken from the Standard Library's executable specification
    [SpecFloat] (precision 53, [emax] 1024), so every rounding the
    interpreter performs is performed here as well.  Exceptions are an
    error monad; the attributes of [self] are threaded through a state
    monad. *)

From Stdlib Require Import ZArith Lia Bool List Zpower.

From Stdlib Require Import SpecFloat.

From stdpp Require Import base option list gmap.

Local Open Scope Z_scope.

(** ** Exceptions and the error monad *)

Inductive exn : Set :=
  | ZeroDivisionError
  | OverflowError
  | ValueError
  | KeyError.

Inductive res (A : Type) : Type :=
  | Ok (a : A)
  | Raise (e : exn).
Arguments Ok {A} a.
Arguments Raise {A} e.

#[global] Instance res_ret : MRet res := fun _ a => Ok a.

#[global] Instance res_bind : MBind res := fun _ _ f m =>
  match m with
  | Ok a => f a
  | Raise e => Raise e
  end.

(** ** Python numbers *)

Module Py.

Abbreviation float := spec_float.

Definition prec : Z := 53.

Definition emax : Z := 1024.

Definition fadd : float -> float -> float := SFadd prec emax.

Definition fmul : float -> float -> float := SFmul prec emax.

Definition fdiv : float -> float -> float := SFdiv prec emax.

Definition flt : float -> float -> bool := SFltb.

Definition is_inf (f : float) : bool :=
  match f with S754_infinity _ => true | _ => false end.

Definition is_zero (f : float) : bool :=
  match f with S754_zero _ => true | _ => false end.

(** A number is an [int] or a [float]; arithmetic promotes as the
    interpreter does. *)
Inductive num : Set :=
  | Int (z : Z)
  | Float (f : float).

(** [int -> float]: correctly rounded (ties to even); an [int] beyond
    the binary64 range raises [OverflowError]. *)
Definition float_of_int (z : Z) : res float :=
  let f := binary_normalize prec emax z 0 false in
  if is_inf f then Raise OverflowError else Ok f.

Definition to_float (x : num) : res float :=
  match x with
  | Int z => float_of_int z
  | Float f => Ok f
  end.

Definition add (x y : num) : res num :=
  match x, y with
  | Int a, Int b => Ok (Int (a + b))
  | _, _ => a ← to_float x; b ← to_float y; Ok (Float (fadd a b))
  end.

Definition mul (x y : num) : res num :=
  match x, y with
  | Int a, Int b => Ok (Int (a * b))
  | _, _ => a ← to_float x; b ← to_float y; Ok (Float (fmul a b))
  end.

(** The exact integer as an (unnormalised) significand with exponent
    0, the operand form of [int / int]. *)
Definition exact (z : Z) : float :=
  match z with
  | Z0 => S754_zero false
  | Zpos p => S754_finite false p 0
  | Zneg p => S754_finite true p 0
  end.

(** True division [x / y].  [int / int] rounds the exact quotient
    once; otherwise both operands are converted first and the
    quotient is the IEEE one.  A zero divisor raises. *)
Definition truediv (x y : num) : res float :=
  match x, y with
  | Int a, Int b =>
      if b =? 0 then Raise ZeroDivisionError
      else
        let f := fdiv (exact a) (exact b) in
        if is_inf f then Raise OverflowError else Ok f
  | _, _ =>
      a ← to_float x; b ← to_float y;
      if is_zero b then Raise ZeroDivisionError else Ok (fdiv a b)
  end.

(** Round half to even of [m * 2^e], for a positive significand. *)
Definition rne (m : positive) (e : Z) : Z :=
  match e with
  | Zneg n =>
      let d := 2 ^ Zpos n in
      let q := Zpos m / d in
      match 2 * (Zpos m mod d) ?= d with
      | Lt => q
      | Gt => q + 1
      | Eq => if Z.even q then q else q + 1
      end
  | _ => Zpos m * 2 ^ e
  end.

(** The builtin [round(x)] with one argument: an [int] is returned
    as it is; a [float] is rounded half to even to an [int]; NaN
    raises [ValueError] and an infinity [OverflowError]. *)
Definition round (x : num) : res Z :=
  match x with
  | Int z => Ok z
  | Float (S754_zero _) => Ok 0
  | Float (S754_finite s m e) => Ok (cond_Zopp s (rne m e))
  | Float (S754_infinity _) => Raise OverflowError
  | Float S754_nan => Raise ValueError
  end.

(** Decimal literals of the source: the binary64 nearest to [n / d]. *)
Definition lit (n d : Z) : float := fdiv (exact n) (exact d).

Definition f0_2 : float := Eval vm_compute in lit 2 10.

Definition f0_3 : float := Eval vm_compute in lit 3 10.

Definition f0_5 : float := Eval vm_compute in lit 5 10.

Definition f0_6 : float := Eval vm_compute in lit 6 10.

Definition f0_7 : float := Eval vm_compute in lit 7 10.

Definition f0_75 : float := Eval vm_compute in lit 75 100.

Definition f0_8 : float := Eval vm_compute in lit 8 10.

Definition f0_85 : float := Eval vm_compute in lit 85 100.

Definition f0_9 : float := Eval vm_compute in lit 9 10.

Definition f3_5 : float := Eval vm_compute in lit 35 10.

End Py.

Import Py.

#[global] Arguments add : simpl never.

#[global] Arguments mul : simpl never.

#[global] Arguments truediv : simpl never.

#[global] Arguments round : simpl never.

(** ** The engine's state *)

(** The inner dictionary [{"min": _, "max": _}] of one zone. *)
Record zone : Set := Zone { zmin : Z; zmax : Z }.

(** The attributes of [self]. *)
Record HRController : Type := mkHRController {
  zones : gmap Z zone;
  current_zone : Z;
  resting_hr : Z;
  max_hr : Z;
  weight_kg : Z
}.

(** Methods run in a state monad over [self] whose result may be an
    exception; a raise keeps the state reached so far. *)
Definition M (A : Type) : Type := HRController -> res A * HRController.

#[global] Instance M_ret : MRet M := fun _ a self => (Ok a, self).

#[global] Instance M_bind : MBind M := fun _ _ f m self =>
  match m self with
  | (Ok a, self') => f a self'
  | (Raise e, self') => (Raise e, self')
  end.

Definition lift {A} (r : res A) : M A := fun self => (r, self).

Definition attr {A} (f : HRController -> A) : M A := fun self => (Ok (f self), self).

Definition set_zones (v : gmap Z zone) : M unit :=
  fun self => (Ok tt, mkHRController v (current_zone self) (resting_hr self)
                                     (max_hr self) (weight_kg self)).

Definition set_resting_hr (v : Z) : M unit :=
  fun self => (Ok tt, mkHRController (zones self) (current_zone self) v
                                     (max_hr self) (weight_kg self)).

Definition set_max_hr (v : Z) : M unit :=
  fun self => (Ok tt, mkHRController (zones self) (current_zone self)
                                     (resting_hr self) v (weight_kg self)).

(** [d[k]] on a dictionary: a missing key raises [KeyError]. *)
Definition getitem {V} (d : gmap Z V) (k : Z) : res V :=
  match d !! k with
  | Some v => Ok v
  | None => Raise KeyError
  end.

(** ** [HRController] *)

Definition __init__ : HRController :=
  {| zones := ∅; current_zone := 0; resting_hr := 60; max_hr := 190;
     weight_kg := 70 |}.

(** The expression [round(resting_hr + hr_reserve * frac)], which the
    dictionary literal of [calculate_zones] repeats for each bound. *)
Definition bound (resting_hr hr_reserve : Z) (frac : float) : res Z :=
  p ← mul (Int hr_reserve) (Float frac);
  s ← add (Int resting_hr) p;
  round s.

(** [if not max_hr: max_hr = 220 - age]: [None] and [0] are both falsy. *)
Definition or_estimated (age : Z) (max_hr : option Z) : Z :=
  match max_hr with
  | Some m => if m =? 0 then 220 - age else m
  | None => 220 - age
  end.

Definition calculate_zones (age resting_hr : Z) (max_hr : option Z)
  : M (gmap Z zone) :=
  let max_hr := or_estimated age max_hr in
  let hr_reserve := max_hr - resting_hr in
  min1 ← lift (bound resting_hr hr_reserve f0_5);
  max1 ← lift (bound resting_hr hr_reserve f0_6);
  min2 ← lift (bound resting_hr hr_reserve f0_6);
  max2 ← lift (bound resting_hr hr_reserve f0_7);
  min3 ← lift (bound resting_hr hr_reserve f0_7);
  max3 ← lift (bound resting_hr hr_reserve f0_8);
  min4 ← lift (bound resting_hr hr_reserve f0_8);
  max4 ← lift (bound resting_hr hr_reserve f0_9);
  min5 ← lift (bound resting_hr hr_reserve f0_9);
  set_zones (<[1 := Zone min1 (max1 - 1)]>
            (<[2 := Zone min2 (max2 - 1)]>
            (<[3 := Zone min3 (max3 - 1)]>
            (<[4 := Zone min4 (max4 - 1)]>
            (<[5 := Zone min5 max_hr]> ∅)))));;
  set_resting_hr resting_hr;;
  set_max_hr max_hr;;
  attr zones.

Definition get_zone (hr : Z) : M Z :=
  zs ← attr zones;
  if decide (zs = ∅) then mret 0
  else
    z1 ← lift (getitem zs 1);
    if hr <? zmin z1 then mret 0
    else if hr <=? zmax z1 then mret 1
    else
      z2 ← lift (getitem zs 2);
      if hr <=? zmax z2 then mret 2
      else
        z3 ← lift (getitem zs 3);
        if hr <=? zmax z3 then mret 3
        else
          z4 ← lift (getitem zs 4);
          if hr <=? zmax z4 then mret 4
          else mret 5.

Definition calculate_wattage (hr : Z) (weight : num) : M Z :=
  r ← attr resting_hr;
  if hr <? r then mret 0
  else
    m ← attr max_hr;
    hr_reserve_used ← lift (truediv (Int (hr - r)) (Int (m - r)));
    base_watts ← lift (mul weight (Int 3));
    x ← lift (mul base_watts (Float hr_reserve_used));
    lift (round x).

Definition calculate_calories (hr : Z) (duration_minutes weight : num) : M Z :=
  r ← attr resting_hr;
  if hr <? r then mret 0
  else
    m ← attr max_hr;
    hr_percent ← lift (truediv (Int hr) (Int m));
    let met :=
      if flt hr_percent f0_5 then Int 2
      else if flt hr_percent f0_6 then Float f3_5
      else if flt hr_percent f0_7 then Int 5
      else if flt hr_percent f0_8 then Int 7
      else if flt hr_percent f0_9 then Int 10
      else Int 12 in
    a ← lift (mul met weight);
    h ← lift (truediv duration_minutes (Int 60));
    x ← lift (mul a (Float h));
    lift (round x).

Definition calculate_recovery_time (workout_duration_minutes : num) (avg_hr : Z)
  : M float :=
  r ← attr resting_hr;
  m ← attr max_hr;
  hr_intensity ← lift (truediv (Int (avg_hr - r)) (Int (m - r)));
  let recovery_factor :=
    if flt hr_intensity f0_6 then f0_2
    else if flt hr_intensity f0_75 then f0_3
    else if flt hr_intensity f0_85 then f0_5
    else f0_7 in
  base_recovery_hours ← lift (truediv workout_duration_minutes (Int 60));
  k ← lift (add (Int 1) (Float recovery_factor));
  a ← lift (mul (Float base_recovery_hours) k);
  b ← lift (mul a (Int 2));
  n ← lift (round b);
  lift (truediv (Int n) (Int 2)).

(** *** [calculate_zone_distribution]

    [zone_counts] and [zone_percentages] are dictionaries that the
    method fills and then walks with [.items()]; a Python dictionary
    iterates in insertion order, so they are kept as association lists
    in that order. *)

Fixpoint dict_get (d : list (Z * Z)) (k : Z) : res Z :=
  match d with
  | [] => Raise KeyError
  | (k', v) :: d' => if k' =? k then Ok v else dict_get d' k
  end.

(** [d[k] = v]: overwrite in place, or append a new key. *)
Fixpoint dict_set (d : list (Z * Z)) (k v : Z) : list (Z * Z) :=
  match d with
  | [] => [(k, v)]
  | (k', v') :: d' =>
      if k' =? k then (k', v) :: d' else (k', v') :: dict_set d' k v
  end.

(** The first loop: [zone = self.get_zone(hr); zone_counts[zone] += 1]. *)
Fixpoint count_loop (hr_samples : list Z) (zone_counts : list (Z * Z))
  : M (list (Z * Z)) :=
  match hr_samples with
  | [] => mret zone_counts
  | hr :: rest =>
      zone ← get_zone hr;
      c ← lift (dict_get zone_counts zone);
      count_loop rest (dict_set zone_counts zone (c + 1))
  end.

(** The expression [round((count / total_samples) * 100)]. *)
Definition percentage (count total_samples : Z) : res Z :=
  q ← truediv (Int count) (Int total_samples);
  x ← mul (Float q) (Int 100);
  round x.

(** The second loop, over [zone_counts.items()]. *)
Fixpoint percent_loop (items : list (Z * Z)) (total_samples : Z)
    (zone_percentages : list (Z * Z)) : res (list (Z * Z)) :=
  match items with
  | [] => Ok zone_percentages
  | (zone, count) :: rest =>
      p ← percentage count total_samples;
      percent_loop rest total_samples (dict_set zone_percentages zone p)
  end.

Definition zero_counts : list (Z * Z) :=
  [(0, 0); (1, 0); (2, 0); (3, 0); (4, 0); (5, 0)].

Definition calculate_zone_distribution (hr_samples : list Z)
  : M (list (Z * Z)) :=
  match hr_samples with
  | [] => mret zero_counts
  | _ :: _ =>
      let total_samples := Z.of_nat (length hr_samples) in
      zone_counts ← count_loop hr_samples zero_counts;
      lift (percent_loop zone_counts total_samples [])
  end.

(** ** Every state the engine can be in *)

(** A call of a method with its arguments. *)
Inductive call : Type :=
  | CalculateZones (age resting_hr : Z) (max_hr : option Z)
  | GetZone (hr : Z)
  | CalculateWattage (hr : Z) (weight : num)
  | CalculateCalories (hr : Z) (duration_minutes weight : num)
  | CalculateRecoveryTime (workout_duration_minutes : num) (avg_hr : Z)
  | CalculateZoneDistribution (hr_samples : list Z).

(** The state a call leaves behind, whether it returns or raises. *)
Definition after (c : call) (self : HRController) : HRController :=
  match c with
  | CalculateZones age r m => snd (calculate_zones age r m self)
  | GetZone hr => snd (get_zone hr self)
  | CalculateWattage hr w => snd (calculate_wattage hr w self)
  | CalculateCalories hr d w => snd (calculate_calories hr d w self)
  | CalculateRecoveryTime d a => snd (calculate_recovery_time d a self)
  | CalculateZoneDistribution l => snd (calculate_zone_distribution l self)
  end.

(** The states reached from the constructor by any sequence of calls. *)
Inductive reachable : HRController -> Prop :=
  | reach_init : reachable __init__
  | reach_call c self : reachable self -> reachable (after c self).

(** A table with all of the keys 1..5. *)
Definition full_table (zs : gmap Z zone) : Prop :=
  forall k, 1 <= k <= 5 -> is_Some (zs !! k).

(** The shape of [self.zones]: empty, or a table with its five zones. *)
Definition wf (self : HRController) : Prop :=
  zones self = ∅ \/ full_table (zones self).

(** The table [calculate_zones] builds from the five rounded bounds. *)
Definition table (x5 x6 x7 x8 x9 max_hr : Z) : gmap Z zone :=
  <[1 := Zone x5 (x6 - 1)]>
  (<[2 := Zone x6 (x7 - 1)]>
  (<[3 := Zone x7 (x8 - 1)]>
  (<[4 := Zone x8 (x9 - 1)]>
  (<[5 := Zone x9 max_hr]> ∅)))).

(** ** The formulas of the specification *)

(** The formula [round(restingHR + 0.5 * (maxHR - restingHR))]. *)
Definition zone1_min_formula (resting_hr max_hr : Z) : res Z :=
  p ← mul (Float f0_5) (Int (max_hr - resting_hr));
  s ← add (Int resting_hr) p;
  round s.

(** The spec's steps: [hrReserveUsed = (hr - restingHR) / (maxHR -
    restingHR)], [baseWatts = weight * 3], result
    [round(baseWatts * hrReserveUsed)]. *)
Definition wattage_formula (resting_hr max_hr hr : Z) (weight : num) : res Z :=
  hr_reserve_used ← truediv (Int (hr - resting_hr)) (Int (max_hr - resting_hr));
  base_watts ← mul weight (Int 3);
  x ← mul base_watts (Float hr_reserve_used);
  round x.

(** The expression of C4 as it is written,
    [round(weight*3 * (hr - restingHR) / (maxHR - restingHR))]: the
    product first, one division last. *)
Definition wattage_as_claimed (resting_hr max_hr hr : Z) (weight : num) : res Z :=
  a ← mul weight (Int 3);
  b ← mul a (Int (hr - resting_hr));
  q ← truediv b (Int (max_hr - resting_hr));
  round (Float q).

(** What [calculate_calories] computes once [hr >= resting_hr]: the
    MET band is chosen from [hr / max_hr]; the reserve does not occur. *)
Definition calories_formula (max_hr hr : Z) (duration_minutes weight : num)
  : res Z :=
  hr_percent ← truediv (Int hr) (Int max_hr);
  let met :=
    if flt hr_percent f0_5 then Int 2
    else if flt hr_percent f0_6 then Float f3_5
    else if flt hr_percent f0_7 then Int 5
    else if flt hr_percent f0_8 then Int 7
    else if flt hr_percent f0_9 then Int 10
    else Int 12 in
  a ← mul met weight;
  h ← truediv duration_minutes (Int 60);
  x ← mul a (Float h);
  round x.

(** What [calculate_recovery_time] computes from the stored profile. *)
Definition recovery_formula (resting_hr max_hr : Z)
    (workout_duration_minutes : num) (avg_hr : Z) : res float :=
  hr_intensity ← truediv (Int (avg_hr - resting_hr)) (Int (max_hr - resting_hr));
  let recovery_factor :=
    if flt hr_intensity f0_6 then f0_2
    else if flt hr_intensity f0_75 then f0_3
    else if flt hr_intensity f0_85 then f0_5
    else f0_7 in
  base_recovery_hours ← truediv workout_duration_minutes (Int 60);
  k ← add (Int 1) (Float recovery_factor);
  a ← mul (Float base_recovery_hours) k;
  b ← mul a (Int 2);
  n ← round b;
  truediv (Int n) (Int 2).

(** [get_zone] puts the sample [hr] in zone [z]. *)
Definition in_zone (self : HRController) (z hr : Z) : bool :=
  match fst (get_zone hr self) with
  | Ok z' => z' =? z
  | Raise _ => false
  end.

(** How many of the samples [get_zone] puts in zone [z]. *)
Definition zone_count (self : HRController) (hr_samples : list Z) (z : Z) : Z :=
  Z.of_nat (length (List.filter (in_zone self z) hr_samples)).

(** The expression [round(count / totalSamples * 100)] of the
    specification, with Python's division, product and [round]. *)
Definition percentage_formula (count totalSamples : Z) : res Z :=
  q ← truediv (Int count) (Int totalSamples);
  x ← mul (Float q) (Int 100);
  round x.

(** The six percentages, computed in the order of the keys. *)
Definition distribution_formula (self : HRController) (hr_samples : list Z)
  : res (list (Z * Z)) :=
  let n := Z.of_nat (length hr_samples) in
  p0 ← percentage (zone_count self hr_samples 0) n;
  p1 ← percentage (zone_count self hr_samples 1) n;
  p2 ← percentage (zone_count self hr_samples 2) n;
  p3 ← percentage (zone_count self hr_samples 3) n;
  p4 ← percentage (zone_count self hr_samples 4) n;
  p5 ← percentage (zone_count self hr_samples 5) n;
  Ok [(0, p0); (1, p1); (2, p2); (3, p3); (4, p4); (5, p5)].

(** The sum of the values of a dictionary. *)
Definition total (d : list (Z * Z)) : Z := foldr Z.add 0 (map snd d).

(** A table built by [calculate_zones] whose five rounded bounds go up
    (a non-negative reserve) or down (a non-positive one). *)
Definition ordered_table (zs : gmap Z zone) : Prop :=
  exists x5 x6 x7 x8 x9 mx,
    zs = table x5 x6 x7 x8 x9 mx /\
    ((x5 <= x6 /\ x6 <= x7 /\ x7 <= x8 /\ x8 <= x9) \/
     (x9 <= x8 /\ x8 <= x7 /\ x7 <= x6 /\ x6 <= x5)).

(** ** Binary64 rounding as integer arithmetic

    What [binary_round_aux] computes, on values scaled to integers. *)

(** Round half to even of [X / 2^n]. *)
Definition rnd (X n : Z) : Z :=
  let d := 2 ^ n in
  let q := X / d in
  match 2 * (X mod d) ?= d with
  | Lt => q
  | Gt => q + 1
  | Eq => if Z.even q then q else q + 1
  end.

(** Rounding to binary64 on scaled integers.  With every value in
    units of [2^k] for some [k <= -1074], the non-negative value [X]
    is rounded to [RZ K X], where [K = -1074 - k] is the exponent of
    the subnormal grid: the significand keeps 53 bits, or fewer near
    zero. *)
Definition RZ (K X : Z) : Z :=
  let n := Z.max (Zdigits2 X - 53) K in
  rnd X n * 2 ^ n.

(** [fexp] at precision 53 and [emax] 1024: the exponent of the last
    bit of a binary64 of binary exponent [e]. *)
Definition fexp64 (e : Z) : Z := Z.max (e - 53) (-1074).

(** The float built from a rounded significand [m1 <= 2^53] at the
    exponent [E]: a carry into bit 53 moves one exponent up. *)
Definition finish (s : bool) (m1 E : Z) : spec_float :=
  if m1 =? 0 then S754_zero s
  else if m1 <? 2 ^ 53 then
    if E <=? 971 then S754_finite s (Z.to_pos m1) E else S754_infinity s
  else
    if E + 1 <=? 971 then S754_finite s (Z.to_pos (2 ^ 52)) (E + 1)
    else S754_infinity s.

(** A zero, or a finite float in canonical form within the exponent
    range: what [valid_binary] accepts, without infinities and NaN. *)
Definition good (f : spec_float) : Prop :=
  match f with
  | S754_zero _ => True
  | S754_finite _ m e => e = fexp64 (Zdigits2 (Zpos m) + e) /\ e <= 971
  | _ => False
  end.

(** The value of a float in units of [2^k]. *)
Definition sval (k : Z) (f : spec_float) : Z :=
  match f with
  | S754_finite s m e => cond_Zopp s (Zpos m * 2 ^ (e - k))
  | _ => 0
  end.

(** [RZ] and [rnd] on signed values: the magnitude is rounded. *)
Definition RZs (K V : Z) : Z := Z.sgn V * RZ K (Z.abs V).

Definition rnds (V n : Z) : Z := Z.sgn V * rnd (Z.abs V) n.

(** The scale [k] is below the exponent of [f]. *)
Definition scaled (k : Z) (f : float) : Prop :=
  match f with S754_finite _ _ e => k <= e | _ => True end.

(** The value of [round(resting_hr + hr_reserve * frac)] for a
    fraction [mc * 2^-53] in [[0.5, 1)], in units of [2^-1127]. *)
Definition bound_value (r h mc : Z) : Z :=
  rnds (RZs 53 (RZs 53 (r * 2 ^ 1127) + RZs 53 (RZs 0 (h * 2 ^ 1074) * mc))) 1127.

(** The binary exponent of a float: [|f| < 2 ^ mag f]. *)
Definition mag (f : float) : Z :=
  match f with
  | S754_finite _ m e => Zdigits2 (Zpos m) + e
  | _ => -1074
  end.

(** A zero or canonical finite float below [2^j] in magnitude. *)
Definition within (j : Z) (f : float) : Prop := good f /\ mag f <= j.

(** A number below [2^j] in magnitude. *)
Definition num_within (j : Z) (x : num) : Prop :=
  match x with
  | Int z => Z.abs z < 2 ^ j
  | Float f => within j f
  end.

(** The float [60.0]. *)
Definition f60 : float := S754_finite false 8444249301319680 (-47).

(** An integer argument or attribute below [2^64] in magnitude. *)
Definition sane_int (z : Z) : Prop := Z.abs z < 2 ^ 64.

(** A numeric argument below [2^64] in magnitude: such an [int], or a
    finite binary64. *)
Definition sane (x : num) : Prop := num_within 64 x.

(** ** Quotients, exact values and thresholds *)

(** The quotient [N / D] in half units, with a last bit that is set
    when the division is not exact: every rounding to a coarser grid
    sees the quotient itself. *)
Definition qs (N D : Z) : Z := 2 * (N / D) + (if N mod D =? 0 then 0 else 1).

(** The two bits below a significand that a location stands for. *)
Definition loc_code (l : location) : Z :=
  match l with
  | loc_Exact => 0
  | loc_Inexact Lt => 1
  | loc_Inexact Eq => 2
  | loc_Inexact Gt => 3
  end.

(** The binary64 quotient [a / b] of two integers, in units of [2^k]. *)
Definition quot_value (k a b : Z) : Z :=
  Z.sgn a * Z.sgn b * RZ (-1074 - k) (qs (Z.abs a * 2 ^ (- k - 1)) (Z.abs b)).

(** A number that is not negative: an [int], or a finite float. *)
Definition nonneg (x : num) : Prop :=
  match x with
  | Int z => 0 <= z
  | Float f => good f /\ 0 <= sval (-1074) f
  end.

(** The exact value of a number in units of [2^k]. *)
Definition num_value (k : Z) (x : num) : Z :=
  match x with
  | Int z => z * 2 ^ (- k)
  | Float f => sval k f
  end.

(** An [int], or a finite float in canonical form. *)
Definition finite_num (x : num) : Prop :=
  match x with
  | Int _ => True
  | Float f => good f
  end.

(** [x <= y] on exact values: every finite binary64 number and every
    integer is a multiple of [2^-1246]. *)
Definition le_num (x y : num) : Prop := num_value (-1246) x <= num_value (-1246) y.

(** The factor [1 + recovery_factor] that [calculate_recovery_time]
    chooses from the intensity. *)
Definition recovery_multiplier (hr_intensity : float) : res num :=
  add (Int 1)
      (Float (if flt hr_intensity f0_6 then f0_2
              else if flt hr_intensity f0_75 then f0_3
              else if flt hr_intensity f0_85 then f0_5
              else f0_7)).

(** The MET value of [calculate_calories], chosen by comparing the
    integers themselves: [hr / max_hr] against 0.5, 0.6, 0.7, 0.8
    and 0.9. *)
Definition met_exact (hr max_hr : Z) : num :=
  if 10 * hr <? 5 * max_hr then Int 2
  else if 10 * hr <? 6 * max_hr then Float f3_5
  else if 10 * hr <? 7 * max_hr then Int 5
  else if 10 * hr <? 8 * max_hr then Int 7
  else if 10 * hr <? 9 * max_hr then Int 10
  else Int 12.

(** The recovery factor of [calculate_recovery_time], chosen by
    comparing the integers themselves: the used part of the reserve
    against 0.6, 0.75 and 0.85. *)
Definition recovery_factor_exact (resting_hr max_hr avg_hr : Z) : float :=
  let a := avg_hr - resting_hr in
  let b := max_hr - resting_hr in
  if 10 * a <? 6 * b then f0_2
  else if 100 * a <? 75 * b then f0_3
  else if 100 * a <? 85 * b then f0_5
  else f0_7.

(** * Binary64 rounding *)

Lemma iter_pos_nat {A} (f : A -> A) p x :
  SpecFloat.iter_pos f p x = Nat.iter (Pos.to_nat p) f x.
Proof.
  revert x. induction p as [p IH|p IH|]; intros x; cbn [SpecFloat.iter_pos].
  - rewrite !IH, Pos2Nat.inj_xI.
    replace (S (2 * Pos.to_nat p)) with (Pos.to_nat p + S (Pos.to_nat p))%nat by lia.
    rewrite Nat.iter_add, Nat.iter_succ_r. reflexivity.
  - rewrite !IH, Pos2Nat.inj_xO.
    replace (2 * Pos.to_nat p)%nat with (Pos.to_nat p + Pos.to_nat p)%nat by lia.
    rewrite Nat.iter_add. reflexivity.
  - reflexivity.
Qed.

Lemma shr_1_nonneg m r s :
  0 <= m -> shr_1 (Build_shr_record m r s) = Build_shr_record (m / 2) (Z.odd m) (r || s).
Proof.
  intros Hm. destruct m as [|p|p]; [reflexivity| |lia].
  destruct p as [p|p|]; simpl.
  - f_equal. apply Z.div_unique with 1; lia.
  - f_equal. apply Z.div_unique with 0; lia.
  - reflexivity.
Qed.

Lemma pow2_pos n : 0 <= n -> 0 < 2 ^ n.
Proof. intros. apply Z.pow_pos_nonneg; lia. Qed.

Lemma mod_pow2_succ X n :
  0 <= n -> X mod 2 ^ (n + 1) = X mod 2 ^ n + 2 ^ n * ((X / 2 ^ n) mod 2).
Proof.
  intros Hn. rewrite Z.pow_add_r by lia. change (2 ^ 1) with 2.
  rewrite Z.rem_mul_r by (pose proof (pow2_pos n Hn); lia). reflexivity.
Qed.

(** [n + 1] steps of [shr_1] from an exact record. *)
Lemma shr_iter n X r0 s0 :
  0 <= X ->
  Nat.iter (S n) shr_1 (Build_shr_record X r0 s0) =
  Build_shr_record (X / 2 ^ (Z.of_nat n + 1)) (Z.odd (X / 2 ^ Z.of_nat n))
                   (negb (X mod 2 ^ Z.of_nat n =? 0) || (r0 || s0)).
Proof.
  intros HX. induction n as [|n IH].
  - cbn [Nat.iter nat_rect]. rewrite shr_1_nonneg by lia. simpl Z.of_nat.
    change (2 ^ (0 + 1)) with 2. change (2 ^ 0) with 1.
    rewrite Z.div_1_r, Z.mod_1_r. reflexivity.
  - rewrite (Nat.iter_succ (S n)), IH.
    pose proof (pow2_pos (Z.of_nat n + 1) ltac:(lia)) as Hp.
    rewrite shr_1_nonneg by (apply Z.div_pos; lia).
    rewrite Z.div_div by lia.
    replace (Z.of_nat (S n)) with (Z.of_nat n + 1) by lia.
    replace (2 ^ (Z.of_nat n + 1 + 1)) with (2 ^ (Z.of_nat n + 1) * 2)
      by (rewrite (Z.pow_add_r 2 (Z.of_nat n + 1) 1) by lia; reflexivity).
    f_equal.
    rewrite (mod_pow2_succ X (Z.of_nat n)) by lia.
    pose proof (pow2_pos (Z.of_nat n) ltac:(lia)) as Hq.
    pose proof (Z.mod_pos_bound X (2 ^ Z.of_nat n) Hq) as Hb.
    rewrite Zodd_mod.
    pose proof (Z.mod_pos_bound (X / 2 ^ Z.of_nat n) 2 ltac:(lia)) as Hc.
    destruct (Z.eqb_spec (X / 2 ^ Z.of_nat n mod 2) 1) as [E|E].
    + rewrite E.
      destruct (Z.eqb_spec (X mod 2 ^ Z.of_nat n + 2 ^ Z.of_nat n * 1) 0); [lia|].
      destruct (negb _), r0, s0; reflexivity.
    + assert (X / 2 ^ Z.of_nat n mod 2 = 0) as -> by lia.
      rewrite Z.mul_0_r, Z.add_0_r. reflexivity.
Qed.

Lemma shr_pos X r0 s0 e p :
  0 <= X ->
  shr (Build_shr_record X r0 s0) e (Zpos p) =
  (Build_shr_record (X / 2 ^ Zpos p) (Z.odd (X / 2 ^ (Zpos p - 1)))
                    (negb (X mod 2 ^ (Zpos p - 1) =? 0) || (r0 || s0)),
   e + Zpos p).
Proof.
  intros HX. unfold shr. rewrite iter_pos_nat.
  destruct (Pos2Nat.is_succ p) as [n Hn]. rewrite Hn.
  rewrite shr_iter by lia.
  assert (Z.of_nat n = Zpos p - 1) as -> by lia.
  replace (Z.pos p - 1 + 1) with (Zpos p) by lia. reflexivity.
Qed.

(** ** Digits *)

Lemma digits2_size p : digits2_pos p = Pos.size p.
Proof. induction p; simpl; congruence. Qed.

Lemma Zdigits2_log2 X : 0 < X -> Zdigits2 X = Z.log2 X + 1.
Proof.
  intros HX. destruct X as [|p|p]; try lia. simpl.
  rewrite digits2_size. destruct p; simpl; lia.
Qed.

Lemma Zdigits2_spec X : 0 < X -> 2 ^ (Zdigits2 X - 1) <= X < 2 ^ Zdigits2 X.
Proof.
  intros HX. rewrite Zdigits2_log2 by lia.
  pose proof (Z.log2_spec X HX). replace (Z.log2 X + 1 - 1) with (Z.log2 X) by lia.
  replace (Z.log2 X + 1) with (Z.succ (Z.log2 X)) by lia. lia.
Qed.

Lemma Zdigits2_pos X : 0 < X -> 1 <= Zdigits2 X.
Proof.
  intros HX. rewrite Zdigits2_log2 by lia. pose proof (Z.log2_nonneg X). lia.
Qed.

Lemma pow2_le a b : a <= b -> 0 <= a -> 2 ^ a <= 2 ^ b.
Proof. intros. apply Z.pow_le_mono_r; lia. Qed.

Lemma pow2_lt a b : a < b -> 0 <= a -> 2 ^ a < 2 ^ b.
Proof. intros. apply Z.pow_lt_mono_r; lia. Qed.

(** [X < 2^d] bounds the digits, and conversely. *)
Lemma Zdigits2_le X d : 0 < X -> 0 <= d -> X < 2 ^ d -> Zdigits2 X <= d.
Proof.
  intros HX Hd Hlt. pose proof (Zdigits2_spec X HX) as [Hlo _].
  pose proof (Zdigits2_pos X HX).
  destruct (Z.le_gt_cases (Zdigits2 X) d) as [|Hgt]; [assumption|].
  pose proof (pow2_le d (Zdigits2 X - 1) ltac:(lia) ltac:(lia)). lia.
Qed.

Lemma Zdigits2_ge X d : 0 < X -> 2 ^ (d - 1) <= X -> d <= Zdigits2 X.
Proof.
  intros HX Hge. pose proof (Zdigits2_spec X HX) as [_ Hhi].
  pose proof (Zdigits2_pos X HX).
  destruct (Z.le_gt_cases d (Zdigits2 X)) as [|Hgt]; [assumption|].
  pose proof (pow2_le (Zdigits2 X) (d - 1) ltac:(lia) ltac:(lia)). lia.
Qed.

Lemma Zdigits2_mono X Y : 0 < X -> X <= Y -> Zdigits2 X <= Zdigits2 Y.
Proof.
  intros HX Hle. apply Zdigits2_le; [lia| |].
  - pose proof (Zdigits2_pos Y ltac:(lia)). lia.
  - pose proof (Zdigits2_spec Y ltac:(lia)). lia.
Qed.

Lemma Zdigits2_mul_pow2 X j : 0 < X -> 0 <= j -> Zdigits2 (X * 2 ^ j) = Zdigits2 X + j.
Proof.
  intros HX Hj. pose proof (pow2_pos j Hj).
  rewrite !Zdigits2_log2 by nia. rewrite Z.log2_mul_pow2 by lia. lia.
Qed.

(** ** [rnd] *)

Lemma rnd_0 X : rnd X 0 = X.
Proof.
  unfold rnd. change (2 ^ 0) with 1. rewrite Z.mod_1_r, Z.div_1_r. reflexivity.
Qed.

Lemma rnd_range X n : 0 <= n -> X / 2 ^ n <= rnd X n <= X / 2 ^ n + 1.
Proof.
  intros Hn. unfold rnd.
  destruct (2 * (X mod 2 ^ n) ?= 2 ^ n); [destruct (Z.even _)| |]; lia.
Qed.

Lemma rnd_exact c n : 0 <= n -> rnd (c * 2 ^ n) n = c.
Proof.
  intros Hn. pose proof (pow2_pos n Hn) as Hp. unfold rnd.
  rewrite Z.mod_mul, Z.div_mul by lia.
  destruct (Z.compare_spec (2 * 0) (2 ^ n)); lia.
Qed.

Lemma rnd_mono X Y n : 0 <= n -> X <= Y -> rnd X n <= rnd Y n.
Proof.
  intros Hn Hle. pose proof (pow2_pos n Hn) as Hp.
  pose proof (rnd_range X n Hn) as RX. pose proof (rnd_range Y n Hn) as RY.
  pose proof (Z.div_le_mono X Y (2 ^ n) Hp Hle) as Hq.
  destruct (Z.eq_dec (X / 2 ^ n) (Y / 2 ^ n)) as [E|E]; [|lia].
  assert (X mod 2 ^ n <= Y mod 2 ^ n) as Hr.
  { pose proof (Z.div_mod X (2 ^ n) ltac:(lia)).
    pose proof (Z.div_mod Y (2 ^ n) ltac:(lia)). nia. }
  unfold rnd. rewrite E.
  destruct (Z.compare_spec (2 * (X mod 2 ^ n)) (2 ^ n));
    destruct (Z.compare_spec (2 * (Y mod 2 ^ n)) (2 ^ n));
    destruct (Z.even (Y / 2 ^ n)); lia.
Qed.

Lemma rnd_scale X n j : 0 <= n -> 0 <= j -> rnd (X * 2 ^ j) (n + j) = rnd X n.
Proof.
  intros Hn Hj. pose proof (pow2_pos n Hn) as Hp. pose proof (pow2_pos j Hj) as Hq.
  unfold rnd. rewrite Z.pow_add_r by lia.
  rewrite Z.div_mul_cancel_r by lia.
  rewrite Zmult_mod_distr_r.
  replace (2 * (X mod 2 ^ n * 2 ^ j)) with (2 * (X mod 2 ^ n) * 2 ^ j) by ring.
  rewrite <- Zmult_compare_compat_r by lia. reflexivity.
Qed.

Lemma rnd_nonneg X n : 0 <= n -> 0 <= X -> 0 <= rnd X n.
Proof.
  intros Hn HX. pose proof (rnd_range X n Hn).
  pose proof (Z.div_pos X (2 ^ n) HX (pow2_pos n Hn)). lia.
Qed.

Lemma rnd_le_bound X c n : 0 <= n -> X <= c * 2 ^ n -> rnd X n <= c.
Proof.
  intros Hn H. rewrite <- (rnd_exact c n Hn). apply rnd_mono; assumption.
Qed.

Lemma rnd_ge_bound X c n : 0 <= n -> c * 2 ^ n <= X -> c <= rnd X n.
Proof.
  intros Hn H. rewrite <- (rnd_exact c n Hn). apply rnd_mono; assumption.
Qed.

(** ** Rounding to binary64, on scaled integers

    With every value scaled by [2^-k] for some [k <= emin], a
    non-negative real [X * 2^k] is rounded to [RZ K X * 2^k], where
    [K = emin - k] is the exponent of the subnormal grid. *)

Lemma RZ_0 K : 0 <= K -> RZ K 0 = 0.
Proof.
  intros HK. unfold RZ. simpl Zdigits2. unfold rnd.
  rewrite Z.mod_0_l, Z.div_0_l by (pose proof (pow2_pos (Z.max (0 - 53) K)); lia).
  pose proof (pow2_pos (Z.max (0 - 53) K) ltac:(lia)).
  destruct (Z.compare_spec (2 * 0) (2 ^ Z.max (0 - 53) K)); simpl; lia.
Qed.

Lemma RZ_nonneg K X : 0 <= K -> 0 <= X -> 0 <= RZ K X.
Proof.
  intros HK HX. unfold RZ.
  pose proof (pow2_pos (Z.max (Zdigits2 X - 53) K) ltac:(lia)).
  pose proof (rnd_nonneg X (Z.max (Zdigits2 X - 53) K) ltac:(lia) HX). nia.
Qed.

(** An upper bound by a power of two that is on the grid. *)
Lemma RZ_le_pow2 K X j :
  0 <= K -> 0 < X -> X <= 2 ^ j -> Z.max (Zdigits2 X - 53) K <= j -> RZ K X <= 2 ^ j.
Proof.
  intros HK HX Hle Hj. unfold RZ.
  set (n := Z.max (Zdigits2 X - 53) K) in *.
  pose proof (pow2_pos n ltac:(lia)) as Hp.
  assert (2 ^ j = 2 ^ (j - n) * 2 ^ n) as E
    by (rewrite <- Z.pow_add_r by lia; f_equal; lia).
  pose proof (rnd_le_bound X (2 ^ (j - n)) n ltac:(lia) ltac:(lia)). nia.
Qed.

Lemma RZ_ge_pow2 K X j :
  0 <= K -> 0 < X -> 2 ^ j <= X -> Z.max (Zdigits2 X - 53) K <= j -> 2 ^ j <= RZ K X.
Proof.
  intros HK HX Hle Hj. unfold RZ.
  set (n := Z.max (Zdigits2 X - 53) K) in *.
  pose proof (pow2_pos n ltac:(lia)) as Hp.
  assert (2 ^ j = 2 ^ (j - n) * 2 ^ n) as E
    by (rewrite <- Z.pow_add_r by lia; f_equal; lia).
  pose proof (rnd_ge_bound X (2 ^ (j - n)) n ltac:(lia) ltac:(lia)). nia.
Qed.

Lemma RZ_mono K X Y : 0 <= K -> 0 <= X <= Y -> RZ K X <= RZ K Y.
Proof.
  intros HK [HX Hle].
  destruct (Z.eq_dec X 0) as [->|Hnz].
  { rewrite RZ_0 by lia. apply RZ_nonneg; lia. }
  assert (0 < X) as HX' by lia.
  pose proof (Zdigits2_mono X Y HX' Hle) as Hd.
  pose proof (Zdigits2_spec X HX') as [HXlo HXhi].
  pose proof (Zdigits2_spec Y ltac:(lia)) as [HYlo HYhi].
  pose proof (Zdigits2_pos X HX') as HdX.
  destruct (Z.eq_dec (Z.max (Zdigits2 X - 53) K) (Z.max (Zdigits2 Y - 53) K)) as [E|E].
  - unfold RZ. rewrite E.
    pose proof (pow2_pos (Z.max (Zdigits2 Y - 53) K) ltac:(lia)).
    pose proof (rnd_mono X Y (Z.max (Zdigits2 Y - 53) K) ltac:(lia) Hle). nia.
  - set (j := Z.max (Zdigits2 X) (Z.max (Zdigits2 X - 53) K)).
    assert (j <= Zdigits2 Y - 1) as Hj by lia.
    transitivity (2 ^ j).
    + apply RZ_le_pow2; [lia|lia| |lia].
      pose proof (pow2_le (Zdigits2 X) j ltac:(lia) ltac:(lia)). lia.
    + transitivity (2 ^ (Zdigits2 Y - 1)); [apply pow2_le; lia|].
      apply RZ_ge_pow2; lia.
Qed.

(** A value on the grid is not changed. *)
Lemma RZ_exact K m j :
  0 <= K -> 0 < m -> 0 <= j -> Z.max (Zdigits2 m + j - 53) K <= j ->
  RZ K (m * 2 ^ j) = m * 2 ^ j.
Proof.
  intros HK Hm Hj Hc. unfold RZ. rewrite Zdigits2_mul_pow2 by lia.
  set (n := Z.max (Zdigits2 m + j - 53) K) in *.
  replace (m * 2 ^ j) with (m * 2 ^ (j - n) * 2 ^ n) at 1
    by (rewrite <- Z.mul_assoc, <- Z.pow_add_r by lia; do 2 f_equal; lia).
  rewrite rnd_exact by lia.
  rewrite <- Z.mul_assoc, <- Z.pow_add_r by lia. do 2 f_equal. lia.
Qed.

(** ** [binary_round_aux] at binary64 *)

Lemma fexp_64 e : fexp 53 1024 e = fexp64 e.
Proof. reflexivity. Qed.

Lemma round_nearest_even_range m l :
  m <= round_nearest_even m l <= m + 1.
Proof.
  destruct l as [|[]]; simpl; try lia. destruct (Z.even m); lia.
Qed.

Lemma loc_of_record_of_loc m l :
  loc_of_shr_record (shr_record_of_loc m l) = l /\
  shr_m (shr_record_of_loc m l) = m.
Proof. destruct l as [|[]]; split; reflexivity. Qed.

(** Rounding after a shift by [p] of an exact significand is [rnd]. *)
Lemma round_shifted X p :
  0 <= X ->
  round_nearest_even (X / 2 ^ Zpos p)
    (loc_of_shr_record
       (Build_shr_record (X / 2 ^ Zpos p) (Z.odd (X / 2 ^ (Zpos p - 1)))
          (negb (X mod 2 ^ (Zpos p - 1) =? 0) || (false || false))))
  = rnd X (Zpos p).
Proof.
  intros HX. unfold rnd.
  pose proof (mod_pow2_succ X (Zpos p - 1) ltac:(lia)) as Hm.
  replace (Zpos p - 1 + 1) with (Zpos p) in Hm by lia.
  assert (2 ^ Zpos p = 2 * 2 ^ (Zpos p - 1)) as Hp.
  { replace (Zpos p) with (1 + (Zpos p - 1)) at 1 by lia.
    rewrite Z.pow_add_r by lia. reflexivity. }
  pose proof (pow2_pos (Zpos p - 1) ltac:(lia)) as Hq.
  pose proof (Z.mod_pos_bound X (2 ^ (Zpos p - 1)) Hq) as Hb.
  pose proof (Z.mod_pos_bound (X / 2 ^ (Zpos p - 1)) 2 ltac:(lia)) as Hc.
  rewrite Zodd_mod, Hm, orb_false_r.
  destruct (Z.eqb_spec (X / 2 ^ (Zpos p - 1) mod 2) 1) as [E|E].
  - rewrite E.
    destruct (Z.eqb_spec (X mod 2 ^ (Zpos p - 1)) 0) as [E0|E0]; simpl.
    + rewrite E0. destruct (Z.compare_spec (2 * (0 + 2 ^ (Zpos p - 1) * 1)) (2 ^ Zpos p));
        first [lia | reflexivity].
    + destruct (Z.compare_spec
                  (2 * (X mod 2 ^ (Zpos p - 1) + 2 ^ (Zpos p - 1) * 1)) (2 ^ Zpos p));
        first [lia | reflexivity].
  - assert (X / 2 ^ (Zpos p - 1) mod 2 = 0) as -> by lia.
    rewrite Z.mul_0_r, Z.add_0_r.
    destruct (Z.compare_spec (2 * (X mod 2 ^ (Zpos p - 1))) (2 ^ Zpos p)); try lia.
    all: destruct (negb _); reflexivity.
Qed.

Lemma first_shift mx ex lx n :
  0 < mx -> 0 <= n ->
  exists mrs,
    shr (shr_record_of_loc mx lx) ex n = (mrs, ex + n) /\
    mx / 2 ^ n <= round_nearest_even (shr_m mrs) (loc_of_shr_record mrs)
               <= mx / 2 ^ n + 1 /\
    (lx = loc_Exact ->
     round_nearest_even (shr_m mrs) (loc_of_shr_record mrs) = rnd mx n).
Proof.
  intros Hm Hn. destruct n as [|p|p]; [| |lia].
  - exists (shr_record_of_loc mx lx). rewrite Z.add_0_r.
    destruct (loc_of_record_of_loc mx lx) as [-> ->].
    change (2 ^ 0) with 1. rewrite Z.div_1_r.
    split; [reflexivity|]. split; [apply round_nearest_even_range|].
    intros ->. rewrite rnd_0. reflexivity.
  - assert (exists r0 s0, shr_record_of_loc mx lx = Build_shr_record mx r0 s0
                          /\ (lx = loc_Exact -> r0 = false /\ s0 = false))
      as (r0 & s0 & -> & Hex).
    { destruct lx as [|[]]; simpl; eexists _, _; split; try reflexivity;
        intros; try discriminate; split; reflexivity. }
    rewrite shr_pos by lia. eexists. split; [reflexivity|].
    cbn [shr_m]. split; [apply round_nearest_even_range|].
    intros Hl. destruct (Hex Hl) as [-> ->]. apply round_shifted. lia.
Qed.

Lemma second_shift m1 E :
  0 <= m1 <= 2 ^ 53 -> -1074 <= E ->
  shr_fexp 53 1024 m1 E loc_Exact =
  if m1 <? 2 ^ 53 then (Build_shr_record m1 false false, E)
  else (Build_shr_record (2 ^ 52) false false, E + 1).
Proof.
  intros Hm HE. unfold shr_fexp. rewrite fexp_64. unfold fexp64.
  cbn [shr_record_of_loc].
  destruct (Z.ltb_spec m1 (2 ^ 53)) as [Hlt|Hge].
  - destruct (Z.eq_dec m1 0) as [->|Hnz].
    + simpl Zdigits2. destruct (Z.max (0 + E - 53) (-1074) - E) eqn:En; try reflexivity.
      lia.
    + pose proof (Zdigits2_le m1 53 ltac:(lia) ltac:(lia) Hlt).
      destruct (Z.max (Zdigits2 m1 + E - 53) (-1074) - E) eqn:En; try reflexivity.
      lia.
  - assert (m1 = 2 ^ 53) as -> by lia.
    change (Zdigits2 (2 ^ 53)) with 54.
    replace (Z.max (54 + E - 53) (-1074) - E) with 1 by lia.
    reflexivity.
Qed.

Lemma binary_round_aux_shape s mx ex lx :
  0 < mx -> ex <= fexp64 (Zdigits2 mx + ex) ->
  let E := fexp64 (Zdigits2 mx + ex) in
  exists m1,
    mx / 2 ^ (E - ex) <= m1 <= mx / 2 ^ (E - ex) + 1 /\
    (lx = loc_Exact -> m1 = rnd mx (E - ex)) /\
    m1 <= 2 ^ 53 /\ (-1074 < E -> 2 ^ 52 <= m1) /\
    binary_round_aux 53 1024 s mx ex lx = finish s m1 E.
Proof.
  intros Hm Hpre E.
  destruct (first_shift mx ex lx (E - ex) Hm ltac:(lia)) as (mrs & Hs & Hr & Hx).
  set (m1 := round_nearest_even (shr_m mrs) (loc_of_shr_record mrs)) in *.
  pose proof (Zdigits2_spec mx Hm) as [Hlo Hhi].
  pose proof (Zdigits2_pos mx Hm) as Hd.
  pose proof (pow2_pos (E - ex) ltac:(lia)) as Hp.
  assert (mx / 2 ^ (E - ex) < 2 ^ 53) as Hq.
  { apply Z.div_lt_upper_bound; [lia|].
    rewrite <- Z.pow_add_r by lia.
    pose proof (pow2_le (Zdigits2 mx) (E - ex + 53) ltac:(unfold E, fexp64; lia) ltac:(lia)).
    lia. }
  assert (0 <= mx / 2 ^ (E - ex)) as Hq0 by (apply Z.div_pos; lia).
  assert (-1074 < E -> 2 ^ 52 <= mx / 2 ^ (E - ex)) as Hn.
  { intros HE. apply Z.div_le_lower_bound; [lia|].
    rewrite <- Z.pow_add_r by lia.
    replace (E - ex + 52) with (Zdigits2 mx - 1) by (unfold E, fexp64 in *; lia).
    lia. }
  exists m1. split; [exact Hr|]. split; [exact Hx|].
  split; [lia|]. split; [intros HE; specialize (Hn HE); lia|].
  pose proof (second_shift m1 E ltac:(lia) ltac:(unfold E, fexp64; lia)) as H2.
  unfold binary_round_aux.
  change (shr_fexp 53 1024 mx ex lx)
    with (shr (shr_record_of_loc mx lx) ex (E - ex)).
  rewrite Hs. cbv beta iota. fold m1. replace (ex + (E - ex)) with E by lia.
  rewrite H2.
  unfold finish.
  destruct (Z.ltb_spec m1 (2 ^ 53)) as [Hlt|Hge]; cbn [shr_m].
  - destruct (Z.eqb_spec m1 0) as [->|Hnz]; [reflexivity|].
    destruct m1 as [|p|p]; try lia. reflexivity.
  - destruct (Z.eqb_spec m1 0) as [->|Hnz]; [lia|]. reflexivity.
Qed.

(** ** Values of floats *)

Lemma cond_Zopp_0 s : cond_Zopp s 0 = 0.
Proof. destruct s; reflexivity. Qed.

Lemma finish_spec s m1 E k :
  0 <= m1 <= 2 ^ 53 -> (-1074 < E -> 2 ^ 52 <= m1) -> -1074 <= E -> k <= -1074 ->
  (m1 * 2 ^ (E - k) < 2 ^ (1024 - k) ->
   good (finish s m1 E) /\ sval k (finish s m1 E) = cond_Zopp s (m1 * 2 ^ (E - k))) /\
  (2 ^ (1024 - k) <= m1 * 2 ^ (E - k) -> finish s m1 E = S754_infinity s).
Proof.
  intros Hm Hn HE Hk. unfold finish.
  pose proof (pow2_pos (E - k) ltac:(lia)) as Hp.
  pose proof (pow2_pos (1024 - k) ltac:(lia)) as Hp'.
  destruct (Z.eqb_spec m1 0) as [->|Hnz].
  { split; [|lia]. intros _. simpl. rewrite cond_Zopp_0. split; [exact I|reflexivity]. }
  destruct (Z.ltb_spec m1 (2 ^ 53)) as [Hlt|Hge].
  - destruct (Z.leb_spec E 971) as [Hle|Hgt].
    + assert (m1 * 2 ^ (E - k) < 2 ^ (1024 - k)) as Hv.
      { pose proof (pow2_le (53 + (E - k)) (1024 - k) ltac:(lia) ltac:(lia)) as H1.
        rewrite Z.pow_add_r in H1 by lia.
        pose proof (Z.mul_lt_mono_pos_r (2 ^ (E - k)) m1 (2 ^ 53) Hp). lia. }
      split; [|lia]. intros _. unfold good, sval.
      rewrite Z2Pos.id by lia. split; [|reflexivity]. split; [|exact Hle].
      unfold fexp64.
      pose proof (Zdigits2_le m1 53 ltac:(lia) ltac:(lia) Hlt) as Hd.
      destruct (Z.eq_dec E (-1074)) as [->|HE']; [lia|].
      pose proof (Zdigits2_ge m1 53 ltac:(lia) (Hn ltac:(lia))). lia.
    + assert (2 ^ (1024 - k) <= m1 * 2 ^ (E - k)) as Hv.
      { specialize (Hn ltac:(lia)).
        pose proof (pow2_le (1024 - k) (52 + (E - k)) ltac:(lia) ltac:(lia)) as H1.
        rewrite Z.pow_add_r in H1 by lia.
        pose proof (Z.mul_le_mono_pos_r (2 ^ 52) m1 (2 ^ (E - k)) Hp). lia. }
      split; [lia|]. reflexivity.
  - assert (m1 = 2 ^ 53) as -> by lia.
    destruct (Z.leb_spec (E + 1) 971) as [Hle|Hgt].
    + assert (2 ^ 53 * 2 ^ (E - k) < 2 ^ (1024 - k)) as Hv.
      { rewrite <- Z.pow_add_r by lia. apply pow2_lt; lia. }
      split; [|lia]. intros _. split.
      * split; [|exact Hle]. unfold fexp64.
        change (Zdigits2 (Z.pos (Z.to_pos (2 ^ 52)))) with 53. lia.
      * unfold sval. f_equal. change (Z.pos (Z.to_pos (2 ^ 52))) with (2 ^ 52).
        replace (E + 1 - k) with (1 + (E - k)) by lia.
        rewrite Z.pow_add_r by lia. lia.
    + split; [|reflexivity]. intros Hv. exfalso.
      rewrite <- Z.pow_add_r in Hv by lia.
      pose proof (pow2_le (1024 - k) (53 + (E - k)) ltac:(lia) ltac:(lia)). lia.
Qed.

(** Rounding the exact value [mx * 2^ex]: the result is the float of
    value [RZ], or the infinity when that is [2^1024] or more. *)
Theorem round_exact s mx ex k :
  0 < mx -> ex <= fexp64 (Zdigits2 mx + ex) -> k <= -1074 -> k <= ex ->
  let V := RZ (-1074 - k) (mx * 2 ^ (ex - k)) in
  let f := binary_round_aux 53 1024 s mx ex loc_Exact in
  (V < 2 ^ (1024 - k) -> good f /\ sval k f = cond_Zopp s V) /\
  (2 ^ (1024 - k) <= V -> f = S754_infinity s).
Proof.
  intros Hm Hpre Hk Hke V f.
  destruct (binary_round_aux_shape s mx ex loc_Exact Hm Hpre)
    as (m1 & Hr & Hx & Hhi & Hlo & Hf).
  specialize (Hx eq_refl).
  set (E := fexp64 (Zdigits2 mx + ex)) in *.
  assert (V = m1 * 2 ^ (E - k)) as HV.
  { unfold V, RZ. rewrite Zdigits2_mul_pow2 by lia.
    replace (Z.max (Zdigits2 mx + (ex - k) - 53) (-1074 - k)) with (E - k)
      by (unfold E, fexp64; lia).
    replace (E - k) with ((E - ex) + (ex - k)) at 1 by lia.
    rewrite rnd_scale by lia. rewrite <- Hx. reflexivity. }
  unfold f. rewrite Hf, HV.
  apply finish_spec; try lia.
  - pose proof (rnd_nonneg mx (E - ex) ltac:(lia) ltac:(lia)). lia.
  - unfold E, fexp64. lia.
Qed.

(** ** Signed rounding *)

Lemma RZs_mono K V W : 0 <= K -> V <= W -> RZs K V <= RZs K W.
Proof.
  intros HK Hle. unfold RZs.
  pose proof (RZ_nonneg K (Z.abs V) HK (Z.abs_nonneg V)) as HV.
  pose proof (RZ_nonneg K (Z.abs W) HK (Z.abs_nonneg W)) as HW.
  destruct (Z.sgn_spec V) as [[? ->]|[[? ->]|[? ->]]];
    destruct (Z.sgn_spec W) as [[? ->]|[[? ->]|[? ->]]]; try lia.
  - pose proof (RZ_mono K (Z.abs V) (Z.abs W) HK ltac:(lia)). lia.
  - pose proof (RZ_mono K (Z.abs W) (Z.abs V) HK ltac:(lia)). lia.
Qed.

Lemma RZs_cond K s W : 0 <= K -> 0 <= W -> RZs K (cond_Zopp s W) = cond_Zopp s (RZ K W).
Proof.
  intros HK HW. unfold RZs.
  destruct (Z.eq_dec W 0) as [->|Hnz].
  { rewrite cond_Zopp_0. change (Z.abs 0) with 0. rewrite RZ_0 by lia.
    rewrite cond_Zopp_0. reflexivity. }
  destruct s; simpl.
  - rewrite Z.abs_opp, Z.abs_eq, Z.sgn_neg by lia. lia.
  - rewrite Z.abs_eq, Z.sgn_pos by lia. lia.
Qed.

Lemma RZs_sign K V : 0 <= K -> (0 <= V -> 0 <= RZs K V) /\ (V <= 0 -> RZs K V <= 0).
Proof.
  intros HK. unfold RZs.
  pose proof (RZ_nonneg K (Z.abs V) HK (Z.abs_nonneg V)).
  destruct (Z.sgn_spec V) as [[? ->]|[[? ->]|[? ->]]]; lia.
Qed.

Lemma rnds_mono V W n : 0 <= n -> V <= W -> rnds V n <= rnds W n.
Proof.
  intros Hn Hle. unfold rnds.
  pose proof (rnd_nonneg (Z.abs V) n Hn (Z.abs_nonneg V)) as HV.
  pose proof (rnd_nonneg (Z.abs W) n Hn (Z.abs_nonneg W)) as HW.
  destruct (Z.sgn_spec V) as [[? ->]|[[? ->]|[? ->]]];
    destruct (Z.sgn_spec W) as [[? ->]|[[? ->]|[? ->]]]; try lia.
  - pose proof (rnd_mono (Z.abs V) (Z.abs W) n Hn ltac:(lia)). lia.
  - pose proof (rnd_mono (Z.abs W) (Z.abs V) n Hn ltac:(lia)). lia.
Qed.

Lemma rnds_cond s W n : 0 <= W -> rnds (cond_Zopp s W) n = cond_Zopp s (rnd W n).
Proof.
  intros HW. unfold rnds.
  destruct (Z.eq_dec W 0) as [->|Hnz].
  { rewrite cond_Zopp_0. change (Z.sgn 0) with 0. rewrite Z.mul_0_l.
    assert (rnd 0 n = 0) as ->; [|rewrite cond_Zopp_0; reflexivity].
    unfold rnd. rewrite Zmod_0_l, Zdiv_0_l.
    pose proof (Z.pow_nonneg 2 n ltac:(lia)).
    destruct (Z.compare_spec (2 * 0) (2 ^ n)); try reflexivity. lia. }
  destruct s; simpl.
  - rewrite Z.abs_opp, Z.abs_eq, Z.sgn_neg by lia. lia.
  - rewrite Z.abs_eq, Z.sgn_pos by lia. lia.
Qed.

(** ** [binary_round] and the conversion of integers *)

Lemma shl_align_spec mx ex ex' :
  let '(mz, ez) := shl_align mx ex ex' in
  ez = Z.min ex ex' /\ Zpos mz = Zpos mx * 2 ^ (ex - ez).
Proof.
  unfold shl_align. destruct (ex' - ex) as [|d|d] eqn:Ed.
  - split; [lia|]. rewrite Z.sub_diag. lia.
  - split; [lia|]. rewrite Z.sub_diag. lia.
  - split; [lia|].
    change (Pos.iter xO mx d) with (shift_pos d mx).
    rewrite shift_pos_correct, Zpower_pos_nat, Zpower_nat_Z, positive_nat_Z.
    replace (ex - ex') with (Zpos d) by lia. lia.
Qed.

Theorem binary_round_spec s mx ex k :
  k <= -1074 -> k <= ex ->
  let V := RZ (-1074 - k) (Zpos mx * 2 ^ (ex - k)) in
  let f := binary_round 53 1024 s mx ex in
  (V < 2 ^ (1024 - k) -> good f /\ sval k f = cond_Zopp s V) /\
  (2 ^ (1024 - k) <= V -> f = S754_infinity s).
Proof.
  intros Hk Hke V f. unfold f, binary_round. rewrite fexp_64.
  pose proof (shl_align_spec mx ex (fexp64 (Zpos (digits2_pos mx) + ex))) as Hs.
  destruct (shl_align mx ex _) as [mz ez]. destruct Hs as [Hez Hmz].
  change (Zpos (digits2_pos mx)) with (Zdigits2 (Zpos mx)) in *.
  assert (Zdigits2 (Zpos mz) + ez = Zdigits2 (Zpos mx) + ex) as Hd.
  { rewrite Hmz, Zdigits2_mul_pow2 by lia. lia. }
  assert (Zpos mz * 2 ^ (ez - k) = Zpos mx * 2 ^ (ex - k)) as Hv.
  { rewrite Hmz, <- Z.mul_assoc, <- Z.pow_add_r by (unfold fexp64 in *; lia).
    do 2 f_equal. lia. }
  unfold V. rewrite <- Hv.
  apply round_exact; [lia| |lia|unfold fexp64 in *; lia].
  rewrite Hd. lia.
Qed.

(** * Properties *)

(** ** The monad's equations *)

Lemma bind_lift {A B} (r : res A) (f : A -> M B) (self : HRController) :
  (lift r ≫= f) self =
  match r with Ok a => f a self | Raise e => (Raise e, self) end.
Proof. destruct r; reflexivity. Qed.

Lemma bind_attr {A B} (g : HRController -> A) (f : A -> M B) self :
  (attr g ≫= f) self = f (g self) self.
Proof. reflexivity. Qed.

(** Unfold the binds of both monads and split on every result. *)
Ltac run_monad :=
  cbv beta iota zeta delta [lift attr mbind M_bind res_bind mret M_ret res_ret].

Ltac run_res := cbv beta iota delta [mbind res_bind].

Ltac split_results :=
  repeat match goal with
         | |- context [match ?r with Ok _ => _ | Raise _ => _ end] =>
             destruct r; try reflexivity
         end.

Lemma getitem_Some {V} (d : gmap Z V) k v : d !! k = Some v -> getitem d k = Ok v.
Proof. unfold getitem. intros ->. reflexivity. Qed.

(** ** [calculate_zones]: what it returns and what it stores *)

Lemma calculate_zones_Ok age r m self tbl self' :
  calculate_zones age r m self = (Ok tbl, self') ->
  let mx := or_estimated age m in
  exists x5 x6 x7 x8 x9,
    bound r (mx - r) f0_5 = Ok x5 /\ bound r (mx - r) f0_6 = Ok x6 /\
    bound r (mx - r) f0_7 = Ok x7 /\ bound r (mx - r) f0_8 = Ok x8 /\
    bound r (mx - r) f0_9 = Ok x9 /\
    tbl = table x5 x6 x7 x8 x9 mx /\
    self' = mkHRController tbl (current_zone self) r mx (weight_kg self).
Proof.
  unfold calculate_zones. cbv zeta. rewrite !bind_lift.
  destruct (bound r _ f0_5) as [x5|]; [|discriminate].
  rewrite !bind_lift.
  destruct (bound r _ f0_6) as [x6|]; [|discriminate].
  rewrite !bind_lift.
  destruct (bound r _ f0_7) as [x7|]; [|discriminate].
  rewrite !bind_lift.
  destruct (bound r _ f0_8) as [x8|]; [|discriminate].
  rewrite !bind_lift.
  destruct (bound r _ f0_9) as [x9|]; [|discriminate].
  intros H. exists x5, x6, x7, x8, x9.
  cbv in H. inversion H; subst. repeat split; reflexivity.
Qed.

Lemma calculate_zones_Raise age r m self e self' :
  calculate_zones age r m self = (Raise e, self') -> self' = self.
Proof.
  unfold calculate_zones. cbv zeta. rewrite !bind_lift.
  destruct (bound r _ f0_5) as [x5|]; [|congruence].
  rewrite !bind_lift.
  destruct (bound r _ f0_6) as [x6|]; [|congruence].
  rewrite !bind_lift.
  destruct (bound r _ f0_7) as [x7|]; [|congruence].
  rewrite !bind_lift.
  destruct (bound r _ f0_8) as [x8|]; [|congruence].
  rewrite !bind_lift.
  destruct (bound r _ f0_9) as [x9|]; [|congruence].
  cbv. discriminate.
Qed.

Lemma table_lookup x5 x6 x7 x8 x9 mx :
  table x5 x6 x7 x8 x9 mx !! 1 = Some (Zone x5 (x6 - 1)) /\
  table x5 x6 x7 x8 x9 mx !! 2 = Some (Zone x6 (x7 - 1)) /\
  table x5 x6 x7 x8 x9 mx !! 3 = Some (Zone x7 (x8 - 1)) /\
  table x5 x6 x7 x8 x9 mx !! 4 = Some (Zone x8 (x9 - 1)) /\
  table x5 x6 x7 x8 x9 mx !! 5 = Some (Zone x9 mx).
Proof. unfold table. repeat split; by simplify_map_eq. Qed.

Lemma table_full x5 x6 x7 x8 x9 mx : full_table (table x5 x6 x7 x8 x9 mx).
Proof.
  intros k Hk.
  destruct (table_lookup x5 x6 x7 x8 x9 mx) as (H1 & H2 & H3 & H4 & H5).
  assert (k = 1 \/ k = 2 \/ k = 3 \/ k = 4 \/ k = 5) as Hc by lia.
  destruct Hc as [-> | [-> | [-> | [-> | ->]]]]; eauto.
Qed.

(** ** The methods that only read [self] *)

Lemma get_zone_frame hr self : snd (get_zone hr self) = self.
Proof.
  unfold get_zone. rewrite bind_attr.
  destruct (decide (zones self = ∅)); [reflexivity|].
  rewrite bind_lift. destruct (getitem _ 1); [|reflexivity].
  destruct (hr <? _); [reflexivity|]. destruct (hr <=? _); [reflexivity|].
  rewrite bind_lift. destruct (getitem _ 2); [|reflexivity].
  destruct (hr <=? _); [reflexivity|].
  rewrite bind_lift. destruct (getitem _ 3); [|reflexivity].
  destruct (hr <=? _); [reflexivity|].
  rewrite bind_lift. destruct (getitem _ 4); [|reflexivity].
  destruct (hr <=? _); reflexivity.
Qed.

Ltac frame_step :=
  first
    [ rewrite bind_attr
    | rewrite bind_lift; match goal with |- context [match ?r with _ => _ end] =>
        destruct r; [|reflexivity] end ].

Lemma calculate_wattage_frame hr w self : snd (calculate_wattage hr w self) = self.
Proof.
  unfold calculate_wattage. rewrite bind_attr.
  destruct (hr <? _); [reflexivity|].
  repeat frame_step. unfold lift. reflexivity.
Qed.

Lemma calculate_calories_frame hr d w self :
  snd (calculate_calories hr d w self) = self.
Proof.
  unfold calculate_calories. rewrite bind_attr.
  destruct (hr <? _); [reflexivity|].
  repeat frame_step. cbv zeta. repeat frame_step. unfold lift. reflexivity.
Qed.

Lemma calculate_recovery_time_frame d a self :
  snd (calculate_recovery_time d a self) = self.
Proof.
  unfold calculate_recovery_time. repeat frame_step. cbv zeta.
  repeat frame_step. unfold lift. reflexivity.
Qed.

Lemma count_loop_frame l : forall d self, snd (count_loop l d self) = self.
Proof.
  induction l as [|hr l IH]; intros d self; [reflexivity|].
  cbn [count_loop].
  change ((get_zone hr ≫= ?f) self)
    with (match get_zone hr self with
          | (Ok a, s') => f a s' | (Raise e, s') => (Raise e, s') end).
  pose proof (get_zone_frame hr self) as Hf.
  destruct (get_zone hr self) as [[z|e] s']; simpl in Hf; subst s'; [|reflexivity].
  rewrite bind_lift. destruct (dict_get d z); [|reflexivity]. apply IH.
Qed.

Lemma calculate_zone_distribution_frame l self :
  snd (calculate_zone_distribution l self) = self.
Proof.
  destruct l as [|hr l]; [reflexivity|].
  unfold calculate_zone_distribution.
  set (l' := hr :: l).
  change ((count_loop l' zero_counts ≫= ?f) self)
    with (match count_loop l' zero_counts self with
          | (Ok a, s') => f a s' | (Raise e, s') => (Raise e, s') end).
  pose proof (count_loop_frame l' zero_counts self) as Hf.
  destruct (count_loop l' zero_counts self) as [[z|e] s']; simpl in Hf; subst s';
    reflexivity.
Qed.

Lemma after_reads c self :
  match c with CalculateZones _ _ _ => True | _ => after c self = self end.
Proof.
  destruct c; simpl; auto using get_zone_frame, calculate_wattage_frame,
    calculate_calories_frame, calculate_recovery_time_frame,
    calculate_zone_distribution_frame.
Qed.

Lemma reachable_wf self : reachable self -> wf self.
Proof.
  induction 1 as [|c self Hr IH]; [left; reflexivity|].
  pose proof (after_reads c self) as Hc.
  destruct c as [age r m| | | | |]; try (rewrite Hc; exact IH).
  simpl. destruct (calculate_zones age r m self) as [[tbl|e] s'] eqn:E.
  - apply calculate_zones_Ok in E. cbv zeta in E.
    destruct E as (x5 & x6 & x7 & x8 & x9 & _ & _ & _ & _ & _ & -> & ->).
    right. apply table_full.
  - apply calculate_zones_Raise in E. simpl. subst. exact IH.
Qed.

(** ** [get_zone] on an empty and on a full table *)

Lemma get_zone_empty hr self :
  zones self = ∅ -> get_zone hr self = (Ok 0, self).
Proof.
  intros He. unfold get_zone. rewrite bind_attr.
  destruct (decide (zones self = ∅)); [reflexivity | contradiction].
Qed.

Lemma get_zone_full hr self z1 z2 z3 z4 :
  zones self !! 1 = Some z1 -> zones self !! 2 = Some z2 ->
  zones self !! 3 = Some z3 -> zones self !! 4 = Some z4 ->
  get_zone hr self =
  (Ok (if hr <? zmin z1 then 0
       else if hr <=? zmax z1 then 1
       else if hr <=? zmax z2 then 2
       else if hr <=? zmax z3 then 3
       else if hr <=? zmax z4 then 4
       else 5), self).
Proof.
  intros H1 H2 H3 H4. unfold get_zone. rewrite bind_attr.
  destruct (decide (zones self = ∅)) as [He|_].
  { rewrite He in H1. rewrite lookup_empty in H1. discriminate. }
  rewrite bind_lift, (getitem_Some _ _ _ H1).
  destruct (hr <? zmin z1); [reflexivity|].
  destruct (hr <=? zmax z1); [reflexivity|].
  rewrite bind_lift, (getitem_Some _ _ _ H2).
  destruct (hr <=? zmax z2); [reflexivity|].
  rewrite bind_lift, (getitem_Some _ _ _ H3).
  destruct (hr <=? zmax z3); [reflexivity|].
  rewrite bind_lift, (getitem_Some _ _ _ H4).
  destruct (hr <=? zmax z4); reflexivity.
Qed.

Lemma full_table_lookups zs :
  full_table zs ->
  exists z1 z2 z3 z4 z5,
    zs !! 1 = Some z1 /\ zs !! 2 = Some z2 /\ zs !! 3 = Some z3 /\
    zs !! 4 = Some z4 /\ zs !! 5 = Some z5.
Proof.
  intros F.
  destruct (F 1 ltac:(lia)) as [z1 H1]. destruct (F 2 ltac:(lia)) as [z2 H2].
  destruct (F 3 ltac:(lia)) as [z3 H3]. destruct (F 4 ltac:(lia)) as [z4 H4].
  destruct (F 5 ltac:(lia)) as [z5 H5]. eauto 10.
Qed.

(** ** Which exceptions the arithmetic can raise *)

Lemma to_float_not_zerodiv x : to_float x <> Raise ZeroDivisionError.
Proof.
  destruct x as [z|f]; simpl; [|discriminate].
  unfold float_of_int. destruct (is_inf _); discriminate.
Qed.

Lemma mul_not_zerodiv x y : mul x y <> Raise ZeroDivisionError.
Proof.
  pose proof (to_float_not_zerodiv x) as Hx.
  pose proof (to_float_not_zerodiv y) as Hy.
  destruct x as [a|a], y as [b|b]; unfold mul, add, to_float in *;
    try discriminate; unfold mbind, res_bind;
    repeat match goal with
           | |- context [float_of_int ?z] => destruct (float_of_int z) as [?|[]]
           end; congruence.
Qed.

Lemma add_not_zerodiv x y : add x y <> Raise ZeroDivisionError.
Proof.
  pose proof (to_float_not_zerodiv x) as Hx.
  pose proof (to_float_not_zerodiv y) as Hy.
  destruct x as [a|a], y as [b|b]; unfold mul, add, to_float in *;
    try discriminate; unfold mbind, res_bind;
    repeat match goal with
           | |- context [float_of_int ?z] => destruct (float_of_int z) as [?|[]]
           end; congruence.
Qed.

Lemma round_not_zerodiv x : round x <> Raise ZeroDivisionError.
Proof. destruct x as [z|[]]; discriminate. Qed.

Lemma truediv_int_not_zerodiv a b :
  b <> 0 -> truediv (Int a) (Int b) <> Raise ZeroDivisionError.
Proof.
  intros Hb. unfold truediv. destruct (Z.eqb_spec b 0); [contradiction|].
  destruct (is_inf _); discriminate.
Qed.

Lemma truediv_by_60_not_zerodiv x : truediv x (Int 60) <> Raise ZeroDivisionError.
Proof.
  destruct x as [a|f].
  - apply truediv_int_not_zerodiv. lia.
  - simpl. discriminate.
Qed.

(** Multiplication of floats commutes, also in its special cases. *)
Lemma fmul_comm a b : fmul a b = fmul b a.
Proof.
  unfold fmul.
  destruct a as [sa|sa| |sa ma ea], b as [sb|sb| |sb mb eb]; simpl;
    rewrite ?(xorb_comm sa sb); try reflexivity.
  rewrite (Pos.mul_comm ma mb), (Z.add_comm ea eb). reflexivity.
Qed.

Lemma mul_comm x y : mul x y = mul y x.
Proof.
  destruct x as [a|a], y as [b|b]; unfold mul, to_float.
  - rewrite Z.mul_comm. reflexivity.
  - unfold mbind, res_bind. destruct (float_of_int a); [|reflexivity].
    rewrite fmul_comm. reflexivity.
  - unfold mbind, res_bind. destruct (float_of_int b); [|reflexivity].
    rewrite fmul_comm. reflexivity.
  - unfold mbind, res_bind. rewrite fmul_comm. reflexivity.
Qed.

(** ** Counting, calories and recovery time *)

Lemma get_zone_range hr self :
  wf self -> exists z, get_zone hr self = (Ok z, self) /\ 0 <= z <= 5.
Proof.
  intros [He | Hf].
  - rewrite (get_zone_empty _ _ He). exists 0. split; [reflexivity | lia].
  - destruct (full_table_lookups _ Hf) as (z1 & z2 & z3 & z4 & z5 & H1 & H2 & H3 & H4 & _).
    rewrite (get_zone_full _ _ _ _ _ _ H1 H2 H3 H4).
    eexists. split; [reflexivity|].
    repeat match goal with
           | |- context [if ?b then _ else _] => destruct b
           end; lia.
Qed.

Lemma zone_count_cons self hr l z z' :
  get_zone hr self = (Ok z', self) ->
  zone_count self (hr :: l) z = (if z' =? z then 1 else 0) + zone_count self l z.
Proof.
  intros E. unfold zone_count. cbn [List.filter].
  assert (in_zone self z hr = (z' =? z)) as -> by (unfold in_zone; rewrite E; reflexivity).
  destruct (z' =? z); cbn [length]; lia.
Qed.

Lemma count_loop_counts self :
  wf self ->
  forall l c0 c1 c2 c3 c4 c5,
    count_loop l [(0, c0); (1, c1); (2, c2); (3, c3); (4, c4); (5, c5)] self =
    (Ok [(0, c0 + zone_count self l 0); (1, c1 + zone_count self l 1);
         (2, c2 + zone_count self l 2); (3, c3 + zone_count self l 3);
         (4, c4 + zone_count self l 4); (5, c5 + zone_count self l 5)], self).
Proof.
  intros Hwf. induction l as [|hr l IH]; intros c0 c1 c2 c3 c4 c5.
  - unfold zone_count. simpl. rewrite !Z.add_0_r. reflexivity.
  - cbn [count_loop].
    change ((get_zone hr ≫= ?f) self)
      with (match get_zone hr self with
            | (Ok a, s') => f a s' | (Raise e, s') => (Raise e, s') end).
    destruct (get_zone_range hr self Hwf) as (z & E & Hz).
    rewrite E, !(zone_count_cons _ _ _ _ _ E).
    assert (z = 0 \/ z = 1 \/ z = 2 \/ z = 3 \/ z = 4 \/ z = 5) as Hc by lia.
    destruct Hc as [-> | [-> | [-> | [-> | [-> | ->]]]]];
      rewrite bind_lift; simpl; rewrite IH; simpl;
      rewrite ?Z.add_0_l, ?Z.add_assoc; reflexivity.
Qed.

Lemma calculate_calories_unfold hr d w self :
  calculate_calories hr d w self =
  (if hr <? resting_hr self then Ok 0
   else calories_formula (max_hr self) hr d w, self).
Proof.
  unfold calculate_calories, calories_formula. rewrite bind_attr.
  destruct (hr <? resting_hr self); [reflexivity|].
  rewrite bind_attr, bind_lift.
  destruct (truediv (Int hr) _) as [p|e]; [|reflexivity].
  cbv zeta. rewrite bind_lift. simpl.
  destruct (mul _ w) as [a|e]; [|reflexivity].
  rewrite bind_lift. simpl.
  destruct (truediv d _) as [h|e]; [|reflexivity].
  rewrite bind_lift. simpl.
  destruct (mul a _) as [x|e]; reflexivity.
Qed.

Lemma calories_formula_not_zerodiv m hr d w :
  m <> 0 -> calories_formula m hr d w <> Raise ZeroDivisionError.
Proof.
  intros Hm. unfold calories_formula.
  pose proof (truediv_int_not_zerodiv hr m Hm) as Hp.
  destruct (truediv (Int hr) (Int m)) as [p|e]; simpl; [|congruence].
  match goal with |- context [mul ?met w] =>
    pose proof (mul_not_zerodiv met w) as Ha;
    destruct (mul met w) as [a|e]; simpl; [|congruence] end.
  pose proof (truediv_by_60_not_zerodiv d) as Hh.
  destruct (truediv d (Int 60)) as [h|e]; simpl; [|congruence].
  pose proof (mul_not_zerodiv a (Float h)) as Hx.
  destruct (mul a (Float h)) as [x|e]; simpl; [|congruence].
  apply round_not_zerodiv.
Qed.

Lemma calculate_recovery_time_unfold d a self :
  calculate_recovery_time d a self =
  (recovery_formula (resting_hr self) (max_hr self) d a, self).
Proof.
  unfold calculate_recovery_time, recovery_formula. run_monad.
  split_results.
Qed.

Lemma recovery_formula_not_zerodiv r m d a :
  m <> r -> recovery_formula r m d a <> Raise ZeroDivisionError.
Proof.
  intros Hm. unfold recovery_formula. run_monad.
  pose proof (truediv_int_not_zerodiv (a - r) (m - r) ltac:(lia)) as Hp.
  destruct (truediv (Int (a - r)) _) as [p|e]; [|congruence].
  pose proof (truediv_by_60_not_zerodiv d) as Hh.
  destruct (truediv d (Int 60)) as [h|e]; [|congruence].
  match goal with |- context [add ?x ?y] =>
    pose proof (add_not_zerodiv x y) as Hk;
    destruct (add x y) as [k|e]; [|congruence] end.
  pose proof (mul_not_zerodiv (Float h) k) as Hx.
  destruct (mul (Float h) k) as [x|e]; [|congruence].
  pose proof (mul_not_zerodiv x (Int 2)) as Hy.
  destruct (mul x (Int 2)) as [y|e]; [|congruence].
  pose proof (round_not_zerodiv y) as Hn.
  destruct (round y) as [n|e]; [|congruence].
  apply truediv_int_not_zerodiv. lia.
Qed.

(** * Values of the float operations *)

Lemma good_not_inf f : good f -> is_inf f = false.
Proof. destruct f; simpl; intros H; try reflexivity; contradiction. Qed.

Lemma good_exponent f : good f ->
  match f with S754_finite _ _ e => -1074 <= e | _ => True end.
Proof. destruct f; simpl; auto. unfold fexp64. lia. Qed.

(** [int -> float]: the value is the integer rounded to binary64. *)
Lemma float_of_int_value z f k :
  k <= -1074 -> float_of_int z = Ok f ->
  good f /\ sval k f = RZs (-1074 - k) (z * 2 ^ (- k)).
Proof.
  intros Hk. unfold float_of_int, binary_normalize, prec, emax.
  pose proof (pow2_pos (- k) ltac:(lia)) as Hp.
  destruct z as [|m|m].
  - intros H. inversion H; subst. split; [exact I|].
    unfold RZs. reflexivity.
  - pose proof (binary_round_spec false m 0 k Hk ltac:(lia)) as [Hfin Hinf].
    cbv zeta in Hfin, Hinf. rewrite Z.sub_0_l in Hfin, Hinf.
    destruct (Z.lt_ge_cases (RZ (-1074 - k) (Zpos m * 2 ^ (- k))) (2 ^ (1024 - k)))
      as [Hlt|Hge].
    + destruct (Hfin Hlt) as [Hg Hv]. rewrite (good_not_inf _ Hg).
      intros H. inversion H; subst. split; [exact Hg|].
      rewrite Hv. change (Zpos m * 2 ^ (- k)) with (cond_Zopp false (Zpos m * 2 ^ (- k))) at 2.
      rewrite RZs_cond by lia. reflexivity.
    + rewrite (Hinf Hge). simpl. discriminate.
  - pose proof (binary_round_spec true m 0 k Hk ltac:(lia)) as [Hfin Hinf].
    cbv zeta in Hfin, Hinf. rewrite Z.sub_0_l in Hfin, Hinf.
    destruct (Z.lt_ge_cases (RZ (-1074 - k) (Zpos m * 2 ^ (- k))) (2 ^ (1024 - k)))
      as [Hlt|Hge].
    + destruct (Hfin Hlt) as [Hg Hv]. rewrite (good_not_inf _ Hg).
      intros H. inversion H; subst. split; [exact Hg|].
      rewrite Hv.
      replace (Zneg m * 2 ^ (- k)) with (cond_Zopp true (Zpos m * 2 ^ (- k)))
        by (simpl cond_Zopp; lia).
      rewrite RZs_cond by lia. reflexivity.
    + rewrite (Hinf Hge). simpl. discriminate.
Qed.

(** The product of two canonical significands is precise enough to be
    rounded once. *)
Lemma product_precise ma ea mb eb :
  good (S754_finite false ma ea) -> good (S754_finite false mb eb) ->
  ea + eb <= fexp64 (Zdigits2 (Zpos (ma * mb)) + (ea + eb)).
Proof.
  intros [Ha _] [Hb _].
  pose proof (Zdigits2_spec (Zpos ma) ltac:(lia)) as [Hla _].
  pose proof (Zdigits2_spec (Zpos mb) ltac:(lia)) as [Hlb _].
  pose proof (Zdigits2_pos (Zpos ma) ltac:(lia)) as Hda.
  pose proof (Zdigits2_pos (Zpos mb) ltac:(lia)) as Hdb.
  assert (Zdigits2 (Zpos ma) + Zdigits2 (Zpos mb) - 1 <= Zdigits2 (Zpos (ma * mb))) as Hd.
  { apply Zdigits2_ge; [lia|].
    replace (Zdigits2 (Zpos ma) + Zdigits2 (Zpos mb) - 1 - 1)
      with ((Zdigits2 (Zpos ma) - 1) + (Zdigits2 (Zpos mb) - 1)) by lia.
    rewrite Z.pow_add_r, Pos2Z.inj_mul by lia.
    apply Z.mul_le_mono_nonneg; try lia; apply Z.pow_nonneg; lia. }
  unfold fexp64 in *. lia.
Qed.

Lemma sval_finite k s m e : sval k (S754_finite s m e) = cond_Zopp s (Zpos m * 2 ^ (e - k)).
Proof. reflexivity. Qed.

Lemma cond_Zopp_mul sa sb A B :
  cond_Zopp sa A * cond_Zopp sb B = cond_Zopp (xorb sa sb) (A * B).
Proof. destruct sa, sb; simpl; lia. Qed.

Lemma good_scaled f k : good f -> k <= -1074 -> scaled k f.
Proof.
  intros G Hk. pose proof (good_exponent f G). destruct f; simpl in *; auto. lia.
Qed.

(** [fmul]: the exact product, rounded; an infinity only by overflow. *)
Lemma fmul_value a b ka kb :
  good a -> good b -> scaled ka a -> scaled kb b -> ka + kb <= -1074 ->
  is_inf (fmul a b) = false ->
  good (fmul a b) /\
  sval (ka + kb) (fmul a b) = RZs (-1074 - (ka + kb)) (sval ka a * sval kb b).
Proof.
  intros Ga Gb Sa Sb Hk.
  destruct a as [sa|sa| |sa ma ea]; try contradiction;
    destruct b as [sb|sb| |sb mb eb]; try contradiction.
  - intros _. split; [exact I|]. reflexivity.
  - intros _. split; [exact I|]. reflexivity.
  - intros _. split; [exact I|]. simpl sval at 3. rewrite Z.mul_0_r. reflexivity.
  - unfold fmul, SFmul, prec, emax. simpl in Sa, Sb.
    pose proof (product_precise ma ea mb eb) as Hpre.
    pose proof (round_exact (xorb sa sb) (Zpos (ma * mb)) (ea + eb) (ka + kb)
                  ltac:(lia) (Hpre Ga Gb) Hk ltac:(lia)) as [Hfin Hinf].
    cbv zeta in Hfin, Hinf.
    destruct (Z.lt_ge_cases
                (RZ (-1074 - (ka + kb)) (Zpos (ma * mb) * 2 ^ (ea + eb - (ka + kb))))
                (2 ^ (1024 - (ka + kb)))) as [Hlt|Hge].
    + intros _. destruct (Hfin Hlt) as [Hg Hv]. split; [exact Hg|].
      rewrite Hv, !sval_finite, cond_Zopp_mul.
      pose proof (pow2_pos (ea - ka) ltac:(lia)). pose proof (pow2_pos (eb - kb) ltac:(lia)).
      rewrite RZs_cond by nia. do 2 f_equal.
      replace (ea + eb - (ka + kb)) with ((ea - ka) + (eb - kb)) by lia.
      rewrite Z.pow_add_r, Pos2Z.inj_mul by lia. ring.
    + rewrite (Hinf Hge). simpl. discriminate.
Qed.

(** A canonical float is its own rounding. *)
Lemma good_exact f k :
  good f -> k <= -1074 -> RZs (-1074 - k) (sval k f) = sval k f.
Proof.
  intros G Hk. destruct f as [s|s| |s m e]; try contradiction; try reflexivity.
  destruct G as [Hc _]. rewrite sval_finite.
  pose proof (Zdigits2_pos (Zpos m) ltac:(lia)) as Hd.
  assert (-1074 <= e) as He by (unfold fexp64 in Hc; lia).
  pose proof (pow2_pos (e - k) ltac:(lia)) as Hp.
  rewrite RZs_cond by nia. f_equal.
  apply RZ_exact; try lia. unfold fexp64 in Hc. lia.
Qed.

Lemma cond_Zopp_scale s A B : cond_Zopp s A * B = cond_Zopp s (A * B).
Proof. destruct s; simpl; lia. Qed.

Lemma binary_normalize_value z ez k :
  k <= -1074 -> k <= ez ->
  is_inf (binary_normalize 53 1024 z ez false) = false ->
  good (binary_normalize 53 1024 z ez false) /\
  sval k (binary_normalize 53 1024 z ez false)
  = RZs (-1074 - k) (z * 2 ^ (ez - k)).
Proof.
  intros Hk Hke. unfold binary_normalize.
  pose proof (pow2_pos (ez - k) ltac:(lia)) as Hp.
  destruct z as [|m|m].
  - intros _. split; [exact I|]. reflexivity.
  - pose proof (binary_round_spec false m ez k Hk Hke) as [Hfin Hinf].
    cbv zeta in Hfin, Hinf.
    destruct (Z.lt_ge_cases (RZ (-1074 - k) (Zpos m * 2 ^ (ez - k))) (2 ^ (1024 - k)))
      as [Hlt|Hge].
    + intros _. destruct (Hfin Hlt) as [Hg Hv]. split; [exact Hg|].
      rewrite Hv.
      change (Zpos m * 2 ^ (ez - k)) with (cond_Zopp false (Zpos m * 2 ^ (ez - k))) at 2.
      rewrite RZs_cond by lia. reflexivity.
    + rewrite (Hinf Hge). simpl. discriminate.
  - pose proof (binary_round_spec true m ez k Hk Hke) as [Hfin Hinf].
    cbv zeta in Hfin, Hinf.
    destruct (Z.lt_ge_cases (RZ (-1074 - k) (Zpos m * 2 ^ (ez - k))) (2 ^ (1024 - k)))
      as [Hlt|Hge].
    + intros _. destruct (Hfin Hlt) as [Hg Hv]. split; [exact Hg|].
      rewrite Hv.
      replace (Zneg m * 2 ^ (ez - k)) with (cond_Zopp true (Zpos m * 2 ^ (ez - k)))
        by (simpl cond_Zopp; lia).
      rewrite RZs_cond by lia. reflexivity.
    + rewrite (Hinf Hge). simpl. discriminate.
Qed.

Lemma shl_align_fst m e ez :
  ez <= e -> Zpos (fst (shl_align m e ez)) = Zpos m * 2 ^ (e - ez).
Proof.
  intros Hle. pose proof (shl_align_spec m e ez) as H.
  destruct (shl_align m e ez) as [mz ez']. destruct H as [H1 H2]. simpl.
  rewrite H2, H1. do 2 f_equal. lia.
Qed.

(** [fadd]: the exact sum, rounded; an infinity only by overflow. *)
Lemma fadd_value a b k :
  good a -> good b -> k <= -1074 ->
  is_inf (fadd a b) = false ->
  good (fadd a b) /\
  sval k (fadd a b) = RZs (-1074 - k) (sval k a + sval k b).
Proof.
  intros Ga Gb Hk.
  pose proof (good_exact a k Ga Hk) as Ea. pose proof (good_exact b k Gb Hk) as Eb.
  destruct a as [sa|sa| |sa ma ea]; try contradiction;
    destruct b as [sb|sb| |sb mb eb]; try contradiction.
  - intros _. split; [destruct sa, sb; exact I|]. destruct sa, sb; reflexivity.
  - intros _. split; [exact Gb|]. simpl sval at 2. rewrite Z.add_0_l, Eb. reflexivity.
  - intros _. split; [exact Ga|]. simpl sval at 3. rewrite Z.add_0_r, Ea. reflexivity.
  - unfold fadd, SFadd, prec, emax.
    pose proof (good_exponent _ Ga) as Ha. pose proof (good_exponent _ Gb) as Hb.
    simpl in Ha, Hb.
    set (ez := Z.min ea eb).
    intros Hi.
    destruct (binary_normalize_value _ ez k Hk ltac:(lia) Hi) as [Hg Hv].
    split; [exact Hg|]. rewrite Hv. f_equal.
    rewrite !shl_align_fst by lia. rewrite !sval_finite.
    rewrite Z.mul_add_distr_r, !cond_Zopp_scale.
    rewrite <- !Z.mul_assoc, <- !Z.pow_add_r by lia.
    replace (ea - ez + (ez - k)) with (ea - k) by lia.
    replace (eb - ez + (ez - k)) with (eb - k) by lia. reflexivity.
Qed.

Lemma rne_rnd m e k : k <= e -> k <= 0 -> rne m e = rnd (Zpos m * 2 ^ (e - k)) (- k).
Proof.
  intros Hke Hk. destruct e as [|p|n].
  - unfold rne. rewrite Z.sub_0_l. change (2 ^ 0) with 1.
    rewrite Z.mul_1_r, rnd_exact by lia. reflexivity.
  - unfold rne.
    replace (Zpos p - k) with (Zpos p + - k) by lia.
    rewrite Z.pow_add_r, Z.mul_assoc, rnd_exact by lia. reflexivity.
  - change (rne m (Zneg n)) with (rnd (Zpos m) (Zpos n)).
    replace (- k) with (Zpos n + (Zneg n - k)) by lia.
    rewrite rnd_scale by lia. reflexivity.
Qed.

(** [round] of a float: its value rounded half to even to an integer. *)
Lemma round_value f k :
  good f -> k <= -1074 -> round (Float f) = Ok (rnds (sval k f) (- k)).
Proof.
  intros G Hk. destruct f as [s|s| |s m e]; try contradiction.
  - reflexivity.
  - pose proof (good_exponent _ G) as He. simpl in He.
    unfold round. rewrite sval_finite.
    pose proof (pow2_pos (e - k) ltac:(lia)).
    rewrite rnds_cond by nia. rewrite <- rne_rnd by lia. reflexivity.
Qed.

Lemma fadd_inf_r a s : good a -> fadd a (S754_infinity s) = S754_infinity s.
Proof. destruct a; simpl; intros; try contradiction; reflexivity. Qed.

Lemma bound_is_value r h mc x :
  Zdigits2 (Zpos mc) = 53 ->
  bound r h (S754_finite false mc (-53)) = Ok x ->
  x = bound_value r h (Zpos mc).
Proof.
  intros Hd. unfold bound, mul, add, to_float. unfold mbind at 1 2 3, res_bind.
  assert (good (S754_finite false mc (-53))) as Gc.
  { split; [|lia]. rewrite Hd. reflexivity. }
  destruct (float_of_int h) as [H|e] eqn:EH; [|discriminate].
  destruct (float_of_int_value h H (-1074) ltac:(lia) EH) as [GH VH].
  simpl. unfold mbind, res_bind.
  destruct (float_of_int r) as [R|e] eqn:ER; [|discriminate].
  destruct (float_of_int_value r R (-1127) ltac:(lia) ER) as [GR VR].
  set (P := fmul H (S754_finite false mc (-53))).
  destruct (is_inf P) eqn:EP.
  { destruct P as [| sP | |] eqn:EP'; try discriminate.
    rewrite fadd_inf_r by exact GR. discriminate. }
  destruct (fmul_value H (S754_finite false mc (-53)) (-1074) (-53) GH Gc
              (good_scaled H (-1074) GH ltac:(lia))
              ltac:(simpl; lia) ltac:(lia) EP) as [GP VP].
  fold P in GP, VP.
  destruct (is_inf (fadd R P)) eqn:ES.
  { destruct (fadd R P); try discriminate. }
  destruct (fadd_value R P (-1127) GR GP ltac:(lia) ES) as [GS VS].
  rewrite (round_value _ (-1127) GS) by lia.
  intros Hx. inversion Hx; subst x. unfold bound_value.
  rewrite VS, VR. change (-1074 - -1127) with 53. change (- -1127) with 1127.
  change (-1074 + -53) with (-1127) in VP. rewrite VP, VH.
  change (-1074 - -1127) with 53. change (-1074 - -1074) with 0.
  change (- -1074) with 1074.
  rewrite sval_finite. simpl cond_Zopp. change (2 ^ (-53 - -53)) with 1.
  rewrite Z.mul_1_r. reflexivity.
Qed.

Lemma bound_value_mono r h c1 c2 :
  c1 <= c2 ->
  (0 <= h -> bound_value r h c1 <= bound_value r h c2) /\
  (h <= 0 -> bound_value r h c2 <= bound_value r h c1).
Proof.
  intros Hc. unfold bound_value.
  pose proof (RZs_sign 0 (h * 2 ^ 1074) ltac:(lia)) as [Hp Hn].
  split; intros Hh.
  - apply rnds_mono; [lia|]. apply RZs_mono; [lia|].
    apply Z.add_le_mono_l. apply RZs_mono; [lia|].
    apply Z.mul_le_mono_nonneg_l; [apply Hp; lia | exact Hc].
  - apply rnds_mono; [lia|]. apply RZs_mono; [lia|].
    apply Z.add_le_mono_l. apply RZs_mono; [lia|].
    apply Z.mul_le_mono_nonpos_l; [apply Hn; lia | exact Hc].
Qed.

(** The five fractions of the zone table as binary64 numbers. *)
Lemma fractions :
  f0_5 = S754_finite false 4503599627370496 (-53) /\
  f0_6 = S754_finite false 5404319552844595 (-53) /\
  f0_7 = S754_finite false 6305039478318694 (-53) /\
  f0_8 = S754_finite false 7205759403792794 (-53) /\
  f0_9 = S754_finite false 8106479329266893 (-53).
Proof. repeat split; reflexivity. Qed.

(** The rounded bounds of one table follow the order of the fractions:
    upwards for a non-negative reserve, downwards for a non-positive
    one. *)
Lemma bounds_ordered r h x5 x6 x7 x8 x9 :
  bound r h f0_5 = Ok x5 -> bound r h f0_6 = Ok x6 -> bound r h f0_7 = Ok x7 ->
  bound r h f0_8 = Ok x8 -> bound r h f0_9 = Ok x9 ->
  (0 <= h -> x5 <= x6 /\ x6 <= x7 /\ x7 <= x8 /\ x8 <= x9) /\
  (h <= 0 -> x9 <= x8 /\ x8 <= x7 /\ x7 <= x6 /\ x6 <= x5).
Proof.
  destruct fractions as (-> & -> & -> & -> & ->).
  intros H5 H6 H7 H8 H9.
  apply bound_is_value in H5; [|reflexivity].
  apply bound_is_value in H6; [|reflexivity].
  apply bound_is_value in H7; [|reflexivity].
  apply bound_is_value in H8; [|reflexivity].
  apply bound_is_value in H9; [|reflexivity].
  subst.
  pose proof (bound_value_mono r h 4503599627370496 5404319552844595 ltac:(lia)) as [A1 B1].
  pose proof (bound_value_mono r h 5404319552844595 6305039478318694 ltac:(lia)) as [A2 B2].
  pose proof (bound_value_mono r h 6305039478318694 7205759403792794 ltac:(lia)) as [A3 B3].
  pose proof (bound_value_mono r h 7205759403792794 8106479329266893 ltac:(lia)) as [A4 B4].
  split; intros Hh; auto.
Qed.

Lemma reachable_table self :
  reachable self -> zones self = ∅ \/ ordered_table (zones self).
Proof.
  induction 1 as [|c self Hr IH]; [left; reflexivity|].
  pose proof (after_reads c self) as Hc.
  destruct c as [age r m| | | | |]; try (rewrite Hc; exact IH).
  simpl. destruct (calculate_zones age r m self) as [[tbl|e] s'] eqn:E.
  - apply calculate_zones_Ok in E. cbv zeta in E.
    destruct E as (x5 & x6 & x7 & x8 & x9 & H5 & H6 & H7 & H8 & H9 & -> & ->).
    right. exists x5, x6, x7, x8, x9, (or_estimated age m).
    split; [reflexivity|].
    destruct (bounds_ordered _ _ _ _ _ _ _ H5 H6 H7 H8 H9) as [Hup Hdown].
    destruct (Z.le_ge_cases 0 (or_estimated age m - r)); [left; auto | right; apply Hdown; lia].
  - apply calculate_zones_Raise in E. simpl. subst. exact IH.
Qed.

(** * The operations return *)

Lemma within_le j j' f : within j f -> j <= j' -> within j' f.
Proof. intros [G M] H. split; [exact G | lia]. Qed.

Lemma mag_finish s m1 E j :
  0 <= m1 <= 2 ^ 53 -> (-1074 < E -> 2 ^ 52 <= m1) -> -1074 <= E ->
  -1074 <= j -> j <= 1023 -> m1 * 2 ^ (E + 1074) <= 2 ^ (j + 1074) ->
  within (j + 1) (finish s m1 E).
Proof.
  intros Hm Hn HE Hj0 Hj Hv.
  destruct (finish_spec s m1 E (-1074) Hm Hn HE ltac:(lia)) as [Hfin _].
  replace (E - -1074) with (E + 1074) in Hfin by lia.
  assert (m1 * 2 ^ (E + 1074) < 2 ^ (1024 - -1074)) as Hlt.
  { pose proof (pow2_lt (j + 1074) (1024 - -1074) ltac:(lia) ltac:(lia)). lia. }
  destruct (Hfin Hlt) as [G V]. split; [exact G|].
  destruct (finish s m1 E) as [| | |s' m e] eqn:Ef; unfold mag; try lia.
  rewrite sval_finite in V.
  pose proof (good_exponent _ G) as He. simpl in He.
  assert (Zpos m * 2 ^ (e - -1074) = m1 * 2 ^ (E + 1074)) as V'
    by (destruct s', s; simpl in V; lia).
  pose proof (pow2_pos (e - -1074) ltac:(lia)) as Hp.
  assert (Zdigits2 (Zpos m * 2 ^ (e - -1074)) <= j + 1074 + 1) as Hd.
  { destruct (Z.eq_dec (Zpos m * 2 ^ (e - -1074)) (2 ^ (j + 1074))) as [Eq|Ne].
    - rewrite Eq. rewrite Zdigits2_log2, Z.log2_pow2 by (try apply pow2_pos; lia). lia.
    - apply Z.le_trans with (j + 1074); [|lia].
      apply Zdigits2_le; [nia|lia|lia]. }
  rewrite Zdigits2_mul_pow2 in Hd by lia. lia.
Qed.

(** Rounding with any location: below [2^1023] the result is a float,
    at most one binade above the input. *)
Lemma round_any s mx ex lx :
  0 < mx -> ex <= fexp64 (Zdigits2 mx + ex) ->
  Z.max (Zdigits2 mx + ex) (-1074) <= 1023 ->
  within (Z.max (Zdigits2 mx + ex) (-1074) + 1) (binary_round_aux 53 1024 s mx ex lx).
Proof.
  intros Hm Hpre Hb.
  destruct (binary_round_aux_shape s mx ex lx Hm Hpre) as (m1 & Hr & _ & Hhi & Hlo & ->).
  set (E := fexp64 (Zdigits2 mx + ex)) in *.
  set (j := Z.max (Zdigits2 mx + ex) (-1074)) in *.
  pose proof (Zdigits2_spec mx Hm) as [_ Hlt].
  pose proof (Zdigits2_pos mx Hm) as Hd.
  pose proof (pow2_pos (E - ex) ltac:(lia)) as Hp.
  assert (0 <= mx / 2 ^ (E - ex)) as Hq0 by (apply Z.div_pos; lia).
  assert (-1074 <= E) as HE by (unfold E, fexp64; lia).
  apply mag_finish; try lia.
  destruct (Z.le_gt_cases (E - ex) (Zdigits2 mx)) as [Hc|Hc].
  - assert (mx / 2 ^ (E - ex) < 2 ^ (Zdigits2 mx - (E - ex))) as Hq.
    { apply Z.div_lt_upper_bound; [lia|].
      rewrite <- Z.pow_add_r by lia.
      replace (E - ex + (Zdigits2 mx - (E - ex))) with (Zdigits2 mx) by lia. lia. }
    assert (m1 <= 2 ^ (Zdigits2 mx - (E - ex))) as Hm1 by lia.
    apply Z.le_trans with (2 ^ (Zdigits2 mx - (E - ex)) * 2 ^ (E + 1074)).
    + apply Z.mul_le_mono_nonneg_r; [apply Z.pow_nonneg; lia | lia].
    + rewrite <- Z.pow_add_r by lia. apply pow2_le; lia.
  - assert (mx / 2 ^ (E - ex) = 0) as Hq.
    { apply Z.div_small. split; [lia|].
      pose proof (pow2_le (Zdigits2 mx) (E - ex) ltac:(lia) ltac:(lia)). lia. }
    assert (E = -1074) as HE' by (unfold E, fexp64 in *; lia).
    assert (0 <= m1 <= 1) as Hm1 by lia.
    apply Z.le_trans with (1 * 2 ^ (E + 1074)).
    + apply Z.mul_le_mono_nonneg_r; [apply Z.pow_nonneg; lia | lia].
    + rewrite Z.mul_1_l. apply pow2_le; lia.
Qed.

Lemma within_not_inf j f : within j f -> is_inf f = false.
Proof. intros [G _]. apply good_not_inf, G. Qed.

Lemma binary_round_within s m e j :
  Zdigits2 (Zpos m) + e <= j -> -1074 <= j -> j <= 1023 ->
  within (j + 1) (binary_round 53 1024 s m e).
Proof.
  intros Hd Hj0 Hj. unfold binary_round. rewrite fexp_64.
  pose proof (shl_align_spec m e (fexp64 (Zpos (digits2_pos m) + e))) as Hs.
  destruct (shl_align m e _) as [mz ez]. destruct Hs as [Hez Hmz].
  change (Zpos (digits2_pos m)) with (Zdigits2 (Zpos m)) in *.
  assert (Zdigits2 (Zpos mz) + ez = Zdigits2 (Zpos m) + e) as Hd'.
  { rewrite Hmz, Zdigits2_mul_pow2 by lia. lia. }
  apply within_le with (Z.max (Zdigits2 (Zpos mz) + ez) (-1074) + 1); [|lia].
  apply round_any; [lia| |lia]. rewrite Hd'. lia.
Qed.

Lemma binary_normalize_within z e j :
  Zdigits2 (Z.abs z) + e <= j -> -1074 <= j -> j <= 1023 ->
  within (j + 1) (binary_normalize 53 1024 z e false).
Proof.
  intros Hd Hj0 Hj. destruct z as [|m|m]; simpl binary_normalize.
  - split; [exact I | simpl; lia].
  - apply binary_round_within; assumption.
  - apply binary_round_within; assumption.
Qed.

Lemma Zdigits2_abs_le z j : 0 <= j -> Z.abs z < 2 ^ j -> Zdigits2 (Z.abs z) <= j.
Proof.
  intros Hj Hz. destruct (Z.eq_dec z 0) as [->|Hnz]; [simpl; lia|].
  apply Zdigits2_le; lia.
Qed.

(** An integer below [2^1023] in magnitude converts to a float. *)
Lemma float_of_int_within z j :
  Z.abs z < 2 ^ j -> 0 <= j -> j <= 1023 ->
  exists f, float_of_int z = Ok f /\ within (j + 1) f.
Proof.
  intros Hz Hj0 Hj. unfold float_of_int, prec, emax.
  pose proof (binary_normalize_within z 0 j
                ltac:(pose proof (Zdigits2_abs_le z j Hj0 Hz); lia) ltac:(lia) Hj) as W.
  rewrite (within_not_inf _ _ W). eauto.
Qed.

Lemma Zdigits2_mul_le a b :
  0 < a -> 0 < b -> Zdigits2 (a * b) <= Zdigits2 a + Zdigits2 b.
Proof.
  intros Ha Hb.
  pose proof (Zdigits2_spec a Ha) as [_ Ha'].
  pose proof (Zdigits2_spec b Hb) as [_ Hb'].
  pose proof (Zdigits2_pos a Ha). pose proof (Zdigits2_pos b Hb).
  apply Zdigits2_le; [nia|lia|].
  rewrite Z.pow_add_r by lia. nia.
Qed.

(** The product of two floats whose exponents sum up to 1023 or less. *)
Lemma fmul_within a b ja jb :
  within ja a -> within jb b -> 0 <= ja -> 0 <= jb -> ja + jb <= 1023 ->
  within (ja + jb + 1) (fmul a b).
Proof.
  intros [Ga Ma] [Gb Mb] Ha Hb Hj.
  destruct a as [sa|sa| |sa ma ea]; try contradiction;
    destruct b as [sb|sb| |sb mb eb]; try contradiction;
    try (split; [exact I | simpl; lia]).
  unfold fmul, SFmul, prec, emax. unfold mag in Ma, Mb.
  pose proof (Zdigits2_mul_le (Zpos ma) (Zpos mb) ltac:(lia) ltac:(lia)) as Hd.
  rewrite <- Pos2Z.inj_mul in Hd.
  apply within_le with (Z.max (Zdigits2 (Zpos (ma * mb)) + (ea + eb)) (-1074) + 1); [|lia].
  apply round_any; [lia | apply product_precise; assumption | lia].
Qed.

Lemma Zdigits2_add_le a b j :
  0 <= j -> Z.abs a < 2 ^ j -> Z.abs b < 2 ^ j -> Zdigits2 (Z.abs (a + b)) <= j + 1.
Proof.
  intros Hj Ha Hb. apply Zdigits2_abs_le; [lia|].
  rewrite Z.pow_add_r by lia. change (2 ^ 1) with 2. lia.
Qed.

(** The sum of two floats below [2^1022]. *)
Lemma fadd_within a b j :
  within j a -> within j b -> 0 <= j -> j <= 1021 ->
  within (j + 2) (fadd a b).
Proof.
  intros [Ga Ma] [Gb Mb] Hj0 Hj.
  destruct a as [sa|sa| |sa ma ea]; try contradiction;
    destruct b as [sb|sb| |sb mb eb]; try contradiction.
  - destruct sa, sb; split; simpl; try exact I; lia.
  - split; [exact Gb | simpl in *; lia].
  - split; [exact Ga | simpl in *; lia].
  - unfold fadd, SFadd, prec, emax. unfold mag in Ma, Mb.
    pose proof (good_exponent _ Ga) as Ha. pose proof (good_exponent _ Gb) as Hb.
    simpl in Ha, Hb.
    set (ez := Z.min ea eb).
    replace (j + 2) with ((j + 1) + 1) by lia.
    apply binary_normalize_within; [|lia|lia].
    assert (forall s m e, Zdigits2 (Zpos m) + e <= j -> ez <= e ->
              Z.abs (cond_Zopp s (Zpos (fst (shl_align m e ez)))) < 2 ^ (j - ez)) as Hal.
    { intros s m e Hm He. rewrite shl_align_fst by lia.
      pose proof (Zdigits2_spec (Zpos m) ltac:(lia)) as [_ Hlt].
      pose proof (Zdigits2_pos (Zpos m) ltac:(lia)).
      pose proof (pow2_pos (e - ez) ltac:(lia)).
      replace (Z.abs (cond_Zopp s (Zpos m * 2 ^ (e - ez)))) with (Zpos m * 2 ^ (e - ez))
        by (destruct s; simpl cond_Zopp; lia).
      apply Z.lt_le_trans with (2 ^ Zdigits2 (Zpos m) * 2 ^ (e - ez)).
      - apply Z.mul_lt_mono_pos_r; lia.
      - rewrite <- Z.pow_add_r by lia. apply pow2_le; lia. }
    pose proof (Zdigits2_pos (Zpos ma) ltac:(lia)).
    pose proof (Zdigits2_add_le _ _ (j - ez) ltac:(lia)
                  (Hal sa ma ea Ma ltac:(lia)) (Hal sb mb eb Mb ltac:(lia))). lia.
Qed.

(** Rounding a zero significand with its location, at or below the
    smallest exponent: zero or the smallest subnormal. *)
Lemma round_zero s ex lx :
  ex <= -1074 -> within (-1073) (binary_round_aux 53 1024 s 0 ex lx).
Proof.
  intros He. unfold binary_round_aux, shr_fexp. rewrite fexp_64.
  simpl Zdigits2. rewrite Z.add_0_l.
  replace (fexp64 ex - ex) with (-1074 - ex) by (unfold fexp64; lia).
  destruct (-1074 - ex) as [|p|p] eqn:En; [| |lia].
  - assert (ex = -1074) as -> by lia.
    destruct lx as [|[]]; split; simpl; try exact I; try lia.
    split; [reflexivity | lia].
  - assert (exists r0 s0, shr_record_of_loc 0 lx = Build_shr_record 0 r0 s0)
      as (r0 & s0 & ->) by (destruct lx as [|[]]; simpl; eauto).
    rewrite shr_pos by lia. rewrite !Zdiv_0_l.
    replace (ex + Zpos p) with (-1074) by lia. cbn [Z.odd].
    destruct (negb (0 mod 2 ^ (Zpos p - 1) =? 0) || (r0 || s0));
      split; simpl; try exact I; lia.
Qed.

(** The quotient of two significands, rounded: a float one binade
    above the difference of the exponents at most. *)
Lemma div_core_within sx m1 e1 m2 e2 :
  let D := Zdigits2 (Zpos m1) + e1 - (Zdigits2 (Zpos m2) + e2) in
  D + 1 <= 1023 ->
  within (Z.max (D + 1) (-1074) + 1)
    (let '(mz, ez, lz) := SFdiv_core_binary 53 1024 (Zpos m1) e1 (Zpos m2) e2 in
     binary_round_aux 53 1024 sx mz ez lz).
Proof.
  intros D HD. unfold SFdiv_core_binary. rewrite fexp_64.
  set (d1 := Zdigits2 (Zpos m1)) in *. set (d2 := Zdigits2 (Zpos m2)) in *.
  replace (d1 + e1 - (d2 + e2)) with D by reflexivity.
  set (e' := Z.min (fexp64 D) (e1 - e2)).
  set (s := e1 - e2 - e').
  assert (0 <= s) as Hs by (unfold s, e'; lia).
  set (m' := match s with Zpos _ => Z.shiftl (Zpos m1) s | 0 => Zpos m1 | Zneg _ => 0 end).
  assert (m' = Zpos m1 * 2 ^ s) as Hm'.
  { unfold m'. destruct s as [|p|p] eqn:Es; [simpl; lia| |lia].
    rewrite Z.shiftl_mul_pow2 by lia. reflexivity. }
  clearbody m'.
  pose proof (Zdigits2_spec (Zpos m1) ltac:(lia)) as [H1lo H1hi].
  pose proof (Zdigits2_spec (Zpos m2) ltac:(lia)) as [H2lo H2hi].
  pose proof (Zdigits2_pos (Zpos m1) ltac:(lia)) as Hd1.
  pose proof (Zdigits2_pos (Zpos m2) ltac:(lia)) as Hd2.
  fold d1 in H1lo, H1hi, Hd1. fold d2 in H2lo, H2hi, Hd2.
  pose proof (pow2_pos s Hs) as Hps.
  assert (2 ^ (d1 - 1 + s) <= m' < 2 ^ (d1 + s)) as Hmb.
  { rewrite Hm', !Z.pow_add_r by lia. nia. }
  assert (Z.div_eucl m' (Zpos m2) = (m' / Zpos m2, m' mod Zpos m2)) as ->.
  { unfold Z.div, Z.modulo. destruct (Z.div_eucl m' (Zpos m2)). reflexivity. }
  destruct (Z.eq_dec (m' / Zpos m2) 0) as [Hq|Hq].
  - rewrite Hq.
    apply Z.div_small_iff in Hq; [|lia]. destruct Hq as [Hq|Hq]; [|lia].
    assert (d1 - 1 + s < d2) as Hlt.
    { destruct (Z.lt_ge_cases (d1 - 1 + s) d2) as [|Hge]; [assumption|].
      pose proof (pow2_le d2 (d1 - 1 + s) Hge ltac:(lia)). lia. }
    assert (e' <= -1074) as He' by (unfold D, s, e', fexp64 in *; lia).
    apply within_le with (-1073); [apply round_zero; exact He' | lia].
  - assert (0 < m' / Zpos m2) as Hqpos.
    { pose proof (Z.div_pos m' (Zpos m2) ltac:(lia) ltac:(lia)). lia. }
    assert (Zpos m2 <= m') as Hge.
    { destruct (Z.lt_ge_cases m' (Zpos m2)) as [Hlt|]; [|assumption].
      rewrite Z.div_small in Hq by lia. contradiction. }
    assert (d2 - 1 < d1 + s) as Hds.
    { destruct (Z.lt_ge_cases (d2 - 1) (d1 + s)) as [|Hc]; [assumption|].
      pose proof (pow2_le (d1 + s) (d2 - 1) Hc ltac:(lia)). lia. }
    assert (d1 + s - d2 <= Zdigits2 (m' / Zpos m2)) as Hlo.
    { apply Zdigits2_ge; [lia|].
      destruct (Z.lt_ge_cases (d1 + s - d2 - 1) 0) as [Hneg|Hnn].
      - rewrite Z.pow_neg_r by lia. lia.
      - apply Z.div_le_lower_bound; [lia|].
        apply Z.le_trans with (2 ^ d2 * 2 ^ (d1 + s - d2 - 1)).
        + apply Z.mul_le_mono_nonneg_r; [apply Z.pow_nonneg; lia | lia].
        + rewrite <- Z.pow_add_r by lia.
          replace (d2 + (d1 + s - d2 - 1)) with (d1 - 1 + s) by lia. lia. }
    assert (Zdigits2 (m' / Zpos m2) <= d1 + s - d2 + 1) as Hhi.
    { apply Zdigits2_le; [lia|lia|].
      apply Z.div_lt_upper_bound; [lia|].
      apply Z.lt_le_trans with (2 ^ (d2 - 1) * 2 ^ (d1 + s - d2 + 1)).
      + rewrite <- Z.pow_add_r by lia.
        replace (d2 - 1 + (d1 + s - d2 + 1)) with (d1 + s) by lia. lia.
      + apply Z.mul_le_mono_nonneg_r; [apply Z.pow_nonneg; lia | lia]. }
    apply within_le with (Z.max (Zdigits2 (m' / Zpos m2) + e') (-1074) + 1);
      [|unfold s in *; lia].
    apply round_any; [lia| |unfold s in *; lia].
    unfold s, e', fexp64 in *. lia.
Qed.

Lemma to_float_within x j :
  num_within j x -> 0 <= j -> j <= 1023 ->
  exists f, to_float x = Ok f /\ within (j + 1) f.
Proof.
  destruct x as [z|f]; simpl; intros H Hj0 Hj.
  - apply float_of_int_within; assumption.
  - exists f. split; [reflexivity | eapply within_le; [exact H | lia]].
Qed.

Lemma mul_within x y jx jy :
  num_within jx x -> num_within jy y -> 0 <= jx -> 0 <= jy -> jx + jy <= 1021 ->
  exists n, mul x y = Ok n /\ num_within (jx + jy + 3) n.
Proof.
  intros Hx Hy Hjx Hjy Hj.
  destruct (to_float_within x jx Hx Hjx ltac:(lia)) as (a & Ea & Wa).
  destruct (to_float_within y jy Hy Hjy ltac:(lia)) as (b & Eb & Wb).
  pose proof (fmul_within a b (jx + 1) (jy + 1) Wa Wb ltac:(lia) ltac:(lia) ltac:(lia)) as W.
  replace (jx + 1 + (jy + 1) + 1) with (jx + jy + 3) in W by lia.
  destruct x as [zx|fx], y as [zy|fy]; unfold mul;
    try (rewrite Ea, Eb; simpl; eexists; split; [reflexivity | exact W]).
  eexists. split; [reflexivity|]. simpl in *.
  rewrite Z.abs_mul.
  pose proof (pow2_pos jx Hjx). pose proof (pow2_pos jy Hjy).
  pose proof (pow2_le (jx + jy) (jx + jy + 3) ltac:(lia) ltac:(lia)) as Hp.
  rewrite Z.pow_add_r in Hp by lia. nia.
Qed.

Lemma add_within x y j :
  num_within j x -> num_within j y -> 0 <= j -> j <= 1019 ->
  exists n, add x y = Ok n /\ num_within (j + 3) n.
Proof.
  intros Hx Hy Hj0 Hj.
  destruct (to_float_within x j Hx Hj0 ltac:(lia)) as (a & Ea & Wa).
  destruct (to_float_within y j Hy Hj0 ltac:(lia)) as (b & Eb & Wb).
  pose proof (fadd_within a b (j + 1) Wa Wb ltac:(lia) ltac:(lia)) as W.
  replace (j + 1 + 2) with (j + 3) in W by lia.
  destruct x as [zx|fx], y as [zy|fy]; unfold add;
    try (rewrite Ea, Eb; simpl; eexists; split; [reflexivity | exact W]).
  eexists. split; [reflexivity|]. simpl in *.
  pose proof (pow2_le (j + 1) (j + 3) ltac:(lia) ltac:(lia)) as Hp.
  rewrite Z.pow_add_r in Hp by lia. change (2 ^ 1) with 2 in Hp. lia.
Qed.

Lemma fdiv_exact_within sa ma sb mb j :
  Zpos ma < 2 ^ j -> 0 <= j -> j <= 1021 ->
  within (j + 2) (fdiv (S754_finite sa ma 0) (S754_finite sb mb 0)).
Proof.
  intros Ha Hj0 Hj. unfold fdiv, prec, emax, SFdiv.
  pose proof (Zdigits2_le (Zpos ma) j ltac:(lia) Hj0 Ha) as Hd1.
  pose proof (Zdigits2_pos (Zpos mb) ltac:(lia)) as Hd2.
  pose proof (div_core_within (xorb sa sb) ma 0 mb 0) as Hw. cbv zeta in Hw.
  eapply within_le; [apply Hw; lia | lia].
Qed.

(** [int / int] with a non-zero divisor. *)
Lemma truediv_int_within a b j :
  b <> 0 -> Z.abs a < 2 ^ j -> 0 <= j -> j <= 1021 ->
  exists f, truediv (Int a) (Int b) = Ok f /\ within (j + 2) f.
Proof.
  intros Hb Ha Hj0 Hj. unfold truediv.
  destruct (Z.eqb_spec b 0) as [|_]; [contradiction|].
  assert (within (j + 2) (fdiv (exact a) (exact b))) as W.
  { destruct a as [|ma|ma]; (destruct b as [|mb|mb]; [contradiction| |]);
      unfold exact;
      first [ apply fdiv_exact_within; [simpl in Ha; lia | lia | lia]
            | split; simpl; try exact I; lia ]. }
  rewrite (within_not_inf _ _ W). eauto.
Qed.

Lemma float_of_60 : float_of_int 60 = Ok f60.
Proof. reflexivity. Qed.

(** [x / 60]. *)
Lemma truediv_60_within x j :
  num_within j x -> 0 <= j -> j <= 1021 ->
  exists f, truediv x (Int 60) = Ok f /\ within (j + 2) f.
Proof.
  intros Hx Hj0 Hj. destruct x as [a|f].
  - apply truediv_int_within; [lia | exact Hx | lia | lia].
  - unfold truediv, to_float. rewrite float_of_60. simpl.
    eexists. split; [reflexivity|]. destruct Hx as [G Mg].
    unfold fdiv, prec, emax.
    destruct f as [s|s| |s m e]; try contradiction.
    + split; [exact I | simpl; lia].
    + unfold f60, SFdiv. unfold mag in Mg.
      pose proof (div_core_within (xorb s false) m e 8444249301319680 (-47)) as Hw.
      cbv zeta in Hw. change (Zdigits2 8444249301319680) with 53 in Hw.
      eapply within_le; [apply Hw; lia | lia].
Qed.

Lemma round_within x j :
  num_within j x -> 0 <= j ->
  exists n, round x = Ok n /\ Z.abs n < 2 ^ (j + 1).
Proof.
  intros Hx Hj.
  assert (2 ^ j < 2 ^ (j + 1)) as Hp by (apply pow2_lt; lia).
  destruct x as [z|f]; simpl in Hx.
  - exists z. split; [reflexivity | lia].
  - destruct Hx as [G Mg]. rewrite (round_value f (-1074) G) by lia.
    eexists. split; [reflexivity|].
    pose proof (pow2_pos j Hj) as Hpj.
    destruct f as [s|s| |s m e]; try contradiction.
    + unfold sval, rnds. simpl. lia.
    + rewrite sval_finite. unfold mag in Mg.
      pose proof (good_exponent _ G) as He. simpl in He.
      pose proof (pow2_pos (e - -1074) ltac:(lia)) as Hq.
      rewrite rnds_cond by nia.
      pose proof (rnd_nonneg (Zpos m * 2 ^ (e - -1074)) (- -1074) ltac:(lia) ltac:(nia)) as H0.
      assert (rnd (Zpos m * 2 ^ (e - -1074)) (- -1074) <= 2 ^ j) as Hle.
      { apply rnd_le_bound; [lia|].
        pose proof (Zdigits2_spec (Zpos m) ltac:(lia)) as [_ Hlt].
        pose proof (Zdigits2_pos (Zpos m) ltac:(lia)).
        apply Z.le_trans with (2 ^ Zdigits2 (Zpos m) * 2 ^ (e - -1074)).
        - apply Z.mul_le_mono_nonneg_r; lia.
        - rewrite <- !Z.pow_add_r by lia. apply pow2_le; lia. }
      destruct s; simpl cond_Zopp; lia.
Qed.

(** ** The methods return on plausible arguments *)

Lemma bound_returns r h c j :
  Z.abs r < 2 ^ j -> Z.abs h < 2 ^ j -> within 0 c -> 0 <= j -> j <= 1000 ->
  exists x, bound r h c = Ok x.
Proof.
  intros Hr Hh Wc Hj0 Hj. unfold bound.
  destruct (mul_within (Int h) (Float c) j 0 Hh Wc Hj0 ltac:(lia) ltac:(lia))
    as (p & -> & Wp).
  simpl.
  destruct (add_within (Int r) p (j + 0 + 3)) as (s & -> & Ws); try lia.
  { simpl. pose proof (pow2_le j (j + 0 + 3) ltac:(lia) ltac:(lia)). lia. }
  { exact Wp. }
  simpl.
  destruct (round_within s _ Ws ltac:(lia)) as (n & -> & _). eauto.
Qed.

Lemma fractions_within :
  within 0 f0_5 /\ within 0 f0_6 /\ within 0 f0_7 /\ within 0 f0_8 /\ within 0 f0_9.
Proof.
  destruct fractions as (-> & -> & -> & -> & ->).
  repeat split; simpl; lia.
Qed.

Lemma or_estimated_sane age m :
  sane_int age -> match m with Some v => sane_int v | None => True end ->
  Z.abs (or_estimated age m) < 2 ^ 65.
Proof.
  unfold sane_int, or_estimated. intros Ha Hm.
  assert (Z.abs (220 - age) < 2 ^ 65) by lia.
  destruct m as [v|]; [destruct (v =? 0)|]; lia.
Qed.

(** [calculate_zones] returns a table for every age, restingHR and
    maxHR below [2^64] in magnitude, whatever their order. *)
Theorem calculate_zones_returns age r m self :
  sane_int age -> sane_int r ->
  match m with Some v => sane_int v | None => True end ->
  exists tbl self', calculate_zones age r m self = (Ok tbl, self').
Proof.
  intros Ha Hr Hm. pose proof (or_estimated_sane age m Ha Hm) as Hmx.
  unfold sane_int in Hr.
  destruct fractions_within as (W5 & W6 & W7 & W8 & W9).
  assert (forall c, within 0 c -> exists x, bound r (or_estimated age m - r) c = Ok x) as Hb.
  { intros c Wc. apply (bound_returns r _ c 66); try lia; exact Wc. }
  destruct (Hb _ W5) as (x5 & E5). destruct (Hb _ W6) as (x6 & E6).
  destruct (Hb _ W7) as (x7 & E7). destruct (Hb _ W8) as (x8 & E8).
  destruct (Hb _ W9) as (x9 & E9).
  unfold calculate_zones. cbv zeta. rewrite E5, E6, E7, E8, E9.
  eexists _, _. reflexivity.
Qed.

Lemma wattage_formula_returns r m hr w :
  sane_int r -> sane_int m -> sane_int hr -> m <> r -> sane w ->
  exists n, wattage_formula r m hr w = Ok n.
Proof.
  unfold sane_int, sane. intros Hr Hm Hhr Hne Hw. unfold wattage_formula.
  destruct (truediv_int_within (hr - r) (m - r) 65) as (q & -> & Wq); try lia.
  run_res.
  destruct (mul_within w (Int 3) 64 2 Hw) as (b & -> & Wb); try lia.
  { simpl. lia. }
  run_res.
  destruct (mul_within b (Float q) _ _ Wb Wq) as (x & -> & Wx); try lia.
  run_res.
  destruct (round_within x _ Wx ltac:(lia)) as (n & -> & _). eauto.
Qed.

Lemma met_within (p : float) :
  num_within 4
    (if flt p f0_5 then Int 2
     else if flt p f0_6 then Float f3_5
     else if flt p f0_7 then Int 5
     else if flt p f0_8 then Int 7
     else if flt p f0_9 then Int 10
     else Int 12).
Proof.
  repeat match goal with |- context [if ?b then _ else _] => destruct b end;
    simpl; try lia.
  repeat split; simpl; lia.
Qed.

Lemma calories_formula_returns m hr d w :
  sane_int m -> sane_int hr -> m <> 0 -> sane d -> sane w ->
  exists n, calories_formula m hr d w = Ok n.
Proof.
  unfold sane_int, sane. intros Hm Hhr Hne Hd Hw. unfold calories_formula.
  destruct (truediv_int_within hr m 64) as (p & -> & Wp); try lia.
  run_res.
  destruct (mul_within _ w 4 64 (met_within p) Hw) as (a & -> & Wa); try lia.
  run_res.
  destruct (truediv_60_within d 64 Hd) as (h & -> & Wh); try lia.
  run_res.
  destruct (mul_within a (Float h) _ _ Wa Wh) as (x & -> & Wx); try lia.
  run_res.
  destruct (round_within x _ Wx ltac:(lia)) as (n & -> & _). eauto.
Qed.

Lemma recovery_factor_within (p : float) :
  num_within 1
    (Float (if flt p f0_6 then f0_2
            else if flt p f0_75 then f0_3
            else if flt p f0_85 then f0_5
            else f0_7)).
Proof.
  repeat match goal with |- context [if ?b then _ else _] => destruct b end;
    repeat split; simpl; lia.
Qed.

Lemma recovery_formula_returns r m d a :
  sane_int r -> sane_int m -> sane_int a -> m <> r -> sane d ->
  exists t, recovery_formula r m d a = Ok t.
Proof.
  unfold sane_int, sane. intros Hr Hm Ha Hne Hd. unfold recovery_formula.
  destruct (truediv_int_within (a - r) (m - r) 65) as (p & -> & Wp); try lia.
  run_res.
  destruct (truediv_60_within d 64 Hd) as (h & -> & Wh); try lia.
  run_res.
  destruct (add_within (Int 1) _ 1 ltac:(simpl; lia) (recovery_factor_within p))
    as (k & -> & Wk); try lia.
  run_res.
  destruct (mul_within (Float h) k _ _ Wh Wk) as (x & -> & Wx); try lia.
  run_res.
  destruct (mul_within x (Int 2) _ 2 Wx) as (y & -> & Wy); try lia.
  { simpl. lia. }
  run_res.
  destruct (round_within y _ Wy ltac:(lia)) as (n & -> & Hn).
  run_res.
  destruct (truediv_int_within n 2 _ ltac:(lia) Hn) as (t & -> & _); try lia.
  eauto.
Qed.

(** [count / total] for a part of a non-empty whole, of any size. *)
Lemma truediv_part_within a b :
  0 <= a <= b -> 0 < b ->
  exists f, truediv (Int a) (Int b) = Ok f /\ within 2 f.
Proof.
  intros Ha Hb. unfold truediv.
  destruct (Z.eqb_spec b 0) as [|_]; [lia|].
  assert (within 2 (fdiv (exact a) (exact b))) as W.
  { destruct b as [|mb|mb]; try lia.
    destruct a as [|ma|ma]; try lia; unfold exact.
    - split; simpl; [exact I | lia].
    - unfold fdiv, prec, emax, SFdiv.
      pose proof (Zdigits2_mono (Zpos ma) (Zpos mb) ltac:(lia) ltac:(lia)) as Hd.
      pose proof (div_core_within (xorb false false) ma 0 mb 0) as Hw. cbv zeta in Hw.
      eapply within_le; [apply Hw; lia | lia]. }
  rewrite (within_not_inf _ _ W). eauto.
Qed.

Lemma percentage_returns count total_samples :
  0 <= count <= total_samples -> 0 < total_samples ->
  exists p, percentage count total_samples = Ok p.
Proof.
  intros Hc Ht. unfold percentage.
  destruct (truediv_part_within count total_samples Hc Ht) as (q & -> & Wq).
  run_res.
  destruct (mul_within (Float q) (Int 100) 2 7 Wq) as (x & -> & Wx); try lia.
  { simpl. lia. }
  run_res.
  destruct (round_within x _ Wx ltac:(lia)) as (n & -> & _). eauto.
Qed.

Lemma zone_count_range self l z : 0 <= zone_count self l z <= Z.of_nat (length l).
Proof.
  unfold zone_count. pose proof (List.filter_length_le (in_zone self z) l). lia.
Qed.

Lemma distribution_formula_returns self l :
  l <> [] -> exists d, distribution_formula self l = Ok d.
Proof.
  intros Hne. unfold distribution_formula. cbv zeta.
  assert (0 < Z.of_nat (length l)) as Hl by (destruct l; [contradiction | simpl; lia]).
  destruct (percentage_returns _ _ (zone_count_range self l 0) Hl) as (p0 & ->).
  destruct (percentage_returns _ _ (zone_count_range self l 1) Hl) as (p1 & ->).
  destruct (percentage_returns _ _ (zone_count_range self l 2) Hl) as (p2 & ->).
  destruct (percentage_returns _ _ (zone_count_range self l 3) Hl) as (p3 & ->).
  destruct (percentage_returns _ _ (zone_count_range self l 4) Hl) as (p4 & ->).
  destruct (percentage_returns _ _ (zone_count_range self l 5) Hl) as (p5 & ->).
  simpl. eauto.
Qed.

(** ** Wattage *)

Lemma calculate_wattage_unfold hr w self :
  calculate_wattage hr w self =
  (if hr <? resting_hr self then Ok 0
   else wattage_formula (resting_hr self) (max_hr self) hr w, self).
Proof.
  unfold calculate_wattage, wattage_formula. rewrite bind_attr.
  destruct (hr <? resting_hr self); [reflexivity|].
  run_monad. split_results.
Qed.

Lemma wattage_formula_not_zerodiv r m hr w :
  m <> r -> wattage_formula r m hr w <> Raise ZeroDivisionError.
Proof.
  intros Hm. unfold wattage_formula. run_res.
  pose proof (truediv_int_not_zerodiv (hr - r) (m - r) ltac:(lia)) as Hq.
  destruct (truediv _ _) as [q|e]; [|congruence].
  pose proof (mul_not_zerodiv w (Int 3)) as Hb.
  destruct (mul w (Int 3)) as [b|e]; [|congruence].
  pose proof (mul_not_zerodiv b (Float q)) as Hx.
  destruct (mul b (Float q)) as [x|e]; [|congruence].
  apply round_not_zerodiv.
Qed.

(** * The claims *)

(** C1.  For every age, restingHR and maxHR (given, or estimated from
    the age) with maxHR > restingHR, the table [calculate_zones]
    returns is contiguous and non-overlapping: for every i in 1..4,
    [zone[i].max + 1 == zone[i+1].min].  A table is returned whenever
    the three arguments are below [2^64] in magnitude. *)
Theorem calculate_zones_contiguous age r m self :
  or_estimated age m > r ->
  (forall tbl self',
     calculate_zones age r m self = (Ok tbl, self') ->
     forall i, 1 <= i <= 4 ->
     exists a b, tbl !! i = Some a /\ tbl !! (i + 1) = Some b /\
                 zmax a + 1 = zmin b) /\
  (sane_int age -> sane_int r ->
   match m with Some v => sane_int v | None => True end ->
   exists tbl self', calculate_zones age r m self = (Ok tbl, self')).
Proof.
  intros _. split; [|apply calculate_zones_returns].
  intros tbl self' H i Hi. apply calculate_zones_Ok in H. cbv zeta in H.
  destruct H as (x5 & x6 & x7 & x8 & x9 & _ & _ & _ & _ & _ & -> & _).
  destruct (table_lookup x5 x6 x7 x8 x9 (or_estimated age m))
    as (H1 & H2 & H3 & H4 & H5).
  assert (i = 1 \/ i = 2 \/ i = 3 \/ i = 4) as Hc by lia.
  destruct Hc as [-> | [-> | [-> | ->]]]; simpl;
    eexists _, _; (split; [eassumption|]); (split; [eassumption|]);
    simpl; lia.
Qed.

Lemma calculate_zones_contiguous_witness :
  exists a b,
    zones (snd (calculate_zones 30 60 (Some 190) __init__)) !! 2 = Some a /\
    zones (snd (calculate_zones 30 60 (Some 190) __init__)) !! (2 + 1) = Some b /\
    zmax a + 1 = zmin b.
Proof.
  apply (proj1 (calculate_zones_contiguous 30 60 (Some 190) __init__ eq_refl)
           (zones (snd (calculate_zones 30 60 (Some 190) __init__)))
           (snd (calculate_zones 30 60 (Some 190) __init__)));
    [vm_compute; reflexivity | lia].
Defined.

(** C2 as stated fails for a supplied maxHR of 0: [if not max_hr]
    takes 0 for an absent value, so with age 30 zone 5 ends at
    220 - 30 = 190, not at 0. *)
Lemma calculate_zones_max_hr_zero :
  exists tbl,
    fst (calculate_zones 30 60 (Some 0) __init__) = Ok tbl /\
    zmax <$> tbl !! 5 = Some 190 /\
    zmax <$> tbl !! 5 <> Some 0.
Proof.
  eexists. split; [vm_compute; reflexivity|].
  split; [vm_compute; reflexivity | vm_compute; discriminate].
Qed.

(** C2, amended.  Let maxHR be the supplied value when it is neither
    absent nor 0, and 220 - age otherwise.  Then the returned table
    has [zone[5].max == maxHR] exactly and
    [zone[1].min == round(restingHR + 0.5 * (maxHR - restingHR))];
    for age 30, restingHR 60, maxHR 190 it has zone 1 = {125, 137}
    and zone 5 = {177, 190}. *)
Theorem calculate_zones_ends :
  (forall age r m self tbl self',
     calculate_zones age r m self = (Ok tbl, self') ->
     (forall m', m = Some m' -> m' <> 0 -> or_estimated age m = m') /\
     (m = None \/ m = Some 0 -> or_estimated age m = 220 - age) /\
     exists z1 z5,
       tbl !! 1 = Some z1 /\ tbl !! 5 = Some z5 /\
       zmax z5 = or_estimated age m /\
       zone1_min_formula r (or_estimated age m) = Ok (zmin z1)) /\
  (exists tbl,
     fst (calculate_zones 30 60 (Some 190) __init__) = Ok tbl /\
     tbl !! 1 = Some (Zone 125 137) /\ tbl !! 5 = Some (Zone 177 190)).
Proof.
  split.
  - intros age r m self tbl self' H. split; [|split].
    + intros m' -> Hm. simpl. destruct (Z.eqb_spec m' 0); [contradiction|reflexivity].
    + intros [-> | ->]; reflexivity.
    + apply calculate_zones_Ok in H. cbv zeta in H.
      destruct H as (x5 & x6 & x7 & x8 & x9 & E5 & _ & _ & _ & _ & -> & _).
      destruct (table_lookup x5 x6 x7 x8 x9 (or_estimated age m))
        as (H1 & _ & _ & _ & H5).
      eexists _, _. split; [exact H1|]. split; [exact H5|].
      split; [reflexivity|]. simpl.
      unfold zone1_min_formula. rewrite mul_comm. exact E5.
  - eexists. split; [vm_compute; reflexivity|].
    split; vm_compute; reflexivity.
Qed.

Lemma calculate_zones_ends_witness :
  exists z1 z5,
    zones (snd (calculate_zones 40 55 None __init__)) !! 1 = Some z1 /\
    zones (snd (calculate_zones 40 55 None __init__)) !! 5 = Some z5 /\
    zmax z5 = or_estimated 40 None /\
    zone1_min_formula 55 (or_estimated 40 None) = Ok (zmin z1).
Proof.
  apply (proj1 calculate_zones_ends 40 55 None __init__
           (zones (snd (calculate_zones 40 55 None __init__)))
           (snd (calculate_zones 40 55 None __init__))).
  vm_compute. reflexivity.
Defined.

(** C3.  In every state the engine can be in, [get_zone(hr)] returns
    an integer in 0..5.  It returns 0 when the zone table is empty
    (uncalculated) or [hr < zone[1].min].  Otherwise it returns the
    smallest zone index i with [hr <= zone[i].max] -- every zone below
    the result has its max below hr, and a result of 4 or less has
    [hr <= zone[result].max] -- and it returns 5 for any hr exceeding
    [zone[4].max], whatever [zone[5].max] is. *)
Theorem get_zone_spec self hr :
  reachable self ->
  exists z,
    get_zone hr self = (Ok z, self) /\ 0 <= z <= 5 /\
    (zones self = ∅ -> z = 0) /\
    (forall z1, zones self !! 1 = Some z1 -> hr < zmin z1 -> z = 0) /\
    (forall z1, zones self !! 1 = Some z1 -> zmin z1 <= hr ->
       1 <= z /\
       (forall i zi, 1 <= i < z -> zones self !! i = Some zi -> zmax zi < hr) /\
       (forall zz, z <= 4 -> zones self !! z = Some zz -> hr <= zmax zz) /\
       (forall z4, zones self !! 4 = Some z4 -> zmax z4 < hr -> z = 5)).
Proof.
  intros Hr. destruct (reachable_table self Hr) as [He | Ho].
  - exists 0. rewrite (get_zone_empty _ _ He). split; [reflexivity|].
    split; [lia|]. split; [reflexivity|].
    split; intros z1 H1; rewrite He, lookup_empty in H1; discriminate.
  - destruct Ho as (x5 & x6 & x7 & x8 & x9 & mx & Ht & Hord).
    destruct (table_lookup x5 x6 x7 x8 x9 mx) as (H1 & H2 & H3 & H4 & H5).
    rewrite <- Ht in H1, H2, H3, H4, H5.
    rewrite (get_zone_full hr self _ _ _ _ H1 H2 H3 H4). cbn [zmin zmax].
    eexists. split; [reflexivity|].
    assert (forall i zi, 1 <= i <= 4 -> zones self !! i = Some zi ->
              (i = 1 /\ zmax zi = x6 - 1) \/ (i = 2 /\ zmax zi = x7 - 1) \/
              (i = 3 /\ zmax zi = x8 - 1) \/ (i = 4 /\ zmax zi = x9 - 1)) as Hl.
    { intros i zi Hi Hzi.
      assert (i = 1 \/ i = 2 \/ i = 3 \/ i = 4) as Hc by lia.
      destruct Hc as [-> | [-> | [-> | ->]]];
        [rewrite H1 in Hzi | rewrite H2 in Hzi | rewrite H3 in Hzi | rewrite H4 in Hzi];
        inversion Hzi; subst zi; simpl; lia. }
    split; [|split; [|split]].
    + repeat match goal with |- context [if ?b then _ else _] => destruct b end; lia.
    + intros He. rewrite He, lookup_empty in H1. discriminate.
    + intros z1 Hz1 Hlt. rewrite H1 in Hz1. inversion Hz1; subst z1. simpl in Hlt.
      destruct (Z.ltb_spec hr x5); [reflexivity | lia].
    + intros z1 Hz1 Hge. rewrite H1 in Hz1. inversion Hz1; subst z1. simpl in Hge.
      destruct (Z.ltb_spec hr x5) as [|_]; [lia|].
      destruct (Z.leb_spec hr (x6 - 1)); [|destruct (Z.leb_spec hr (x7 - 1));
        [|destruct (Z.leb_spec hr (x8 - 1)); [|destruct (Z.leb_spec hr (x9 - 1))]]].
      all: split; [lia|]; split; [|split].
      all: match goal with
           | |- forall i zi, _ <= i < _ -> _ -> _ =>
               intros i zi Hi Hzi;
               destruct (Hl i zi ltac:(lia) Hzi)
                 as [[-> ->] | [[-> ->] | [[-> ->] | [-> ->]]]]; lia
           | |- forall zz, _ <= 4 -> _ -> _ =>
               intros zz Hle Hzz;
               first [ lia
                     | match type of Hzz with
                       | _ !! ?i = _ =>
                           destruct (Hl i zz ltac:(lia) Hzz)
                             as [[? ->] | [[? ->] | [[? ->] | [? ->]]]]; lia
                       end ]
           | |- forall z4, _ !! 4 = _ -> _ -> _ =>
               intros z4 Hz4 Hgt; rewrite H4 in Hz4; inversion Hz4; subst z4;
               simpl in Hgt; lia
           end.
Qed.

Lemma get_zone_spec_witness :
  exists z,
    get_zone 150 (after (CalculateZones 30 60 (Some 190)) __init__)
    = (Ok z, after (CalculateZones 30 60 (Some 190)) __init__) /\ 0 <= z <= 5.
Proof.
  destruct (get_zone_spec (after (CalculateZones 30 60 (Some 190)) __init__) 150
              (reach_call _ _ reach_init)) as (z & Hz & Hr & _).
  exists z. split; [exact Hz | exact Hr].
Defined.

(** C4 as stated fails at restingHR 60, maxHR 180, hr 122, weight 70.
    The exact value [210 * 62 / 120] is 108.5, which rounds (half to
    even) to 108, and so does the expression evaluated product first.
    The code divides first: [62 / 120] is not a binary64, the rounded
    quotient times 210 is just above 108.5, and the code returns 109. *)
Lemma calculate_wattage_tie :
  let self := mkHRController ∅ 0 60 180 70 in
  max_hr self > resting_hr self /\ resting_hr self <= 122 /\
  fst (calculate_wattage 122 (Int 70) self) = Ok 109 /\
  wattage_as_claimed 60 180 122 (Int 70) = Ok 108 /\
  2 * (70 * 3 * (122 - 60)) = (2 * 108 + 1) * (180 - 60) /\
  (q ← truediv (Int (122 - 60)) (Int (180 - 60)); mul (Int 210) (Float q))
  = Ok (Float (S754_finite false (108 * 2 ^ 46 + 2 ^ 45 + 1) (-46))).
Proof.
  cbv zeta. split; [reflexivity|]. split; [simpl; lia|].
  repeat split; vm_compute; reflexivity.
Qed.

(** C4, amended.  For every stored restingHR and maxHR with
    maxHR > restingHR and every weight, [calculate_wattage(hr, weight)]
    returns 0 for every hr < restingHR; for hr >= restingHR it divides
    first, [hrReserveUsed = (hr - restingHR) / (maxHR - restingHR)]
    rounded to a float, and returns
    [round((weight * 3) * hrReserveUsed)].  It never divides by zero,
    and it returns whenever the heart rates and the weight are below
    [2^64] in magnitude; [calculate_wattage(125, 70)] with restingHR 60
    and maxHR 190 returns 105. *)
Theorem calculate_wattage_spec self hr weight :
  max_hr self > resting_hr self ->
  (hr < resting_hr self -> calculate_wattage hr weight self = (Ok 0, self)) /\
  (resting_hr self <= hr ->
     calculate_wattage hr weight self =
       (wattage_formula (resting_hr self) (max_hr self) hr weight, self)) /\
  fst (calculate_wattage hr weight self) <> Raise ZeroDivisionError /\
  (sane_int (resting_hr self) -> sane_int (max_hr self) -> sane_int hr ->
   sane weight ->
   exists n, calculate_wattage hr weight self = (Ok n, self)) /\
  calculate_wattage 125 (Int 70) (mkHRController ∅ 0 60 190 70)
    = (Ok 105, mkHRController ∅ 0 60 190 70).
Proof.
  intros Hm. rewrite calculate_wattage_unfold.
  split; [|split; [|split; [|split]]].
  - intros Hlt. destruct (Z.ltb_spec hr (resting_hr self)); [reflexivity | lia].
  - intros Hge. destruct (Z.ltb_spec hr (resting_hr self)); [lia | reflexivity].
  - cbn [fst]. destruct (hr <? resting_hr self); [discriminate|].
    apply wattage_formula_not_zerodiv. lia.
  - intros Hr Hx Hhr Hw. destruct (hr <? resting_hr self); [eauto|].
    destruct (wattage_formula_returns (resting_hr self) (max_hr self) hr weight)
      as (n & ->); eauto; lia.
  - vm_compute. reflexivity.
Qed.

Lemma calculate_wattage_spec_witness :
  calculate_wattage 150 (Int 80) (mkHRController ∅ 0 50 200 70)
  = (wattage_formula 50 200 150 (Int 80), mkHRController ∅ 0 50 200 70).
Proof.
  apply (calculate_wattage_spec (mkHRController ∅ 0 50 200 70) 150 (Int 80));
    simpl; lia.
Defined.

(** C5 as stated fails: a fresh engine holds the constructor's
    profile, restingHR 60 and maxHR 190, so [calculate_wattage(125, 70)]
    is 105, [calculate_calories(125, 30, 70)] is 175 and
    [calculate_recovery_time(60, 100)] is 1.0, not zero; and a weight
    of [float('inf')] makes [round] raise [OverflowError]. *)
Lemma fresh_engine_not_zero :
  fst (calculate_wattage 125 (Int 70) __init__) = Ok 105 /\
  fst (calculate_calories 125 (Int 30) (Int 70) __init__) = Ok 175 /\
  fst (calculate_recovery_time (Int 60) 100 __init__)
    = Ok (S754_finite false (2 ^ 52) (-52)) /\
  fst (calculate_wattage 125 (Float (S754_infinity false)) __init__)
    = Raise OverflowError.
Proof. repeat split; vm_compute; reflexivity. Qed.

(** C5, amended.  On a freshly constructed engine [get_zone] returns 0
    for every hr.  The estimators work on the constructor's profile,
    restingHR 60 and maxHR 190: [calculate_wattage] and
    [calculate_calories] return 0 for every hr < 60 and the value for
    that profile otherwise, and [calculate_recovery_time] the one for
    that profile.  None of them divides by zero, and each returns
    (raises nothing) for all arguments below [2^64] in magnitude. *)
Theorem fresh_engine :
  (forall hr, get_zone hr __init__ = (Ok 0, __init__)) /\
  (forall hr weight,
     calculate_wattage hr weight __init__ =
       (if hr <? 60 then Ok 0 else wattage_formula 60 190 hr weight, __init__)) /\
  (forall hr duration_minutes weight,
     calculate_calories hr duration_minutes weight __init__ =
       (if hr <? 60 then Ok 0
        else calories_formula 190 hr duration_minutes weight, __init__)) /\
  (forall workout_duration_minutes avg_hr,
     calculate_recovery_time workout_duration_minutes avg_hr __init__ =
       (recovery_formula 60 190 workout_duration_minutes avg_hr, __init__)) /\
  (forall hr duration_minutes weight avg_hr,
     fst (calculate_wattage hr weight __init__) <> Raise ZeroDivisionError /\
     fst (calculate_calories hr duration_minutes weight __init__)
       <> Raise ZeroDivisionError /\
     fst (calculate_recovery_time duration_minutes avg_hr __init__)
       <> Raise ZeroDivisionError) /\
  (forall hr duration_minutes weight,
     sane_int hr -> sane duration_minutes -> sane weight ->
     (exists n, calculate_wattage hr weight __init__ = (Ok n, __init__)) /\
     (exists n, calculate_calories hr duration_minutes weight __init__
                = (Ok n, __init__)) /\
     (exists t, calculate_recovery_time duration_minutes hr __init__
                = (Ok t, __init__))).
Proof.
  assert (sane_int 60 /\ sane_int 190) as [S60 S190] by (unfold sane_int; simpl; lia).
  split; [|split; [|split; [|split; [|split]]]].
  - intros hr. apply get_zone_empty. reflexivity.
  - intros hr w. apply calculate_wattage_unfold.
  - intros hr d w. apply calculate_calories_unfold.
  - intros d a. apply calculate_recovery_time_unfold.
  - intros hr d w a.
    rewrite calculate_wattage_unfold, calculate_calories_unfold,
      calculate_recovery_time_unfold.
    cbn [fst resting_hr max_hr __init__].
    split; [|split].
    + destruct (hr <? 60); [discriminate|].
      apply wattage_formula_not_zerodiv. lia.
    + destruct (hr <? 60); [discriminate|].
      apply calories_formula_not_zerodiv. lia.
    + apply recovery_formula_not_zerodiv. lia.
  - intros hr d w Hhr Hd Hw.
    rewrite calculate_wattage_unfold, calculate_calories_unfold,
      calculate_recovery_time_unfold.
    cbn [resting_hr max_hr __init__].
    split; [|split].
    + destruct (hr <? 60); [eauto|].
      destruct (wattage_formula_returns 60 190 hr w) as (n & ->); eauto; lia.
    + destruct (hr <? 60); [eauto|].
      destruct (calories_formula_returns 190 hr d w) as (n & ->); eauto; lia.
    + destruct (recovery_formula_returns 60 190 d hr) as (t & ->); eauto; lia.
Qed.

Lemma fresh_engine_witness :
  (exists n, calculate_wattage 150 (Int 70) __init__ = (Ok n, __init__)) /\
  (exists n, calculate_calories 150 (Float f3_5) (Int 70) __init__
             = (Ok n, __init__)) /\
  (exists t, calculate_recovery_time (Float f3_5) 150 __init__
             = (Ok t, __init__)).
Proof.
  apply (proj2 (proj2 (proj2 (proj2 (proj2 fresh_engine)))) 150 (Float f3_5) (Int 70)).
  - unfold sane_int. simpl. lia.
  - repeat split; simpl; lia.
  - simpl. lia.
Defined.

(** C6.  When the stored maxHR equals the stored restingHR,
    [calculate_wattage] with hr >= restingHR and
    [calculate_recovery_time] with any arguments raise
    [ZeroDivisionError] instead of returning a value. *)
Theorem zero_reserve_raises self :
  max_hr self = resting_hr self ->
  (forall hr weight, resting_hr self <= hr ->
     calculate_wattage hr weight self = (Raise ZeroDivisionError, self)) /\
  (forall workout_duration_minutes avg_hr,
     calculate_recovery_time workout_duration_minutes avg_hr self
     = (Raise ZeroDivisionError, self)).
Proof.
  intros He. split.
  - intros hr weight Hge. unfold calculate_wattage. rewrite bind_attr.
    destruct (Z.ltb_spec hr (resting_hr self)); [lia|].
    rewrite bind_attr, bind_lift, He, Z.sub_diag. reflexivity.
  - intros d a. unfold calculate_recovery_time.
    rewrite !bind_attr, bind_lift, He, Z.sub_diag. reflexivity.
Qed.

Lemma zero_reserve_raises_witness :
  calculate_wattage 100 (Int 70) (mkHRController ∅ 0 60 60 70)
    = (Raise ZeroDivisionError, mkHRController ∅ 0 60 60 70) /\
  calculate_recovery_time (Int 45) 100 (mkHRController ∅ 0 60 60 70)
    = (Raise ZeroDivisionError, mkHRController ∅ 0 60 60 70).
Proof.
  destruct (zero_reserve_raises (mkHRController ∅ 0 60 60 70) eq_refl) as [Hw Hr].
  split; [apply Hw; simpl; lia | apply Hr].
Defined.

(** C8.  For every fixed zone table, empty (uncalculated) or with its
    five entries -- whatever their values, so also the degenerate
    ones -- [get_zone] returns, and is monotone non-decreasing in hr:
    for all hr1 <= hr2, [get_zone(hr1) <= get_zone(hr2)]. *)
Theorem get_zone_monotone self hr1 hr2 :
  wf self -> hr1 <= hr2 ->
  exists z1 z2,
    fst (get_zone hr1 self) = Ok z1 /\ fst (get_zone hr2 self) = Ok z2 /\
    z1 <= z2.
Proof.
  intros [He | Hf] Hle.
  - rewrite !(get_zone_empty _ _ He). exists 0, 0. simpl. repeat split. lia.
  - destruct (full_table_lookups _ Hf) as (z1 & z2 & z3 & z4 & z5 & H1 & H2 & H3 & H4 & _).
    rewrite !(get_zone_full _ _ _ _ _ _ H1 H2 H3 H4). simpl.
    eexists _, _. split; [reflexivity|]. split; [reflexivity|].
    repeat match goal with
           | |- context [?a <? ?b] => destruct (Z.ltb_spec a b)
           | |- context [?a <=? ?b] => destruct (Z.leb_spec a b)
           end; lia.
Qed.

Lemma get_zone_monotone_witness :
  exists z1 z2,
    fst (get_zone 100 (snd (calculate_zones 30 100 (Some 50) __init__))) = Ok z1 /\
    fst (get_zone 120 (snd (calculate_zones 30 100 (Some 50) __init__))) = Ok z2 /\
    z1 <= z2.
Proof.
  apply (get_zone_monotone (snd (calculate_zones 30 100 (Some 50) __init__)) 100 120);
    [|lia].
  apply reachable_wf, (reach_call (CalculateZones 30 100 (Some 50))), reach_init.
Defined.

(** C9.  [get_zone], [calculate_wattage], [calculate_calories],
    [calculate_recovery_time] and [calculate_zone_distribution] leave
    every attribute of the engine ([zones], [resting_hr], [max_hr],
    [current_zone], [weight_kg]) as it was, whether they return or
    raise.  Only [calculate_zones] writes: when it returns, [zones],
    [resting_hr] and [max_hr] hold the new table and profile and the
    other two attributes are unchanged; when it raises it has written
    nothing. *)
Theorem only_calculate_zones_writes self :
  (forall hr, snd (get_zone hr self) = self) /\
  (forall hr weight, snd (calculate_wattage hr weight self) = self) /\
  (forall hr duration_minutes weight,
     snd (calculate_calories hr duration_minutes weight self) = self) /\
  (forall workout_duration_minutes avg_hr,
     snd (calculate_recovery_time workout_duration_minutes avg_hr self) = self) /\
  (forall hr_samples, snd (calculate_zone_distribution hr_samples self) = self) /\
  (forall age r m,
     match calculate_zones age r m self with
     | (Ok tbl, self') =>
         self' = mkHRController tbl (current_zone self) r (or_estimated age m)
                                (weight_kg self)
     | (Raise _, self') => self' = self
     end).
Proof.
  repeat split; intros.
  - apply get_zone_frame.
  - apply calculate_wattage_frame.
  - apply calculate_calories_frame.
  - apply calculate_recovery_time_frame.
  - apply calculate_zone_distribution_frame.
  - destruct (calculate_zones age r m self) as [[tbl|e] self'] eqn:E.
    + apply calculate_zones_Ok in E. cbv zeta in E.
      destruct E as (x5 & x6 & x7 & x8 & x9 & _ & _ & _ & _ & _ & _ & ->).
      reflexivity.
    + eapply calculate_zones_Raise, E.
Qed.

(** C10 as stated fails for arguments whose product is not finite: a
    weight of [float('inf')] (or an integer duration beyond the
    binary64 range) makes [round] (or the conversion) raise
    [OverflowError], with maxHR nonzero and equal to restingHR. *)
Lemma calculate_calories_overflow :
  let self := mkHRController ∅ 0 60 60 70 in
  max_hr self <> 0 /\
  fst (calculate_calories 100 (Int 30) (Float (S754_infinity false)) self)
    = Raise OverflowError /\
  fst (calculate_calories 100 (Int (10 ^ 400)) (Int 70) self)
    = Raise OverflowError.
Proof.
  cbv zeta. split; [discriminate|]. split; vm_compute; reflexivity.
Qed.

(** C10, amended.  [calculate_calories] never divides by the HR
    reserve: for every hr, duration and weight it returns 0 when
    hr < restingHR and otherwise [round(MET * weight * (duration / 60))]
    with the MET band selected from [hr / maxHR].  Whenever the stored
    maxHR is nonzero it raises no [ZeroDivisionError], and it returns
    normally for all arguments below [2^64] in magnitude, even when
    maxHR == restingHR (with both 60 it returns 420 for hr 100, 30
    minutes, 70 kg, where [calculate_wattage] raises). *)
Theorem calculate_calories_no_reserve self hr duration_minutes weight :
  max_hr self <> 0 ->
  calculate_calories hr duration_minutes weight self =
    (if hr <? resting_hr self then Ok 0
     else calories_formula (max_hr self) hr duration_minutes weight, self) /\
  fst (calculate_calories hr duration_minutes weight self)
    <> Raise ZeroDivisionError /\
  (sane_int (max_hr self) -> sane_int hr -> sane duration_minutes ->
   sane weight ->
   exists n, calculate_calories hr duration_minutes weight self = (Ok n, self)) /\
  fst (calculate_calories 100 (Int 30) (Int 70) (mkHRController ∅ 0 60 60 70))
    = Ok 420 /\
  fst (calculate_wattage 100 (Int 70) (mkHRController ∅ 0 60 60 70))
    = Raise ZeroDivisionError.
Proof.
  intros Hm. rewrite calculate_calories_unfold.
  split; [reflexivity|]. split; [|split; [|split; vm_compute; reflexivity]].
  - cbn [fst]. destruct (hr <? resting_hr self); [discriminate|].
    apply calories_formula_not_zerodiv, Hm.
  - intros Hx Hhr Hd Hw. destruct (hr <? resting_hr self); [eauto|].
    destruct (calories_formula_returns (max_hr self) hr duration_minutes weight)
      as (n & ->); eauto.
Qed.

Lemma calculate_calories_no_reserve_witness :
  exists n,
    calculate_calories 150 (Float f3_5) (Int 80) (mkHRController ∅ 0 75 75 70)
    = (Ok n, mkHRController ∅ 0 75 75 70).
Proof.
  apply (calculate_calories_no_reserve (mkHRController ∅ 0 75 75 70) 150
           (Float f3_5) (Int 80)).
  - simpl. lia.
  - unfold sane_int. simpl. lia.
  - unfold sane_int. simpl. lia.
  - repeat split; simpl; lia.
  - simpl. lia.
Defined.

(** * Further properties of the engine *)

(** ** The classifier on a calculated table *)

Lemma get_zone_table hr x5 x6 x7 x8 x9 mx cz r w :
  let self := mkHRController (table x5 x6 x7 x8 x9 mx) cz r mx w in
  get_zone hr self =
  (Ok (if hr <? x5 then 0
       else if hr <=? x6 - 1 then 1
       else if hr <=? x7 - 1 then 2
       else if hr <=? x8 - 1 then 3
       else if hr <=? x9 - 1 then 4
       else 5), self).
Proof.
  intros self.
  destruct (table_lookup x5 x6 x7 x8 x9 mx) as (H1 & H2 & H3 & H4 & _).
  exact (get_zone_full hr self _ _ _ _ H1 H2 H3 H4).
Qed.

Lemma table_lookup_inv x5 x6 x7 x8 x9 mx i zi :
  1 <= i <= 5 -> table x5 x6 x7 x8 x9 mx !! i = Some zi ->
  (i = 1 /\ zi = Zone x5 (x6 - 1)) \/ (i = 2 /\ zi = Zone x6 (x7 - 1)) \/
  (i = 3 /\ zi = Zone x7 (x8 - 1)) \/ (i = 4 /\ zi = Zone x8 (x9 - 1)) \/
  (i = 5 /\ zi = Zone x9 mx).
Proof.
  intros Hi H.
  destruct (table_lookup x5 x6 x7 x8 x9 mx) as (H1 & H2 & H3 & H4 & H5).
  assert (i = 1 \/ i = 2 \/ i = 3 \/ i = 4 \/ i = 5) as Hc by lia.
  destruct Hc as [-> | [-> | [-> | [-> | ->]]]];
    [rewrite H1 in H | rewrite H2 in H | rewrite H3 in H | rewrite H4 in H
    | rewrite H5 in H]; inversion H; subst; tauto.
Qed.

(** X1.  On the table that [calculate_zones] has just stored, [get_zone]
    returns [i] exactly for the heart rates between the bounds of zone
    [i], 0 below zone 1 and 5 from the lower bound of zone 5 on. *)
Theorem get_zone_inverts_table age r m self tbl self' hr :
  r <= or_estimated age m ->
  calculate_zones age r m self = (Ok tbl, self') ->
  exists z,
    get_zone hr self' = (Ok z, self') /\
    (forall z1, tbl !! 1 = Some z1 -> (z = 0 <-> hr < zmin z1)) /\
    (forall i zi, 1 <= i <= 4 -> tbl !! i = Some zi ->
       (z = i <-> zmin zi <= hr <= zmax zi)) /\
    (forall z5, tbl !! 5 = Some z5 -> (z = 5 <-> zmin z5 <= hr)).
Proof.
  intros Hh E. apply calculate_zones_Ok in E. cbv zeta in E.
  destruct E as (x5 & x6 & x7 & x8 & x9 & H5 & H6 & H7 & H8 & H9 & -> & ->).
  destruct (bounds_ordered _ _ _ _ _ _ _ H5 H6 H7 H8 H9) as [Hup _].
  specialize (Hup ltac:(lia)). destruct Hup as (O1 & O2 & O3 & O4).
  rewrite get_zone_table. eexists. split; [reflexivity|].
  split; [|split].
  - intros z1 L. apply table_lookup_inv in L; [|lia].
    destruct L as [[_ ->] | [[? _] | [[? _] | [[? _] | [? _]]]]]; try lia.
    cbn [zmin].
    destruct (Z.ltb_spec hr x5); [lia|].
    destruct (Z.leb_spec hr (x6 - 1)); [lia|].
    destruct (Z.leb_spec hr (x7 - 1)); [lia|].
    destruct (Z.leb_spec hr (x8 - 1)); [lia|].
    destruct (Z.leb_spec hr (x9 - 1)); lia.
  - intros i zi Hi L. apply table_lookup_inv in L; [|lia].
    destruct L as [[-> ->] | [[-> ->] | [[-> ->] | [[-> ->] | [? _]]]]]; try lia;
      cbn [zmin zmax];
      (destruct (Z.ltb_spec hr x5); [lia|]);
      (destruct (Z.leb_spec hr (x6 - 1)); [lia|]);
      (destruct (Z.leb_spec hr (x7 - 1)); [lia|]);
      (destruct (Z.leb_spec hr (x8 - 1)); [lia|]);
      (destruct (Z.leb_spec hr (x9 - 1)); lia).
  - intros z5 L. apply table_lookup_inv in L; [|lia].
    destruct L as [[? _] | [[? _] | [[? _] | [[? _] | [_ ->]]]]]; try lia.
    cbn [zmin].
    destruct (Z.ltb_spec hr x5); [lia|].
    destruct (Z.leb_spec hr (x6 - 1)); [lia|].
    destruct (Z.leb_spec hr (x7 - 1)); [lia|].
    destruct (Z.leb_spec hr (x8 - 1)); [lia|].
    destruct (Z.leb_spec hr (x9 - 1)); lia.
Qed.

Lemma get_zone_inverts_table_witness :
  exists z,
    get_zone 150 (mkHRController (table 125 138 151 164 177 190) 0 60 190 70)
    = (Ok z, mkHRController (table 125 138 151 164 177 190) 0 60 190 70) /\
    (z = 2 <-> 138 <= 150 <= 150).
Proof.
  destruct (get_zone_inverts_table 30 60 (Some 190) __init__
              (table 125 138 151 164 177 190)
              (mkHRController (table 125 138 151 164 177 190) 0 60 190 70) 150)
    as (z & Hz & _ & H & _).
  - simpl. lia.
  - vm_compute. reflexivity.
  - exists z. split; [exact Hz|].
    apply (H 2 (Zone 138 150)); [lia|]. vm_compute. reflexivity.
Defined.

(** ** The bounds of a table within the profile *)

(** An integer below [2^53] in magnitude is a binary64 number. *)
Lemma RZs_int K z j :
  0 <= K <= j -> Z.abs z < 2 ^ 53 -> RZs K (z * 2 ^ j) = z * 2 ^ j.
Proof.
  intros HK Hz. unfold RZs.
  pose proof (pow2_pos j ltac:(lia)) as Hp.
  destruct z as [|p|p].
  - reflexivity.
  - rewrite Z.sgn_pos, Z.abs_eq by lia. rewrite Z.mul_1_l.
    apply RZ_exact; try lia.
    pose proof (Zdigits2_le (Zpos p) 53 ltac:(lia) ltac:(lia) ltac:(lia)). lia.
  - rewrite Z.sgn_neg, Z.abs_neq by lia.
    replace (- (Zneg p * 2 ^ j)) with (Zpos p * 2 ^ j) by lia.
    rewrite RZ_exact; try lia.
    pose proof (Zdigits2_le (Zpos p) 53 ltac:(lia) ltac:(lia) ltac:(lia)). lia.
Qed.

Lemma rnds_int z n : 0 <= n -> rnds (z * 2 ^ n) n = z.
Proof.
  intros Hn. unfold rnds. pose proof (pow2_pos n Hn) as Hp.
  destruct z as [|p|p].
  - simpl. reflexivity.
  - rewrite Z.sgn_pos, Z.abs_eq by lia. rewrite rnd_exact by lia. lia.
  - rewrite Z.sgn_neg, Z.abs_neq by lia.
    replace (- (Zneg p * 2 ^ n)) with (Zpos p * 2 ^ n) by lia.
    rewrite rnd_exact by lia. lia.
Qed.

(** With an exactly representable profile, a rounded bound lies
    between the resting and the maximum heart rate. *)
Lemma bound_value_between r h mc :
  0 <= h -> Z.abs r < 2 ^ 53 -> h < 2 ^ 53 -> Z.abs (r + h) < 2 ^ 53 ->
  0 <= mc <= 2 ^ 53 ->
  r <= bound_value r h mc <= r + h.
Proof.
  intros Hh Hr Hh' Hm Hc. unfold bound_value.
  rewrite (RZs_int 0 h 1074) by lia.
  rewrite (RZs_int 53 r 1127) by lia.
  pose proof (pow2_pos 1074 ltac:(lia)) as Hp.
  set (P := RZs 53 (h * 2 ^ 1074 * mc)).
  assert (0 <= P) as HP0.
  { apply (RZs_sign 53 (h * 2 ^ 1074 * mc)); [lia|]. apply Z.mul_nonneg_nonneg; lia. }
  assert (P <= h * 2 ^ 1127) as HP1.
  { rewrite <- (RZs_int 53 h 1127) by lia. apply RZs_mono; [lia|].
    replace (h * 2 ^ 1127) with (h * 2 ^ 1074 * 2 ^ 53)
      by (rewrite <- Z.mul_assoc, <- Z.pow_add_r by lia; reflexivity).
    apply Z.mul_le_mono_nonneg_l; [apply Z.mul_nonneg_nonneg; lia | lia]. }
  split.
  - apply Z.le_trans with (rnds (r * 2 ^ 1127) 1127); [rewrite rnds_int; lia|].
    apply rnds_mono; [lia|].
    apply Z.le_trans with (RZs 53 (r * 2 ^ 1127)); [rewrite RZs_int; lia|].
    apply RZs_mono; lia.
  - apply Z.le_trans with (rnds ((r + h) * 2 ^ 1127) 1127); [|rewrite rnds_int; lia].
    apply rnds_mono; [lia|].
    apply Z.le_trans with (RZs 53 ((r + h) * 2 ^ 1127)); [|rewrite RZs_int; lia].
    apply RZs_mono; lia.
Qed.

Lemma bounds_between r h x5 x9 :
  0 <= h -> Z.abs r < 2 ^ 53 -> h < 2 ^ 53 -> Z.abs (r + h) < 2 ^ 53 ->
  bound r h f0_5 = Ok x5 -> bound r h f0_9 = Ok x9 ->
  r <= x5 /\ x9 <= r + h.
Proof.
  destruct fractions as (-> & _ & _ & _ & ->).
  intros Hh Hr Hh' Hm H5 H9.
  apply bound_is_value in H5; [|reflexivity].
  apply bound_is_value in H9; [|reflexivity]. subst.
  pose proof (bound_value_between r h 4503599627370496 Hh Hr Hh' Hm ltac:(lia)).
  pose proof (bound_value_between r h 8106479329266893 Hh Hr Hh' Hm ltac:(lia)).
  lia.
Qed.



(** X3.  After [calculate_zones] on such a profile, every heart rate
    below the resting one is in zone 0 and every heart rate from the
    maximum on is in zone 5. *)
Theorem get_zone_outside_profile age r m self tbl self' hr :
  0 <= r -> r <= or_estimated age m -> or_estimated age m < 2 ^ 53 ->
  calculate_zones age r m self = (Ok tbl, self') ->
  (hr < r -> get_zone hr self' = (Ok 0, self')) /\
  (or_estimated age m <= hr -> get_zone hr self' = (Ok 5, self')).
Proof.
  intros Hr Hh Hm E. apply calculate_zones_Ok in E. cbv zeta in E.
  destruct E as (x5 & x6 & x7 & x8 & x9 & H5 & H6 & H7 & H8 & H9 & -> & ->).
  destruct (bounds_ordered _ _ _ _ _ _ _ H5 H6 H7 H8 H9) as [Hup _].
  specialize (Hup ltac:(lia)). destruct Hup as (O1 & O2 & O3 & O4).
  destruct (bounds_between r (or_estimated age m - r) x5 x9) as [Hlo Hhi];
    try assumption; try lia.
  rewrite get_zone_table.
  split; intros H.
  - destruct (Z.ltb_spec hr x5); [reflexivity | lia].
  - destruct (Z.ltb_spec hr x5); [lia|].
    destruct (Z.leb_spec hr (x6 - 1)); [lia|].
    destruct (Z.leb_spec hr (x7 - 1)); [lia|].
    destruct (Z.leb_spec hr (x8 - 1)); [lia|].
    destruct (Z.leb_spec hr (x9 - 1)); [lia|]. reflexivity.
Qed.

Lemma get_zone_outside_profile_witness :
  get_zone 59 (mkHRController (table 125 138 151 164 177 190) 0 60 190 70)
  = (Ok 0, mkHRController (table 125 138 151 164 177 190) 0 60 190 70) /\
  get_zone 200 (mkHRController (table 125 138 151 164 177 190) 0 60 190 70)
  = (Ok 5, mkHRController (table 125 138 151 164 177 190) 0 60 190 70).
Proof.
  split.
  - apply (get_zone_outside_profile 30 60 (Some 190) __init__
             (table 125 138 151 164 177 190)); [lia | simpl; lia | simpl; lia | | lia].
    vm_compute. reflexivity.
  - apply (get_zone_outside_profile 30 60 (Some 190) __init__
             (table 125 138 151 164 177 190)); [lia | simpl; lia | simpl; lia | | simpl; lia].
    vm_compute. reflexivity.
Defined.

(** ** The exceptions of [calculate_zones] *)

Lemma float_of_int_raises z e : float_of_int z = Raise e -> e = OverflowError.
Proof. unfold float_of_int. destruct (is_inf _); congruence. Qed.

Lemma float_of_int_good z f : float_of_int z = Ok f -> good f.
Proof. intros H. apply (float_of_int_value z f (-1074) ltac:(lia) H). Qed.

(** One bound of the table raises nothing but [OverflowError]. *)
Lemma bound_raises r h c e :
  good c -> bound r h c = Raise e -> e = OverflowError.
Proof.
  intros Gc. unfold bound, mul, add, to_float.
  unfold mbind at 1 2 3, res_bind.
  destruct (float_of_int h) as [H|e'] eqn:EH;
    [|intros X; inversion X; subst; eapply float_of_int_raises; eassumption].
  pose proof (float_of_int_good h H EH) as GH.
  simpl. unfold mbind, res_bind.
  destruct (float_of_int r) as [R|e'] eqn:ER;
    [|intros X; inversion X; subst; eapply float_of_int_raises; eassumption].
  pose proof (float_of_int_good r R ER) as GR.
  set (P := fmul H c).
  destruct (is_inf P) eqn:EP.
  { destruct P as [| sP | |] eqn:EP'; try discriminate.
    rewrite fadd_inf_r by exact GR. unfold round. congruence. }
  destruct (fmul_value H c (-1074) (-1074) GH Gc
              (good_scaled H (-1074) GH ltac:(lia))
              (good_scaled c (-1074) Gc ltac:(lia)) ltac:(lia) EP) as [GP _].
  fold P in GP.
  destruct (is_inf (fadd R P)) eqn:ES.
  { destruct (fadd R P); try discriminate. unfold round. congruence. }
  destruct (fadd_value R P (-1074) GR GP ltac:(lia) ES) as [GS _].
  rewrite (round_value _ (-1074) GS) by lia. discriminate.
Qed.

Lemma fractions_good :
  good f0_5 /\ good f0_6 /\ good f0_7 /\ good f0_8 /\ good f0_9.
Proof.
  destruct fractions_within as ([? _] & [? _] & [? _] & [? _] & [? _]). auto.
Qed.

(** X4.  Whatever its arguments, [calculate_zones] raises no exception
    other than [OverflowError]; it raises only when an argument is
    [2^64] or more in magnitude, and then it leaves the engine as it
    was. *)
Theorem calculate_zones_raises age r m self e self' :
  calculate_zones age r m self = (Raise e, self') ->
  e = OverflowError /\ self' = self /\
  ~ (sane_int age /\ sane_int r /\
     match m with Some v => sane_int v | None => True end).
Proof.
  intros E. split; [|split].
  - destruct fractions_good as (G5 & G6 & G7 & G8 & G9).
    revert E. unfold calculate_zones. cbv zeta. rewrite !bind_lift.
    destruct (bound r _ f0_5) as [x5|e5] eqn:E5;
      [|intros X; inversion X; subst; exact (bound_raises _ _ _ _ G5 E5)].
    rewrite !bind_lift.
    destruct (bound r _ f0_6) as [x6|e6] eqn:E6;
      [|intros X; inversion X; subst; exact (bound_raises _ _ _ _ G6 E6)].
    rewrite !bind_lift.
    destruct (bound r _ f0_7) as [x7|e7] eqn:E7;
      [|intros X; inversion X; subst; exact (bound_raises _ _ _ _ G7 E7)].
    rewrite !bind_lift.
    destruct (bound r _ f0_8) as [x8|e8] eqn:E8;
      [|intros X; inversion X; subst; exact (bound_raises _ _ _ _ G8 E8)].
    rewrite !bind_lift.
    destruct (bound r _ f0_9) as [x9|e9] eqn:E9;
      [|intros X; inversion X; subst; exact (bound_raises _ _ _ _ G9 E9)].
    cbv. discriminate.
  - eapply calculate_zones_Raise; eassumption.
  - intros (Ha & Hr & Hm).
    destruct (calculate_zones_returns age r m self Ha Hr Hm) as (tbl & s & E').
    congruence.
Qed.

Lemma calculate_zones_raises_witness :
  OverflowError = OverflowError /\
  __init__ = __init__ /\
  ~ (sane_int 30 /\ sane_int (10 ^ 400) /\ sane_int 190).
Proof.
  apply (calculate_zones_raises 30 (10 ^ 400) (Some 190) __init__).
  vm_compute. reflexivity.
Defined.

(** ** [calculate_zones] does not depend on the state it finds *)

Lemma calculate_zones_any_state age r m self1 self2 :
  fst (calculate_zones age r m self2) = fst (calculate_zones age r m self1) /\
  (forall tbl s1,
     calculate_zones age r m self1 = (Ok tbl, s1) ->
     current_zone self2 = current_zone self1 ->
     weight_kg self2 = weight_kg self1 ->
     calculate_zones age r m self2 = (Ok tbl, s1)).
Proof.
  unfold calculate_zones. cbv zeta. rewrite !bind_lift.
  destruct (bound r _ f0_5) as [x5|]; [|split; [reflexivity | discriminate]].
  rewrite !bind_lift.
  destruct (bound r _ f0_6) as [x6|]; [|split; [reflexivity | discriminate]].
  rewrite !bind_lift.
  destruct (bound r _ f0_7) as [x7|]; [|split; [reflexivity | discriminate]].
  rewrite !bind_lift.
  destruct (bound r _ f0_8) as [x8|]; [|split; [reflexivity | discriminate]].
  rewrite !bind_lift.
  destruct (bound r _ f0_9) as [x9|]; [|split; [reflexivity | discriminate]].
  split; [reflexivity|].
  intros tbl s1 H Hc Hw. destruct self1, self2. simpl in Hc, Hw. subst.
  exact H.
Qed.

Lemma after_keeps c self :
  current_zone (after c self) = current_zone self /\
  weight_kg (after c self) = weight_kg self.
Proof.
  pose proof (after_reads c self) as Hc.
  destruct c as [age r m| | | | |]; try (rewrite Hc; split; reflexivity).
  simpl. destruct (calculate_zones age r m self) as [[tbl|e] s'] eqn:E.
  - apply calculate_zones_Ok in E. cbv zeta in E.
    destruct E as (x5 & x6 & x7 & x8 & x9 & _ & _ & _ & _ & _ & _ & ->).
    split; reflexivity.
  - apply calculate_zones_Raise in E. simpl. subst. split; reflexivity.
Qed.

(** X5.  [calculate_zones] overwrites: after any earlier call, also an
    earlier [calculate_zones] with another profile, it returns what it
    returns on the state before that call, and when it returns it
    leaves the same state; in particular a repeated call changes
    nothing. *)
Theorem calculate_zones_overwrites c age r m self :
  fst (calculate_zones age r m (after c self)) = fst (calculate_zones age r m self) /\
  (forall tbl s,
     calculate_zones age r m self = (Ok tbl, s) ->
     calculate_zones age r m (after c self) = (Ok tbl, s) /\
     calculate_zones age r m s = (Ok tbl, s)).
Proof.
  destruct (after_keeps c self) as [Hc Hw].
  destruct (calculate_zones_any_state age r m self (after c self)) as [Hf Hs].
  split; [exact Hf|]. intros tbl s E. split; [apply Hs; assumption|].
  pose proof (after_keeps (CalculateZones age r m) self) as [Hc' Hw'].
  simpl in Hc', Hw'. rewrite E in Hc', Hw'. simpl in Hc', Hw'.
  apply (calculate_zones_any_state age r m self s); assumption.
Qed.

Lemma calculate_zones_overwrites_witness :
  calculate_zones 30 60 (Some 190) (after (CalculateZones 50 70 None) __init__)
  = (Ok (table 125 138 151 164 177 190),
     mkHRController (table 125 138 151 164 177 190) 0 60 190 70).
Proof.
  apply (calculate_zones_overwrites (CalculateZones 50 70 None) 30 60 (Some 190)
           __init__).
  vm_compute. reflexivity.
Defined.

(** ** [calculate_calories] with a stored maximum of zero *)

(** X6.  [calculate_calories] divides by the stored [max_hr]: on every
    engine where that is 0, it raises [ZeroDivisionError] for every
    [hr >= resting_hr] and returns 0 below.  [calculate_zones] stores
    such a maximum on any engine: for the age 220 without a supplied
    maximum (or with the maximum 0, which counts as not supplied),
    whenever it returns, the stored [max_hr] is 0 and
    [calculate_calories] behaves in this way around the resting heart
    rate that was given. *)
Theorem calculate_calories_zero_max :
  (forall self hr duration_minutes weight,
     max_hr self = 0 ->
     (resting_hr self <= hr ->
      calculate_calories hr duration_minutes weight self
      = (Raise ZeroDivisionError, self)) /\
     (hr < resting_hr self ->
      calculate_calories hr duration_minutes weight self = (Ok 0, self))) /\
  (forall self r m tbl s hr duration_minutes weight,
     m = None \/ m = Some 0 ->
     calculate_zones 220 r m self = (Ok tbl, s) ->
     max_hr s = 0 /\
     (r <= hr ->
      calculate_calories hr duration_minutes weight s
      = (Raise ZeroDivisionError, s)) /\
     (hr < r ->
      calculate_calories hr duration_minutes weight s = (Ok 0, s))) /\
  (forall self r m,
     sane_int r -> m = None \/ m = Some 0 ->
     exists tbl s, calculate_zones 220 r m self = (Ok tbl, s)).
Proof.
  assert (forall self hr duration_minutes weight,
            max_hr self = 0 ->
            (resting_hr self <= hr ->
             calculate_calories hr duration_minutes weight self
             = (Raise ZeroDivisionError, self)) /\
            (hr < resting_hr self ->
             calculate_calories hr duration_minutes weight self = (Ok 0, self)))
    as Hzero.
  { intros self hr d w Hm. rewrite calculate_calories_unfold, Hm. split.
    - intros H. destruct (Z.ltb_spec hr (resting_hr self)); [lia|]. reflexivity.
    - intros H. destruct (Z.ltb_spec hr (resting_hr self)); [reflexivity | lia]. }
  split; [exact Hzero|]. split.
  - intros self r m tbl s hr d w Hn E. apply calculate_zones_Ok in E. cbv zeta in E.
    destruct E as (x5 & x6 & x7 & x8 & x9 & _ & _ & _ & _ & _ & _ & ->).
    assert (or_estimated 220 m = 0) as Hm by (destruct Hn as [-> | ->]; reflexivity).
    split; [exact Hm|].
    set (s := mkHRController _ _ _ _ _).
    destruct (Hzero s hr d w Hm) as [H1 H2]. split; assumption.
  - intros self r m Hr Hn.
    apply calculate_zones_returns.
    + unfold sane_int. simpl. lia.
    + exact Hr.
    + destruct Hn as [-> | ->]; [exact I | unfold sane_int; simpl; lia].
Qed.

Lemma calculate_calories_zero_max_witness :
  max_hr (snd (calculate_zones 220 60 None __init__)) = 0 /\
  calculate_calories 100 (Int 30) (Int 70)
    (snd (calculate_zones 220 60 None __init__))
  = (Raise ZeroDivisionError, snd (calculate_zones 220 60 None __init__)).
Proof.
  destruct (proj1 (proj2 calculate_calories_zero_max) __init__ 60 None
              (table 30 24 18 12 6 0)
              (snd (calculate_zones 220 60 None __init__))
              100 (Int 30) (Int 70))
    as (Hm & Hr & _).
  - left. reflexivity.
  - vm_compute. reflexivity.
  - split; [exact Hm|]. apply Hr. lia.
Defined.

(** ** The order of the samples *)

Lemma zone_count_perm self l l' z :
  Permutation l l' -> zone_count self l z = zone_count self l' z.
Proof.
  intros HP. unfold zone_count. f_equal.
  apply Permutation_length.
  induction HP as [|x l l' HP IH|x y l|l l' l'' HP1 IH1 HP2 IH2]; simpl.
  - constructor.
  - destruct (in_zone self z x); [constructor|]; assumption.
  - destruct (in_zone self z x), (in_zone self z y); try reflexivity.
    apply perm_swap.
  - etransitivity; eassumption.
Qed.

Lemma calculate_zone_distribution_counts self l :
  wf self -> l <> [] ->
  calculate_zone_distribution l self =
  (percent_loop [(0, zone_count self l 0); (1, zone_count self l 1);
                 (2, zone_count self l 2); (3, zone_count self l 3);
                 (4, zone_count self l 4); (5, zone_count self l 5)]
                (Z.of_nat (length l)) [], self).
Proof.
  intros Hwf Hl. destruct l as [|hr l]; [contradiction|].
  unfold calculate_zone_distribution.
  set (l' := hr :: l).
  change ((count_loop l' zero_counts ≫= ?f) self)
    with (match count_loop l' zero_counts self with
          | (Ok a, s') => f a s' | (Raise e, s') => (Raise e, s') end).
  unfold zero_counts. rewrite (count_loop_counts self Hwf l' 0 0 0 0 0 0).
  rewrite !Z.add_0_l. reflexivity.
Qed.

(** X7.  The distribution depends on the samples as a multiset only:
    any reordering of the list gives the same dictionary. *)
Theorem calculate_zone_distribution_perm self l l' :
  wf self -> Permutation l l' ->
  calculate_zone_distribution l self = calculate_zone_distribution l' self.
Proof.
  intros Hwf HP.
  destruct l as [|hr l].
  { apply Permutation_nil in HP. subst. reflexivity. }
  assert (l' <> []) as Hl'.
  { intros ->. apply Permutation_sym, Permutation_nil in HP. discriminate. }
  rewrite !calculate_zone_distribution_counts by (assumption || discriminate).
  rewrite (Permutation_length HP).
  rewrite !(zone_count_perm self _ _ _ HP). reflexivity.
Qed.

Lemma calculate_zone_distribution_perm_witness :
  calculate_zone_distribution [120; 150; 180] __init__
  = calculate_zone_distribution [180; 120; 150] __init__.
Proof.
  apply calculate_zone_distribution_perm.
  - left. reflexivity.
  - apply Permutation_sym. apply (Permutation_cons_append [120; 150] 180).
Defined.

(** * Division *)

(** ** Rounding a significand with a location *)

Lemma new_location_spec D r :
  0 < D -> 0 <= r < D ->
  new_location D r = if r =? 0 then loc_Exact else loc_Inexact (2 * r ?= D).
Proof.
  intros HD Hr. unfold new_location.
  destruct (Z.even D) eqn:Ev.
  - reflexivity.
  - unfold new_location_odd. destruct (r =? 0); [reflexivity|]. f_equal.
    assert (Z.odd D = true) as Ho by (rewrite <- Z.negb_even, Ev; reflexivity).
    apply Z.odd_spec in Ho. destruct Ho as [d ->].
    destruct (Z.compare_spec (2 * r + 1) (2 * d + 1));
      destruct (Z.compare_spec (2 * r) (2 * d + 1)); first [reflexivity | lia].
Qed.

Lemma loc_code_range l : 0 <= loc_code l <= 3.
Proof. destruct l as [|[]]; simpl; lia. Qed.

Lemma round_code mx lx :
  round_nearest_even mx lx = rnd (4 * mx + loc_code lx) 2.
Proof.
  unfold rnd. change (2 ^ 2) with 4.
  pose proof (loc_code_range lx) as Hc.
  replace ((4 * mx + loc_code lx) / 4) with mx
    by (apply Z.div_unique with (loc_code lx); lia).
  replace ((4 * mx + loc_code lx) mod 4) with (loc_code lx)
    by (apply Z.mod_unique with mx; lia).
  destruct lx as [|[]]; reflexivity.
Qed.

Lemma quarter_div X c p :
  0 <= c <= 3 -> 0 <= p -> (4 * X + c) / 2 ^ (p + 2) = X / 2 ^ p.
Proof.
  intros Hc Hp. rewrite Z.pow_add_r by lia. change (2 ^ 2) with 4.
  rewrite (Z.mul_comm (2 ^ p) 4), <- Z.div_div by (pose proof (pow2_pos p Hp); lia).
  f_equal. symmetry. apply Z.div_unique with c; lia.
Qed.

Lemma quarter_mod X c p :
  0 <= c <= 3 -> 0 <= p -> (4 * X + c) mod 2 ^ (p + 2) = 4 * (X mod 2 ^ p) + c.
Proof.
  intros Hc Hp. pose proof (pow2_pos p Hp) as Hq.
  pose proof (Z.mod_pos_bound X (2 ^ p) Hq) as Hb.
  symmetry. apply Z.mod_unique with (X / 2 ^ p).
  - rewrite Z.pow_add_r by lia. change (2 ^ 2) with 4. lia.
  - rewrite Z.pow_add_r by lia. change (2 ^ 2) with 4.
    pose proof (Z.div_mod X (2 ^ p) ltac:(lia)). lia.
Qed.

(** Rounding after a shift by [p] of a significand with its location. *)
Lemma round_shifted_loc X lx p :
  0 <= X ->
  round_nearest_even (X / 2 ^ Zpos p)
    (loc_of_shr_record
       (Build_shr_record (X / 2 ^ Zpos p) (Z.odd (X / 2 ^ (Zpos p - 1)))
          (negb (X mod 2 ^ (Zpos p - 1) =? 0)
           || (shr_r (shr_record_of_loc X lx) || shr_s (shr_record_of_loc X lx)))))
  = rnd (4 * X + loc_code lx) (Zpos p + 2).
Proof.
  intros HX. pose proof (loc_code_range lx) as Hc.
  assert (0 <= 4 * X + loc_code lx) as HY by lia.
  pose proof (round_shifted (4 * X + loc_code lx) (p + 2) HY) as H.
  rewrite Pos2Z.inj_add in H. rewrite <- H. clear H.
  rewrite (quarter_div X (loc_code lx) (Zpos p)) by lia.
  replace (Zpos p + 2 - 1) with ((Zpos p - 1) + 2) by lia.
  rewrite (quarter_div X (loc_code lx) (Zpos p - 1)) by lia.
  rewrite (quarter_mod X (loc_code lx) (Zpos p - 1)) by lia.
  do 3 f_equal.
  pose proof (Z.mod_pos_bound X (2 ^ (Zpos p - 1)) (pow2_pos (Zpos p - 1) ltac:(lia))) as Hb.
  destruct (Z.eqb_spec (X mod 2 ^ (Zpos p - 1)) 0) as [E|E].
  - rewrite E. destruct lx as [|[]]; reflexivity.
  - destruct (Z.eqb_spec (4 * (X mod 2 ^ (Zpos p - 1)) + loc_code lx) 0); [lia|].
    reflexivity.
Qed.

Lemma first_shift_loc mx ex lx n :
  0 <= mx -> 0 <= n ->
  exists mrs,
    shr (shr_record_of_loc mx lx) ex n = (mrs, ex + n) /\
    round_nearest_even (shr_m mrs) (loc_of_shr_record mrs)
    = rnd (4 * mx + loc_code lx) (n + 2).
Proof.
  intros Hm Hn. destruct n as [|p|p]; [| |lia].
  - exists (shr_record_of_loc mx lx). rewrite Z.add_0_r.
    destruct (loc_of_record_of_loc mx lx) as [-> ->].
    split; [reflexivity|]. apply round_code.
  - pose proof (round_shifted_loc mx lx p Hm) as H.
    destruct lx as [|[]]; cbn [shr_record_of_loc shr_r shr_s] in *;
      rewrite shr_pos by lia; (eexists; split; [reflexivity|]);
      cbn [shr_m]; exact H.
Qed.

Lemma fexp64_zero ex : ex <= fexp64 (Zdigits2 0 + ex) -> fexp64 (Zdigits2 0 + ex) = -1074.
Proof. simpl Zdigits2. unfold fexp64. lia. Qed.

Lemma rnd_small c n : 0 <= c <= 3 -> 0 <= n -> 0 <= rnd c (n + 2) <= 1.
Proof.
  intros Hc Hn. pose proof (rnd_range c (n + 2) ltac:(lia)) as H.
  assert (c / 2 ^ (n + 2) = 0) as E.
  { apply Z.div_small. split; [lia|].
    pose proof (pow2_le 2 (n + 2) ltac:(lia) ltac:(lia)) as Hp.
    change (2 ^ 2) with 4 in Hp. lia. }
  lia.
Qed.

(** The shape of a rounded significand with any location. *)
Lemma binary_round_aux_loc s mx ex lx :
  0 <= mx -> ex <= fexp64 (Zdigits2 mx + ex) ->
  let E := fexp64 (Zdigits2 mx + ex) in
  let m1 := rnd (4 * mx + loc_code lx) (E - ex + 2) in
  0 <= m1 <= 2 ^ 53 /\ (-1074 < E -> 2 ^ 52 <= m1) /\
  binary_round_aux 53 1024 s mx ex lx = finish s m1 E.
Proof.
  intros Hm Hpre E m1.
  destruct (first_shift_loc mx ex lx (E - ex) Hm ltac:(lia)) as (mrs & Hs & Hr).
  fold m1 in Hr.
  pose proof (loc_code_range lx) as Hc.
  pose proof (pow2_pos (E - ex) ltac:(lia)) as Hp.
  pose proof (rnd_range (4 * mx + loc_code lx) (E - ex + 2) ltac:(lia)) as Hrng.
  rewrite quarter_div in Hrng by lia. fold m1 in Hrng.
  assert (0 <= mx / 2 ^ (E - ex)) as Hq0 by (apply Z.div_pos; lia).
  assert (mx / 2 ^ (E - ex) < 2 ^ 53 /\ (-1074 < E -> 2 ^ 52 <= mx / 2 ^ (E - ex)))
    as [Hq Hn].
  { destruct (Z.eq_dec mx 0) as [->|Hnz].
    - rewrite Z.div_0_l by lia. split; [lia|].
      pose proof (fexp64_zero ex Hpre). unfold E. lia.
    - assert (0 < mx) as Hpos by lia.
      pose proof (Zdigits2_spec mx Hpos) as [Hlo Hhi].
      pose proof (Zdigits2_pos mx Hpos) as Hd.
      split.
      + apply Z.div_lt_upper_bound; [lia|].
        rewrite <- Z.pow_add_r by lia.
        pose proof (pow2_le (Zdigits2 mx) (E - ex + 53)
                      ltac:(unfold E, fexp64; lia) ltac:(lia)). lia.
      + intros HE. apply Z.div_le_lower_bound; [lia|].
        rewrite <- Z.pow_add_r by lia.
        replace (E - ex + 52) with (Zdigits2 mx - 1) by (unfold E, fexp64 in *; lia).
        lia. }
  split; [lia|]. split; [intros HE; specialize (Hn HE); lia|].
  pose proof (second_shift m1 E ltac:(lia) ltac:(unfold E, fexp64; lia)) as H2.
  unfold binary_round_aux.
  change (shr_fexp 53 1024 mx ex lx)
    with (shr (shr_record_of_loc mx lx) ex (E - ex)).
  rewrite Hs. cbv beta iota. rewrite Hr. replace (ex + (E - ex)) with E by lia.
  rewrite H2.
  unfold finish.
  destruct (Z.ltb_spec m1 (2 ^ 53)) as [Hlt|Hge]; cbn [shr_m].
  - destruct (Z.eqb_spec m1 0) as [->|Hnz]; [reflexivity|].
    destruct m1 as [|p|p]; try lia. reflexivity.
  - destruct (Z.eqb_spec m1 0) as [->|Hnz]; [lia|]. reflexivity.
Qed.

(** ** The quotient with a sticky bit *)

Lemma qs_nonneg N D : 0 <= N -> 0 < D -> 0 <= qs N D.
Proof.
  intros HN HD. unfold qs. pose proof (Z.div_pos N D HN HD).
  destruct (N mod D =? 0); lia.
Qed.

Lemma qs_mono N1 N2 D : 0 < D -> N1 <= N2 -> qs N1 D <= qs N2 D.
Proof.
  intros HD Hle. unfold qs.
  pose proof (Z.div_le_mono N1 N2 D HD Hle) as Hq.
  pose proof (Z.div_mod N1 D ltac:(lia)) as E1.
  pose proof (Z.div_mod N2 D ltac:(lia)) as E2.
  pose proof (Z.mod_pos_bound N1 D HD) as B1.
  pose proof (Z.mod_pos_bound N2 D HD) as B2.
  destruct (Z.eqb_spec (N1 mod D) 0) as [Z1|Z1];
    destruct (Z.eqb_spec (N2 mod D) 0) as [Z2|Z2]; try lia.
  destruct (Z.eq_dec (N1 / D) (N2 / D)) as [E|E]; [|lia].
  rewrite E in E1. lia.
Qed.

Lemma qs_exact c D : 0 < D -> qs (c * D) D = 2 * c.
Proof.
  intros HD. unfold qs. rewrite Z.mod_mul, Z.div_mul by lia. simpl. lia.
Qed.

(** The quotient and the location that [SFdiv_core_binary] computes
    are the quotient of the doubled dividend with its sticky bit. *)
Lemma qs_location N D :
  0 < D -> 0 <= N ->
  qs (2 * N) D = 4 * (N / D) + loc_code (new_location D (N mod D)).
Proof.
  intros HD HN.
  pose proof (Z.mod_pos_bound N D HD) as Hb.
  pose proof (Z.div_mod N D ltac:(lia)) as E.
  rewrite new_location_spec by lia.
  set (q := N / D) in *. set (r := N mod D) in *.
  assert (forall a b, 0 <= b < D -> 2 * N = D * a + b ->
                      qs (2 * N) D = 2 * a + (if b =? 0 then 0 else 1)) as Hqs.
  { intros a b Hb' E'. unfold qs.
    rewrite <- (Z.div_unique (2 * N) D a b) by lia.
    rewrite <- (Z.mod_unique (2 * N) D a b) by lia. reflexivity. }
  destruct (Z.eqb_spec r 0) as [Hr|Hr].
  - rewrite (Hqs (2 * q) 0) by lia. simpl. lia.
  - destruct (Z.compare_spec (2 * r) D) as [Hc|Hc|Hc]; simpl loc_code.
    + rewrite (Hqs (2 * q + 1) 0) by lia. simpl. lia.
    + rewrite (Hqs (2 * q) (2 * r)) by lia.
      destruct (Z.eqb_spec (2 * r) 0); lia.
    + rewrite (Hqs (2 * q + 1) (2 * r - D)) by lia.
      destruct (Z.eqb_spec (2 * r - D) 0); lia.
Qed.

Lemma qs_half N D : 0 < D -> qs N D / 2 = N / D /\ (qs N D mod 2 = 0 <-> N mod D = 0).
Proof.
  intros HD. unfold qs.
  destruct (Z.eqb_spec (N mod D) 0) as [E|E].
  - rewrite Z.add_0_r. rewrite Z.mul_comm, Z.div_mul, Z.mod_mul by lia. tauto.
  - rewrite <- (Z.div_unique (2 * (N / D) + 1) 2 (N / D) 1) by lia.
    rewrite <- (Z.mod_unique (2 * (N / D) + 1) 2 (N / D) 1) by lia.
    split; [reflexivity|]. split; intros; [lia | contradiction].
Qed.

(** On a finer grid the quotient has the same upper bits and the same
    sticky part. *)
Lemma qs_scale N D j :
  0 <= N -> 0 < D -> 0 <= j ->
  qs (N * 2 ^ j) D / 2 ^ (j + 1) = N / D /\
  (qs (N * 2 ^ j) D mod 2 ^ (j + 1) = 0 <-> N mod D = 0).
Proof.
  intros HN HD Hj. pose proof (pow2_pos j Hj) as Hp.
  pose proof (pow2_pos (j + 1) ltac:(lia)) as Hp1.
  assert (2 ^ (j + 1) = 2 * 2 ^ j) as Hs
    by (rewrite Z.pow_add_r by lia; change (2 ^ 1) with 2; lia).
  destruct (qs_half (N * 2 ^ j) D HD) as [Hh Hm].
  set (T := qs (N * 2 ^ j) D) in *.
  assert (0 <= T) as HT by (apply qs_nonneg; nia).
  assert (T / 2 ^ (j + 1) = N / D) as Hq.
  { rewrite Hs, <- Z.div_div by lia. rewrite Hh.
    rewrite Z.div_div by lia.
    apply Z.div_mul_cancel_r; lia. }
  split; [exact Hq|].
  pose proof (Z.div_mod T (2 ^ (j + 1)) ltac:(lia)) as ET. rewrite Hq in ET.
  pose proof (Z.div_mod T 2 ltac:(lia)) as E2. rewrite Hh in E2.
  pose proof (Z.div_mod (N * 2 ^ j) D ltac:(lia)) as EN.
  pose proof (Z.div_mod N D ltac:(lia)) as EN'.
  pose proof (Z.mod_pos_bound T 2 ltac:(lia)) as B2.
  pose proof (Z.mod_pos_bound (N * 2 ^ j) D HD) as BN.
  pose proof (Z.mod_pos_bound N D HD) as BN'.
  pose proof (Z.mod_pos_bound T (2 ^ (j + 1)) Hp1) as BT.
  split.
  - intros Hz. rewrite Hz, Z.add_0_r in ET.
    (* T is even and its half is a multiple of 2^j *)
    assert (T mod 2 = 0) as Ht.
    { rewrite ET, Hs. rewrite <- Z.mul_assoc, Z.mul_comm. apply Z.mod_mul. lia. }
    apply Hm in Ht.
    assert ((N * 2 ^ j) / D = 2 ^ j * (N / D)) as Hd by nia.
    rewrite Hd, Ht in EN.
    assert (N = D * (N / D)) by nia. lia.
  - intros Hz.
    assert (N * 2 ^ j = D * (N / D * 2 ^ j)) as EE by nia.
    assert ((N * 2 ^ j) mod D = 0) as Hn.
    { rewrite EE. rewrite Z.mul_comm. apply Z.mod_mul. lia. }
    assert ((N * 2 ^ j) / D = N / D * 2 ^ j) as Hd.
    { rewrite EE at 1. rewrite Z.mul_comm. apply Z.div_mul. lia. }
    apply Hm in Hn. rewrite Hn, Hd in E2. nia.
Qed.

(** Rounding looks at the bits above position [p] and at whether the
    rest is zero. *)
Lemma rnd_sticky A B p n :
  0 <= p < n -> A / 2 ^ p = B / 2 ^ p ->
  (A mod 2 ^ p = 0 <-> B mod 2 ^ p = 0) ->
  rnd A n = rnd B n.
Proof.
  intros Hp Hq Hs.
  pose proof (pow2_pos p ltac:(lia)) as Pp.
  pose proof (pow2_pos (n - p - 1) ltac:(lia)) as Pi.
  assert (2 ^ n = 2 ^ p * (2 * 2 ^ (n - p - 1))) as En.
  { replace n with (p + (1 + (n - p - 1))) at 1 by lia.
    rewrite !Z.pow_add_r by lia. reflexivity. }
  assert (forall X, X / 2 ^ n = X / 2 ^ p / (2 * 2 ^ (n - p - 1)) /\
                    X mod 2 ^ n
                    = X mod 2 ^ p + 2 ^ p * ((X / 2 ^ p) mod (2 * 2 ^ (n - p - 1)))) as HX.
  { intros X. rewrite En. split.
    - rewrite Z.div_div by lia. reflexivity.
    - apply Z.rem_mul_r; lia. }
  unfold rnd.
  destruct (HX A) as [-> ->]. destruct (HX B) as [-> ->]. rewrite <- Hq.
  set (T := 2 ^ (n - p - 1)) in *. set (P := 2 ^ p) in *.
  set (h := (A / P) mod (2 * T)).
  pose proof (Z.mod_pos_bound A P Pp) as BA. pose proof (Z.mod_pos_bound B P Pp) as BB.
  pose proof (Z.mod_pos_bound (A / P) (2 * T) ltac:(lia)) as Bh. fold h in Bh.
  rewrite En.
  destruct (Z.lt_total h T) as [Hlt|[Heq|Hgt]].
  - assert (P * h + P <= P * T) as Hb by nia.
    destruct (Z.compare_spec (2 * (A mod P + P * h)) (P * (2 * T)));
      destruct (Z.compare_spec (2 * (B mod P + P * h)) (P * (2 * T)));
      first [reflexivity | lia].
  - rewrite Heq.
    destruct (Z.compare_spec (2 * (A mod P + P * T)) (P * (2 * T)));
      destruct (Z.compare_spec (2 * (B mod P + P * T)) (P * (2 * T)));
      first [reflexivity | lia].
  - assert (P * T + P <= P * h) as Hb by nia.
    destruct (Z.compare_spec (2 * (A mod P + P * h)) (P * (2 * T)));
      destruct (Z.compare_spec (2 * (B mod P + P * h)) (P * (2 * T)));
      first [reflexivity | lia].
Qed.

Lemma Zdigits2_div X p :
  0 <= p -> 0 < X / 2 ^ p -> Zdigits2 X = Zdigits2 (X / 2 ^ p) + p.
Proof.
  intros Hp HF. pose proof (pow2_pos p Hp) as Pp.
  pose proof (Zdigits2_spec _ HF) as [Hlo Hhi].
  pose proof (Zdigits2_pos _ HF) as Hd.
  pose proof (Z.div_mod X (2 ^ p) ltac:(lia)) as E.
  pose proof (Z.mod_pos_bound X (2 ^ p) Pp) as B.
  set (F := X / 2 ^ p) in *. set (d := Zdigits2 F) in *.
  assert (2 ^ (d - 1) * 2 ^ p <= X) as H1 by nia.
  assert (X < 2 ^ d * 2 ^ p) as H2 by nia.
  rewrite <- Z.pow_add_r in H1, H2 by lia.
  apply Z.le_antisymm.
  - apply Zdigits2_le; [nia | lia | exact H2].
  - apply Zdigits2_ge; [nia|]. replace (d + p - 1) with (d - 1 + p) by lia. exact H1.
Qed.

(** ** The value of a quotient *)

(** [fdiv] of two finite floats: the quotient of the values, rounded
    once; an infinity only by overflow.  The dividend is taken in
    units of [2^(k+1)] over the divisor's significand. *)
Theorem fdiv_value sa ma ea sb mb eb k :
  k <= -1076 -> k + 2 <= ea - eb ->
  let V := RZ (-1074 - k) (qs (Zpos ma * 2 ^ (ea - eb - k - 1)) (Zpos mb)) in
  let f := fdiv (S754_finite sa ma ea) (S754_finite sb mb eb) in
  (V < 2 ^ (1024 - k) -> good f /\ sval k f = cond_Zopp (xorb sa sb) V) /\
  (2 ^ (1024 - k) <= V -> f = S754_infinity (xorb sa sb)).
Proof.
  intros Hk Hke V f. unfold f, fdiv, prec, emax, SFdiv, SFdiv_core_binary.
  rewrite fexp_64.
  set (d1 := Zdigits2 (Zpos ma)). set (d2 := Zdigits2 (Zpos mb)).
  set (D := d1 + ea - (d2 + eb)).
  set (e' := Z.min (fexp64 D) (ea - eb)).
  set (s := ea - eb - e').
  assert (0 <= s) as Hs by (unfold s, e'; lia).
  set (m' := match s with Zpos _ => Z.shiftl (Zpos ma) s | 0 => Zpos ma | Zneg _ => 0 end).
  assert (m' = Zpos ma * 2 ^ s) as Hm'.
  { unfold m'. destruct s as [|p|p] eqn:Es; [simpl; lia| |lia].
    rewrite Z.shiftl_mul_pow2 by lia. reflexivity. }
  clearbody m'.
  pose proof (Zdigits2_spec (Zpos ma) ltac:(lia)) as [H1lo H1hi].
  pose proof (Zdigits2_spec (Zpos mb) ltac:(lia)) as [H2lo H2hi].
  pose proof (Zdigits2_pos (Zpos ma) ltac:(lia)) as Hd1.
  pose proof (Zdigits2_pos (Zpos mb) ltac:(lia)) as Hd2.
  fold d1 in H1lo, H1hi, Hd1. fold d2 in H2lo, H2hi, Hd2.
  pose proof (pow2_pos s Hs) as Hps.
  assert (2 ^ (d1 - 1 + s) <= m' < 2 ^ (d1 + s)) as Hmb.
  { rewrite Hm', !Z.pow_add_r by lia. nia. }
  assert (Z.div_eucl m' (Zpos mb) = (m' / Zpos mb, m' mod Zpos mb)) as ->.
  { unfold Z.div, Z.modulo. destruct (Z.div_eucl m' (Zpos mb)). reflexivity. }
  set (q := m' / Zpos mb). set (lz := new_location (Zpos mb) (m' mod Zpos mb)).
  assert (0 <= q) as Hq0 by (apply Z.div_pos; lia).
  assert (e' <= fexp64 (Zdigits2 q + e')) as Hpre.
  { destruct (Z.eq_dec q 0) as [Hq|Hq].
    - rewrite Hq. unfold q in Hq.
      apply Z.div_small_iff in Hq; [|lia]. destruct Hq as [Hq|Hq]; [|lia].
      assert (d1 - 1 + s < d2) as Hlt.
      { destruct (Z.lt_ge_cases (d1 - 1 + s) d2) as [|Hge]; [assumption|].
        pose proof (pow2_le d2 (d1 - 1 + s) Hge ltac:(lia)). lia. }
      simpl Zdigits2. unfold D, s, e', fexp64 in *. lia.
    - assert (Zpos mb <= m') as Hge.
      { destruct (Z.lt_ge_cases m' (Zpos mb)) as [Hlt|]; [|assumption].
        unfold q in Hq. rewrite Z.div_small in Hq by lia. contradiction. }
      assert (d2 - 1 < d1 + s) as Hds.
      { destruct (Z.lt_ge_cases (d2 - 1) (d1 + s)) as [|Hc]; [assumption|].
        pose proof (pow2_le (d1 + s) (d2 - 1) Hc ltac:(lia)). lia. }
      assert (d1 + s - d2 <= Zdigits2 q) as Hlo.
      { apply Zdigits2_ge; [lia|].
        destruct (Z.lt_ge_cases (d1 + s - d2 - 1) 0) as [Hneg|Hnn].
        - rewrite Z.pow_neg_r by lia. lia.
        - apply Z.div_le_lower_bound; [lia|].
          apply Z.le_trans with (2 ^ d2 * 2 ^ (d1 + s - d2 - 1)).
          + apply Z.mul_le_mono_nonneg_r; [apply Z.pow_nonneg; lia | lia].
          + rewrite <- Z.pow_add_r by lia.
            replace (d2 + (d1 + s - d2 - 1)) with (d1 - 1 + s) by lia. lia. }
      unfold D, s, e', fexp64 in *. lia. }
  destruct (binary_round_aux_loc (xorb sa sb) q e' lz Hq0 Hpre) as (Hm1 & Hn1 & ->).
  set (E := fexp64 (Zdigits2 q + e')) in *.
  set (Y := 4 * q + loc_code lz) in *.
  assert (Y = qs (2 * m') (Zpos mb)) as HY
    by (symmetry; apply qs_location; lia).
  assert (k + 2 <= e') as Hke' by (unfold e', fexp64; lia).
  set (j := e' - k - 2).
  set (T := qs (Zpos ma * 2 ^ (ea - eb - k - 1)) (Zpos mb)) in *.
  pose proof (pow2_pos j ltac:(unfold j; lia)) as Hpj.
  assert (T = qs (2 * m' * 2 ^ j) (Zpos mb)) as HT.
  { unfold T. f_equal. rewrite Hm'.
    replace (ea - eb - k - 1) with (s + 1 + j) by (unfold j, s; lia).
    rewrite !Z.pow_add_r by (unfold j; lia). change (2 ^ 1) with 2. ring. }
  destruct (qs_scale (2 * m') (Zpos mb) j ltac:(lia) ltac:(lia) ltac:(unfold j; lia))
    as [Tq Ts].
  rewrite <- HT in Tq, Ts.
  destruct (qs_half (2 * m') (Zpos mb) ltac:(lia)) as [Yq Ys].
  rewrite <- HY in Yq, Ys.
  assert (2 ^ (j + 1) = 2 * 2 ^ j) as Hj1
    by (rewrite Z.pow_add_r by (unfold j; lia); change (2 ^ 1) with 2; lia).
  assert (0 <= T) as HT0 by (unfold T; apply qs_nonneg; [|lia];
    apply Z.mul_nonneg_nonneg; [lia | apply Z.pow_nonneg; lia]).
  assert (rnd T (E - k) = rnd Y (E - e' + 2)) as Hr.
  { rewrite (rnd_sticky T (Y * 2 ^ j) (j + 1) (E - k)).
    - replace (E - k) with ((E - e' + 2) + j) by (unfold j; lia).
      apply rnd_scale; unfold j; lia.
    - unfold j; lia.
    - rewrite Tq, <- Yq, Hj1. symmetry. apply Z.div_mul_cancel_r; lia.
    - rewrite Ts, <- Ys, Hj1, Zmult_mod_distr_r.
      pose proof (Z.mod_pos_bound Y 2 ltac:(lia)) as Hy. revert Hy Hpj.
      generalize (Y mod 2), (2 ^ j). clear. intros y u Hy Hu.
      split; intros; nia. }
  assert (T / 2 ^ (j + 2) = q) as Tq2.
  { replace (j + 2) with ((j + 1) + 1) by lia.
    rewrite Z.pow_add_r by (unfold j; lia). change (2 ^ 1) with 2.
    rewrite <- Z.div_div by (clear - Hpj Hj1; lia). rewrite Tq.
    rewrite Z.div_div by (clear; lia). rewrite (Z.mul_comm (Zpos mb)).
    unfold q. apply Z.div_mul_cancel_l; lia. }
  assert (Z.max (Zdigits2 T - 53) (-1074 - k) = E - k) as Hn.
  { pose proof (pow2_pos (j + 2) ltac:(clear - Hke'; unfold j; lia)) as Hp2.
    destruct (Z.eq_dec q 0) as [Hq|Hq].
    - assert (E = -1074) as HE.
      { unfold E in *. rewrite Hq in *. apply fexp64_zero. exact Hpre. }
      assert (Zdigits2 T <= j + 2) as HdT.
      { rewrite Hq in Tq2.
        apply Z.div_small_iff in Tq2; [|clear - Hp2; lia].
        destruct Tq2 as [Tq2|Tq2]; [|clear - Tq2 Hp2; lia].
        destruct (Z.eq_dec T 0) as [HTz|HTn].
        - rewrite HTz. simpl Zdigits2. clear - Hke'. unfold j. lia.
        - apply Zdigits2_le;
            [clear - HT0 HTn; lia | clear - Hke'; unfold j; lia | clear - Tq2; lia]. }
      clear - HdT HE Hpre Hk. unfold j in HdT. lia.
    - assert (Zdigits2 T = Zdigits2 q + (j + 2)) as HdT.
      { rewrite <- Tq2. apply Zdigits2_div;
          [clear - Hke'; unfold j; lia | rewrite Tq2; clear - Hq0 Hq; lia]. }
      rewrite HdT. unfold E, fexp64, j. generalize (Zdigits2 q). clear.
      intros dq. lia. }
  assert (V = rnd Y (E - e' + 2) * 2 ^ (E - k)) as HV.
  { unfold V, RZ. fold T. rewrite Hn, Hr. reflexivity. }
  rewrite HV. apply finish_spec; [exact Hm1 | exact Hn1 | | clear - Hk; lia].
  unfold E, fexp64. apply Z.le_max_r.
Qed.

(** ** [int / int] *)

Lemma truediv_int_value a b f k :
  k <= -1076 -> truediv (Int a) (Int b) = Ok f ->
  good f /\ sval k f = quot_value k a b.
Proof.
  intros Hk. unfold truediv, quot_value.
  destruct (Z.eqb_spec b 0) as [|Hb]; [discriminate|].
  assert (forall sa ma sb mb,
            (if is_inf (fdiv (S754_finite sa ma 0) (S754_finite sb mb 0))
             then Raise OverflowError
             else Ok (fdiv (S754_finite sa ma 0) (S754_finite sb mb 0))) = Ok f ->
            good f /\
            sval k f = cond_Zopp (xorb sa sb)
                         (RZ (-1074 - k) (qs (Zpos ma * 2 ^ (- k - 1)) (Zpos mb)))) as Hfin.
  { intros sa ma sb mb.
    pose proof (fdiv_value sa ma 0 sb mb 0 k Hk ltac:(lia)) as [Hf Hi].
    cbv zeta in Hf, Hi. replace (0 - 0 - k - 1) with (- k - 1) in Hf, Hi by lia.
    destruct (Z.lt_ge_cases
                (RZ (-1074 - k) (qs (Zpos ma * 2 ^ (- k - 1)) (Zpos mb)))
                (2 ^ (1024 - k))) as [Hlt|Hge].
    - destruct (Hf Hlt) as [G Vv]. rewrite (good_not_inf _ G).
      intros X. inversion X; subst. split; assumption.
    - rewrite (Hi Hge). simpl. discriminate. }
  destruct a as [|ma|ma]; (destruct b as [|mb|mb]; [contradiction| |]); unfold exact.
  - intros X. inversion X; subst. split; [exact I | reflexivity].
  - intros X. inversion X; subst. split; [exact I | reflexivity].
  - intros X. destruct (Hfin _ _ _ _ X) as [G Vv]. split; [exact G|].
    rewrite Vv. cbn [xorb cond_Zopp]. unfold Z.sgn, Z.abs. lia.
  - intros X. destruct (Hfin _ _ _ _ X) as [G Vv]. split; [exact G|].
    rewrite Vv. cbn [xorb cond_Zopp]. unfold Z.sgn, Z.abs. lia.
  - intros X. destruct (Hfin _ _ _ _ X) as [G Vv]. split; [exact G|].
    rewrite Vv. cbn [xorb cond_Zopp]. unfold Z.sgn, Z.abs. lia.
  - intros X. destruct (Hfin _ _ _ _ X) as [G Vv]. split; [exact G|].
    rewrite Vv. cbn [xorb cond_Zopp]. unfold Z.sgn, Z.abs. lia.
Qed.

Lemma quot_value_mono k a a' b :
  k <= -1076 -> 0 < b -> a <= a' -> quot_value k a b <= quot_value k a' b.
Proof.
  intros Hk Hb Hle. unfold quot_value.
  rewrite (Z.sgn_pos b), (Z.abs_eq b) by lia.
  pose proof (pow2_pos (- k - 1) ltac:(lia)) as Hp.
  assert (forall x, 0 <= RZ (-1074 - k) (qs (Z.abs x * 2 ^ (- k - 1)) b)) as Hnn.
  { intros x. apply RZ_nonneg; [lia|]. apply qs_nonneg; [|lia].
    pose proof (Z.abs_nonneg x). nia. }
  assert (forall x y, 0 <= x <= y ->
            RZ (-1074 - k) (qs (x * 2 ^ (- k - 1)) b)
            <= RZ (-1074 - k) (qs (y * 2 ^ (- k - 1)) b)) as Hm.
  { intros x y Hxy. apply RZ_mono; [lia|]. split.
    - apply qs_nonneg; [nia | lia].
    - apply qs_mono; [lia | nia]. }
  pose proof (Hnn a). pose proof (Hnn a').
  destruct (Z.sgn_spec a) as [[? ->]|[[? ->]|[? ->]]];
    destruct (Z.sgn_spec a') as [[? ->]|[[? ->]|[? ->]]]; try lia.
  - pose proof (Hm (Z.abs a) (Z.abs a') ltac:(lia)). lia.
  - pose proof (Hm (Z.abs a') (Z.abs a) ltac:(lia)). lia.
Qed.

Lemma quot_value_multiple k c b :
  k <= -1076 -> b <> 0 -> quot_value k (c * b) b = RZs (-1074 - k) (c * 2 ^ (- k)).
Proof.
  intros Hk Hb. unfold quot_value, RZs.
  pose proof (pow2_pos (- k - 1) ltac:(lia)) as Hp.
  pose proof (pow2_pos (- k) ltac:(lia)) as Hp'.
  rewrite Z.abs_mul.
  replace (Z.abs c * Z.abs b * 2 ^ (- k - 1)) with (Z.abs c * 2 ^ (- k - 1) * Z.abs b)
    by ring.
  rewrite qs_exact by lia.
  replace (2 * (Z.abs c * 2 ^ (- k - 1))) with (Z.abs c * 2 ^ (- k)).
  2:{ replace (- k) with (1 + (- k - 1)) at 1 by lia.
      rewrite Z.pow_add_r by lia. change (2 ^ 1) with 2. ring. }
  rewrite (Z.abs_mul c (2 ^ (- k))), (Z.abs_eq (2 ^ (- k))) by lia.
  rewrite Z.sgn_mul, (Z.sgn_mul c (2 ^ (- k))), (Z.sgn_pos (2 ^ (- k))) by lia.
  assert (Z.sgn b * Z.sgn b = 1) as Hsb
    by (destruct (Z.sgn_spec b) as [[? ->]|[[? ->]|[? ->]]]; lia).
  set (R := RZ _ _).
  transitivity (Z.sgn c * (Z.sgn b * Z.sgn b) * R); [ring | rewrite Hsb; ring].
Qed.

Lemma quot_value_nonneg k a b :
  k <= -1076 -> 0 <= a -> 0 < b -> 0 <= quot_value k a b.
Proof.
  intros Hk Ha Hb.
  replace 0 with (quot_value k 0 b) at 1; [apply quot_value_mono; lia|].
  unfold quot_value. simpl. reflexivity.
Qed.

Lemma sval_scale f k k' :
  scaled k' f -> k <= k' -> sval k f = sval k' f * 2 ^ (k' - k).
Proof.
  destruct f as [s|s| |s m e]; unfold sval, scaled; intros Hs Hk; try reflexivity.
  rewrite cond_Zopp_scale, <- Z.mul_assoc, <- Z.pow_add_r by lia.
  do 3 f_equal. lia.
Qed.

(** * The estimators *)

(** ** Products that are rounded to an integer *)

Lemma round_Ok_finite f n : round (Float f) = Ok n -> is_inf f = false.
Proof. destruct f; unfold round; simpl; congruence. Qed.

Lemma round_fmul_value a b ka kb n :
  good a -> good b -> scaled ka a -> scaled kb b -> ka + kb <= -1074 ->
  round (Float (fmul a b)) = Ok n ->
  n = rnds (RZs (-1074 - (ka + kb)) (sval ka a * sval kb b)) (- (ka + kb)).
Proof.
  intros Ga Gb Sa Sb Hk Hr.
  pose proof (round_Ok_finite _ _ Hr) as Hi.
  destruct (fmul_value a b ka kb Ga Gb Sa Sb Hk Hi) as [G V].
  rewrite (round_value _ (ka + kb) G Hk) in Hr. inversion Hr. rewrite V. reflexivity.
Qed.

Lemma fmul_inf_l s b n : round (Float (fmul (S754_infinity s) b)) <> Ok n.
Proof. destruct b; unfold round; simpl; congruence. Qed.

Lemma fmul_good_or_inf a b :
  good a -> good b -> good (fmul a b) \/ exists s, fmul a b = S754_infinity s.
Proof.
  intros Ga Gb. destruct (is_inf (fmul a b)) eqn:Hi.
  - right. destruct (fmul a b); try discriminate. eauto.
  - left. apply (fmul_value a b (-1074) (-1074) Ga Gb); try lia;
      try (apply good_scaled; [assumption | lia]). exact Hi.
Qed.

Lemma float_of_int_nonneg z f :
  0 <= z -> float_of_int z = Ok f -> good f /\ 0 <= sval (-1074) f.
Proof.
  intros Hz E. destruct (float_of_int_value z f (-1074) ltac:(lia) E) as [G V].
  split; [exact G|]. rewrite V. apply RZs_sign; [lia|].
  apply Z.mul_nonneg_nonneg; [lia | apply Z.pow_nonneg; lia].
Qed.

Lemma float_of_3 : float_of_int 3 = Ok (S754_finite false 6755399441055744 (-51)).
Proof. reflexivity. Qed.

(** [weight * 3] as a float, when it is finite. *)
Lemma base_watts_nonneg w b B :
  nonneg w -> mul w (Int 3) = Ok b -> to_float b = Ok B -> is_inf B = false ->
  good B /\ 0 <= sval (-1074) B.
Proof.
  intros Hw. destruct w as [z|f]; unfold mul.
  - intros X. inversion X; subst. simpl in *.
    intros E _. apply (float_of_int_nonneg (z * 3)); [lia | exact E].
  - unfold to_float at 1 2. rewrite float_of_3. run_res.
    intros X. inversion X; subst. simpl to_float.
    intros Y. inversion Y; subst. intros Hi.
    destruct Hw as [G Hv].
    assert (good (S754_finite false 6755399441055744 (-51))) as G3
      by (split; [reflexivity | lia]).
    destruct (fmul_value f _ (-1074) (-51) G G3 (good_scaled f (-1074) G ltac:(lia))
                ltac:(simpl; lia) ltac:(lia) Hi) as [GB VB].
    split; [exact GB|].
    rewrite (sval_scale _ (-1074 + -51) (-1074)) in VB.
    2:{ apply good_scaled; [exact GB | lia]. }
    2:{ lia. }
    assert (0 <= RZs (-1074 - (-1074 + -51))
                   (sval (-1074) f * sval (-51) (S754_finite false 6755399441055744 (-51))))
      as Hnn.
    { apply RZs_sign; [lia|]. apply Z.mul_nonneg_nonneg; [exact Hv|].
      unfold sval. simpl. lia. }
    rewrite <- VB in Hnn.
    pose proof (pow2_pos (-1074 - (-1074 + -51)) ltac:(lia)). nia.
Qed.

(** The estimate for [hr >= resting_hr], as one rounding of a product. *)
Lemma wattage_formula_value r m hr w n :
  nonneg w -> wattage_formula r m hr w = Ok n ->
  exists Bv, 0 <= Bv /\
    (forall hr' n', wattage_formula r m hr' w = Ok n' ->
       n' = rnds (RZs 1076 (Bv * quot_value (-1076) (hr' - r) (m - r))) 2150) /\
    (exists b B, mul w (Int 3) = Ok b /\ to_float b = Ok B /\ good B /\
                 Bv = sval (-1074) B).
Proof.
  intros Hw. unfold wattage_formula.
  destruct (truediv (Int (hr - r)) (Int (m - r))) as [q|] eqn:Eq; [|discriminate].
  run_res.
  destruct (mul w (Int 3)) as [b|] eqn:Eb; [|discriminate].
  run_res.
  assert (forall q', mul b (Float q') =
                     match to_float b with
                     | Ok B => Ok (Float (fmul B q'))
                     | Raise e => Raise e
                     end) as Hmul.
  { intros q'. destruct b as [z|g]; unfold mul, to_float; run_res.
    - destruct (float_of_int z); reflexivity.
    - reflexivity. }
  rewrite Hmul.
  destruct (to_float b) as [B|] eqn:EB; [|discriminate].
  intros Hr.
  destruct (is_inf B) eqn:Hi.
  { destruct B; try discriminate. exfalso. exact (fmul_inf_l _ _ _ Hr). }
  destruct (base_watts_nonneg w b B Hw Eb EB Hi) as [GB HB].
  exists (sval (-1074) B). split; [exact HB|]. split.
  - intros hr' n'.
    destruct (truediv (Int (hr' - r)) (Int (m - r))) as [q'|] eqn:Eq'; [|discriminate].
    run_res. rewrite Hmul. intros Hr'.
    destruct (truediv_int_value _ _ _ (-1076) ltac:(lia) Eq') as [Gq' Vq'].
    rewrite <- Vq'.
    apply (round_fmul_value B q' (-1074) (-1076) n' GB Gq'); try lia;
      try (apply good_scaled; [assumption | lia]).
    exact Hr'.
  - exists b, B. auto.
Qed.

(** For a weight that is not negative the estimate follows the heart
    rate. *)
Lemma wattage_order self hr1 hr2 weight n1 n2 :
  resting_hr self < max_hr self -> nonneg weight -> hr1 <= hr2 ->
  calculate_wattage hr1 weight self = (Ok n1, self) ->
  calculate_wattage hr2 weight self = (Ok n2, self) ->
  0 <= n1 <= n2.
Proof.
  intros Hrm Hw Hle. rewrite !calculate_wattage_unfold.
  set (r := resting_hr self) in *. set (m := max_hr self) in *.
  assert (forall hr n, r <= hr -> wattage_formula r m hr weight = Ok n ->
            exists Bv, 0 <= Bv /\
              forall hr' n', wattage_formula r m hr' weight = Ok n' ->
                n' = rnds (RZs 1076 (Bv * quot_value (-1076) (hr' - r) (m - r))) 2150)
    as Hval.
  { intros hr n _ E. destruct (wattage_formula_value r m hr weight n Hw E)
      as (Bv & H0 & Hv & _). eauto. }
  assert (forall Bv hr, 0 <= Bv -> r <= hr ->
            0 <= rnds (RZs 1076 (Bv * quot_value (-1076) (hr - r) (m - r))) 2150)
    as Hnn.
  { intros Bv hr HB Hhr.
    replace 0 with (rnds (0 * 2 ^ 2150) 2150) at 1 by (rewrite rnds_int; lia).
    apply rnds_mono; [lia|]. rewrite Z.mul_0_l.
    apply (RZs_sign 1076); [lia|]. apply Z.mul_nonneg_nonneg; [exact HB|].
    apply quot_value_nonneg; lia. }
  destruct (Z.ltb_spec hr1 r) as [H1|H1]; destruct (Z.ltb_spec hr2 r) as [H2|H2];
    try lia.
  - intros X1 X2. inversion X1; inversion X2; subst. lia.
  - intros X1 X2. inversion X1; subst. inversion X2 as [E2].
    destruct (Hval hr2 n2 H2 E2) as (Bv & HB & Hv).
    rewrite (Hv hr2 n2 E2). split; [lia|]. apply Hnn; assumption.
  - intros X1 X2. inversion X1 as [E1]. inversion X2 as [E2].
    destruct (Hval hr1 n1 H1 E1) as (Bv & HB & Hv).
    rewrite (Hv hr1 n1 E1), (Hv hr2 n2 E2). split; [apply Hnn; assumption|].
    apply rnds_mono; [lia|]. apply RZs_mono; [lia|].
    apply Z.mul_le_mono_nonneg_l; [exact HB|].
    apply quot_value_mono; lia.
Qed.

Lemma calculate_wattage_returns self hr weight :
  max_hr self <> resting_hr self ->
  sane_int (resting_hr self) -> sane_int (max_hr self) -> sane_int hr -> sane weight ->
  exists n, calculate_wattage hr weight self = (Ok n, self).
Proof.
  intros Hne Sr Sm Sh Sw. rewrite calculate_wattage_unfold.
  destruct (wattage_formula_returns _ _ hr weight Sr Sm Sh Hne Sw) as (a & ->).
  destruct (hr <? resting_hr self); eauto.
Qed.

(** X8.  For a profile with [resting_hr < max_hr] and a weight that is
    not negative, the wattage estimate is never negative and never
    decreases when the heart rate increases. *)
Theorem calculate_wattage_monotone self hr1 hr2 weight :
  resting_hr self < max_hr self -> nonneg weight -> hr1 <= hr2 ->
  (forall n1 n2,
     calculate_wattage hr1 weight self = (Ok n1, self) ->
     calculate_wattage hr2 weight self = (Ok n2, self) ->
     0 <= n1 <= n2) /\
  (sane_int (resting_hr self) -> sane_int (max_hr self) ->
   sane_int hr1 -> sane_int hr2 -> sane weight ->
   exists n1 n2,
     calculate_wattage hr1 weight self = (Ok n1, self) /\
     calculate_wattage hr2 weight self = (Ok n2, self)).
Proof.
  intros Hrm Hw Hle. split.
  - intros n1 n2. apply wattage_order; assumption.
  - intros Sr Sm S1 S2 Sw.
    destruct (calculate_wattage_returns self hr1 weight ltac:(lia) Sr Sm S1 Sw) as (a1 & E1).
    destruct (calculate_wattage_returns self hr2 weight ltac:(lia) Sr Sm S2 Sw) as (a2 & E2).
    eauto.
Qed.

Lemma calculate_wattage_monotone_witness :
  calculate_wattage 125 (Int 70) __init__ = (Ok 105, __init__) /\
  calculate_wattage 160 (Int 70) __init__ = (Ok 162, __init__) /\
  0 <= 105 <= 162.
Proof.
  split; [vm_compute; reflexivity|]. split; [vm_compute; reflexivity|].
  apply (calculate_wattage_monotone __init__ 125 160 (Int 70)).
  - simpl. lia.
  - simpl. lia.
  - lia.
  - vm_compute. reflexivity.
  - vm_compute. reflexivity.
Defined.

(** ** The ends of the reserve *)

Lemma truediv_zero b : b <> 0 -> exists s, truediv (Int 0) (Int b) = Ok (S754_zero s).
Proof.
  intros Hb. unfold truediv. destruct (Z.eqb_spec b 0); [contradiction|].
  destruct b; [contradiction| |]; simpl; eauto.
Qed.

Lemma fmul_zero_r a s : good a -> exists s', fmul a (S754_zero s) = S754_zero s'.
Proof. destruct a; simpl; intros; try contradiction; eauto. Qed.

Lemma fmul_zero_l b s : good b -> exists s', fmul (S754_zero s) b = S754_zero s'.
Proof. destruct b; simpl; intros; try contradiction; eauto. Qed.

(** A product with a zero float is zero, for a factor of plausible size. *)
Lemma mul_zero_r x s j :
  num_within j x -> 0 <= j -> j <= 1023 ->
  exists s', mul x (Float (S754_zero s)) = Ok (Float (S754_zero s')).
Proof.
  intros Hx Hj0 Hj.
  destruct (to_float_within x j Hx Hj0 Hj) as (a & Ea & [Ga _]).
  destruct (fmul_zero_r a s Ga) as (s' & E).
  exists s'. destruct x as [z|f]; unfold mul; rewrite Ea; run_res; simpl to_float;
    run_res; rewrite E; reflexivity.
Qed.

Lemma good_bound f k : good f -> k <= -1074 -> Z.abs (sval k f) < 2 ^ (1024 - k).
Proof.
  intros G Hk. pose proof (pow2_pos (1024 - k) ltac:(lia)) as Hp.
  destruct f as [s|s| |s m e]; try contradiction; try (simpl; lia).
  destruct G as [Hc He]. rewrite sval_finite.
  pose proof (Zdigits2_spec (Zpos m) ltac:(lia)) as [_ Hhi].
  pose proof (Zdigits2_pos (Zpos m) ltac:(lia)) as Hd.
  pose proof (pow2_pos (e - k) ltac:(unfold fexp64 in Hc; lia)) as Hq.
  assert (Zpos m * 2 ^ (e - k) < 2 ^ (1024 - k)) as Hlt.
  { apply Z.lt_le_trans with (2 ^ Zdigits2 (Zpos m) * 2 ^ (e - k)).
    - apply Z.mul_lt_mono_pos_r; assumption.
    - rewrite <- Z.pow_add_r by (unfold fexp64 in Hc; lia).
      apply pow2_le; unfold fexp64 in Hc; lia. }
  destruct s; simpl cond_Zopp; [rewrite Z.abs_opp|]; rewrite Z.abs_eq; nia.
Qed.

Lemma RZ_abs_exact f k :
  good f -> k <= -1074 -> RZ (-1074 - k) (Z.abs (sval k f)) = Z.abs (sval k f).
Proof.
  intros G Hk. pose proof (good_exact f k G Hk) as H. unfold RZs in H.
  pose proof (RZ_nonneg (-1074 - k) (Z.abs (sval k f)) ltac:(lia) (Z.abs_nonneg _)).
  destruct (Z.sgn_spec (sval k f)) as [[? E]|[[E0 E]|[? E]]]; rewrite E in H.
  - rewrite Z.abs_eq in * by lia. lia.
  - rewrite <- E0. simpl. apply RZ_0. lia.
  - rewrite Z.abs_neq in * by lia. lia.
Qed.

(** [fmul] is finite when the rounded product is in range. *)
Lemma fmul_finite a b ka kb :
  good a -> good b -> scaled ka a -> scaled kb b -> ka + kb <= -1074 ->
  RZ (-1074 - (ka + kb)) (Z.abs (sval ka a * sval kb b)) < 2 ^ (1024 - (ka + kb)) ->
  is_inf (fmul a b) = false.
Proof.
  intros Ga Gb Sa Sb Hk.
  destruct a as [sa|sa| |sa ma ea]; try contradiction;
    destruct b as [sb|sb| |sb mb eb]; try contradiction; try reflexivity.
  unfold fmul, SFmul, prec, emax. simpl in Sa, Sb.
  pose proof (product_precise ma ea mb eb) as Hpre.
  pose proof (round_exact (xorb sa sb) (Zpos (ma * mb)) (ea + eb) (ka + kb)
                ltac:(lia) (Hpre Ga Gb) Hk ltac:(lia)) as [Hfin _].
  cbv zeta in Hfin. intros Hlt. apply good_not_inf. apply Hfin.
  rewrite !sval_finite, cond_Zopp_mul in Hlt.
  pose proof (pow2_pos (ea - ka) ltac:(lia)). pose proof (pow2_pos (eb - kb) ltac:(lia)).
  replace (Z.abs (cond_Zopp (xorb sa sb)
                    (Zpos ma * 2 ^ (ea - ka) * (Zpos mb * 2 ^ (eb - kb)))))
    with (Zpos (ma * mb) * 2 ^ (ea + eb - (ka + kb))) in Hlt; [exact Hlt|].
  replace (ea + eb - (ka + kb)) with ((ea - ka) + (eb - kb)) by lia.
  rewrite Z.pow_add_r, Pos2Z.inj_mul by lia.
  destruct (xorb sa sb); simpl cond_Zopp; [rewrite Z.abs_opp|]; rewrite Z.abs_eq; nia.
Qed.

(** [x * 1.0] rounds to the integer that [x] rounds to. *)
Lemma round_fmul_one B q :
  good B -> good q -> sval (-1076) q = 2 ^ 1076 ->
  round (Float (fmul B q)) = round (Float B).
Proof.
  intros GB Gq Vq.
  pose proof (good_scaled B (-1074) GB ltac:(lia)) as SB.
  pose proof (good_scaled q (-1076) Gq ltac:(lia)) as Sq.
  assert (sval (-1074) B * sval (-1076) q = sval (-2150) B) as Hprod.
  { rewrite Vq. rewrite (sval_scale B (-2150) (-1074)) by (assumption || lia).
    reflexivity. }
  assert (is_inf (fmul B q) = false) as Hi.
  { apply (fmul_finite B q (-1074) (-1076)); try assumption; try lia.
    rewrite Hprod. change (-1074 - (-1074 + -1076)) with (-1074 - -2150).
    rewrite RZ_abs_exact by (assumption || lia).
    apply (good_bound B (-2150)); [assumption | lia]. }
  destruct (fmul_value B q (-1074) (-1076) GB Gq SB Sq ltac:(lia) Hi) as [GP VP].
  rewrite (round_value _ (-1074 + -1076) GP) by lia.
  rewrite (round_value _ (-2150) GB) by lia.
  rewrite VP, Hprod. change (-1074 - (-1074 + -1076)) with (-1074 - -2150).
  rewrite good_exact by (assumption || lia). reflexivity.
Qed.

Lemma truediv_self b :
  0 < b -> exists q, truediv (Int b) (Int b) = Ok q /\ good q /\
                     sval (-1076) q = 2 ^ 1076.
Proof.
  intros Hb.
  destruct (truediv_part_within b b ltac:(lia) Hb) as (q & E & _).
  exists q. split; [exact E|].
  destruct (truediv_int_value b b q (-1076) ltac:(lia) E) as [G V].
  split; [exact G|]. rewrite V.
  replace b with (1 * b) at 1 by lia.
  rewrite quot_value_multiple by lia.
  change (-1074 - -1076) with 2. change (- -1076) with 1076.
  apply (RZs_int 2 1 1076); lia.
Qed.

Lemma mul_float_3 f :
  mul (Float f) (Int 3) = Ok (Float (fmul f (S754_finite false 6755399441055744 (-51)))).
Proof. reflexivity. Qed.

Lemma mul_float_float a b : mul (Float a) (Float b) = Ok (Float (fmul a b)).
Proof. reflexivity. Qed.

Lemma mul_int_int a b : mul (Int a) (Int b) = Ok (Int (a * b)).
Proof. reflexivity. Qed.

Lemma mul_int_float z q :
  mul (Int z) (Float q) =
  match float_of_int z with Ok a => Ok (Float (fmul a q)) | Raise e => Raise e end.
Proof. unfold mul, to_float. run_res. destruct (float_of_int z); reflexivity. Qed.

(** At the maximum heart rate the used part of the reserve is 1. *)
Lemma wattage_at_max self weight :
  resting_hr self < max_hr self ->
  match weight with Int w => Z.abs w < 2 ^ 51 | Float f => good f end ->
  calculate_wattage (max_hr self) weight self
  = (b ← mul weight (Int 3); round b, self).
Proof.
  intros Hrm Hw.
  rewrite calculate_wattage_unfold.
  destruct (Z.ltb_spec (max_hr self) (resting_hr self)); [lia|]. f_equal.
  unfold wattage_formula.
  destruct (truediv_self (max_hr self - resting_hr self) ltac:(lia))
    as (q & -> & Gq & Vq).
  run_res.
  destruct weight as [w|f].
  - rewrite mul_int_int. run_res. rewrite mul_int_float.
    destruct (float_of_int_within (w * 3) 53 ltac:(lia) ltac:(lia) ltac:(lia))
      as (B & EB & [GB _]).
    rewrite EB. rewrite (round_fmul_one B q GB Gq Vq).
    destruct (float_of_int_value (w * 3) B (-1074) ltac:(lia) EB) as [_ VB].
    rewrite (round_value B (-1074) GB) by lia. rewrite VB.
    change (-1074 - -1074) with 0. change (- -1074) with 1074.
    rewrite (RZs_int 0 (w * 3) 1074) by lia. rewrite rnds_int by lia.
    reflexivity.
  - rewrite mul_float_3. run_res. rewrite mul_float_float.
    assert (good (S754_finite false 6755399441055744 (-51))) as G3
      by (split; [reflexivity | lia]).
    destruct (fmul_good_or_inf f _ Hw G3) as [GP|(sP & EP)].
    + apply (round_fmul_one _ q GP Gq Vq).
    + rewrite EP. destruct q as [| | |sq mq eq]; try contradiction;
        try (unfold sval in Vq; lia). reflexivity.
Qed.

(** X9.  At the resting heart rate the estimate is 0 for every weight
    of plausible size; at the maximum heart rate it is [weight * 3]
    rounded, so exactly 3 W per kg for an integer weight. *)
Theorem calculate_wattage_endpoints self :
  resting_hr self < max_hr self ->
  (forall weight, sane weight ->
     calculate_wattage (resting_hr self) weight self = (Ok 0, self)) /\
  (forall weight,
     match weight with Int w => Z.abs w < 2 ^ 51 | Float f => good f end ->
     calculate_wattage (max_hr self) weight self
     = (b ← mul weight (Int 3); round b, self)) /\
  (forall w, Z.abs w < 2 ^ 51 ->
     calculate_wattage (max_hr self) (Int w) self = (Ok (3 * w), self)).
Proof.
  intros Hrm.
  pose proof (fun weight => wattage_at_max self weight Hrm) as Hmax.
  split; [|split; [exact Hmax|]].
  - intros weight Hw. rewrite calculate_wattage_unfold.
    destruct (Z.ltb_spec (resting_hr self) (resting_hr self)); [lia|]. f_equal.
    unfold wattage_formula. rewrite Z.sub_diag.
    destruct (truediv_zero (max_hr self - resting_hr self) ltac:(lia)) as (s & ->).
    run_res.
    destruct (mul_within weight (Int 3) 64 2 Hw) as (b & -> & Wb); try lia.
    { simpl. lia. }
    run_res.
    destruct (mul_zero_r b s _ Wb ltac:(lia) ltac:(lia)) as (s' & ->).
    reflexivity.
  - intros w Hw. rewrite (Hmax (Int w) Hw). rewrite mul_int_int. run_res.
    unfold round. do 2 f_equal. lia.
Qed.

Lemma calculate_wattage_endpoints_witness :
  calculate_wattage 190 (Int 70) __init__ = (Ok (3 * 70), __init__).
Proof.
  apply (calculate_wattage_endpoints __init__); simpl; lia.
Defined.

(** X10.  Between the resting and the maximum heart rate the estimate
    for an integer weight that is not negative lies between 0 and
    3 W per kg. *)
Theorem calculate_wattage_range self hr w :
  resting_hr self < max_hr self ->
  sane_int (resting_hr self) -> sane_int (max_hr self) ->
  0 <= w < 2 ^ 51 -> resting_hr self <= hr <= max_hr self ->
  exists n, calculate_wattage hr (Int w) self = (Ok n, self) /\ 0 <= n <= 3 * w.
Proof.
  intros Hrm Sr Sm Hw Hhr.
  assert (sane_int hr) as Sh by (unfold sane_int in *; lia).
  assert (sane (Int w)) as Sw.
  { unfold sane, num_within.
    pose proof (pow2_le 51 64 ltac:(lia) ltac:(lia)). lia. }
  destruct (calculate_wattage_returns self hr (Int w) ltac:(lia) Sr Sm Sh Sw) as (n & E).
  exists n. split; [exact E|].
  assert (calculate_wattage (max_hr self) (Int w) self = (Ok (3 * w), self)) as Emax.
  { rewrite (wattage_at_max self (Int w) Hrm) by (simpl; lia).
    rewrite mul_int_int. run_res. unfold round. do 2 f_equal. lia. }
  apply (wattage_order self hr (max_hr self) (Int w) n (3 * w) Hrm); try assumption.
  - simpl. lia.
  - lia.
Qed.

Lemma calculate_wattage_range_witness :
  exists n, calculate_wattage 150 (Int 70) __init__ = (Ok n, __init__) /\
            0 <= n <= 3 * 70.
Proof.
  apply (calculate_wattage_range __init__ 150 70).
  - simpl. lia.
  - vm_compute. reflexivity.
  - vm_compute. reflexivity.
  - lia.
  - simpl. lia.
Defined.

(** ** Percentages *)

Lemma mul_float_100 q :
  mul (Float q) (Int 100) = Ok (Float (fmul q (S754_finite false 7036874417766400 (-46)))).
Proof. reflexivity. Qed.

(** A percentage as one rounding of the quotient times 100. *)
Lemma percentage_value c t p :
  percentage c t = Ok p ->
  p = rnds (RZs 48 (quot_value (-1076) c t * 7036874417766400)) 1122.
Proof.
  unfold percentage.
  destruct (truediv (Int c) (Int t)) as [q|] eqn:Eq; [|discriminate].
  run_res. rewrite mul_float_100. run_res. intros Hr.
  destruct (truediv_int_value _ _ _ (-1076) ltac:(lia) Eq) as [Gq Vq].
  assert (good (S754_finite false 7036874417766400 (-46))) as G100
    by (split; [reflexivity | lia]).
  rewrite <- Vq.
  apply (round_fmul_value q _ (-1076) (-46) p Gq G100); try lia.
  - apply good_scaled; [exact Gq | lia].
  - simpl. lia.
  - exact Hr.
Qed.

Lemma percentage_mono c c' t p p' :
  0 < t -> c <= c' -> percentage c t = Ok p -> percentage c' t = Ok p' -> p <= p'.
Proof.
  intros Ht Hle E E'. rewrite (percentage_value _ _ _ E), (percentage_value _ _ _ E').
  apply rnds_mono; [lia|]. apply RZs_mono; [lia|].
  apply Z.mul_le_mono_nonneg_r; [lia|]. apply quot_value_mono; lia.
Qed.

Lemma percentage_zero t : t <> 0 -> percentage 0 t = Ok 0.
Proof.
  intros Ht. unfold percentage.
  destruct (truediv_zero t Ht) as (s & ->). run_res. rewrite mul_float_100.
  destruct s; reflexivity.
Qed.

Lemma percentage_full t : 0 < t -> percentage t t = Ok 100.
Proof.
  intros Ht.
  destruct (percentage_returns t t ltac:(lia) Ht) as (p & E).
  rewrite E. f_equal. rewrite (percentage_value _ _ _ E).
  replace t with (1 * t) at 1 by lia.
  rewrite quot_value_multiple by lia.
  change (-1074 - -1076) with 2. change (- -1076) with 1076.
  rewrite (RZs_int 2 1 1076) by lia.
  replace (1 * 2 ^ 1076 * 7036874417766400) with (100 * 2 ^ 1122)
    by (vm_compute; reflexivity).
  rewrite (RZs_int 48 100 1122) by lia. apply rnds_int. lia.
Qed.

Lemma percentage_range c t :
  0 <= c <= t -> 0 < t -> exists p, percentage c t = Ok p /\ 0 <= p <= 100.
Proof.
  intros Hc Ht. destruct (percentage_returns c t Hc Ht) as (p & E).
  exists p. split; [exact E|]. split.
  - apply (percentage_mono 0 c t 0 p Ht); [lia | apply percentage_zero; lia | exact E].
  - apply (percentage_mono c t t p 100 Ht); [lia | exact E | apply percentage_full; lia].
Qed.

Lemma calculate_zone_distribution_formula self l :
  wf self -> l <> [] ->
  calculate_zone_distribution l self = (distribution_formula self l, self).
Proof.
  intros Hwf Hne. destruct l as [|hr l]; [contradiction|].
  unfold calculate_zone_distribution, distribution_formula.
  set (l' := hr :: l). cbv zeta.
  change ((count_loop l' zero_counts ≫= ?f) self)
    with (match count_loop l' zero_counts self with
          | (Ok a, s') => f a s' | (Raise e, s') => (Raise e, s') end).
  unfold zero_counts. rewrite (count_loop_counts self Hwf).
  reflexivity.
Qed.

(** X11.  For a non-empty list of samples the dictionary has the keys
    0..5 in this order, every percentage lies between 0 and 100, and a
    zone with at least as many samples as another has at least its
    percentage. *)
Theorem calculate_zone_distribution_range self hr_samples :
  wf self -> hr_samples <> [] ->
  exists d,
    calculate_zone_distribution hr_samples self = (Ok d, self) /\
    map fst d = [0; 1; 2; 3; 4; 5] /\
    (forall z p, dict_get d z = Ok p -> 0 <= p <= 100) /\
    (forall z z' p p',
       dict_get d z = Ok p -> dict_get d z' = Ok p' ->
       zone_count self hr_samples z <= zone_count self hr_samples z' ->
       p <= p').
Proof.
  intros Hwf Hne. rewrite (calculate_zone_distribution_formula self _ Hwf Hne).
  unfold distribution_formula. cbv zeta.
  assert (0 < Z.of_nat (length hr_samples)) as Hl
    by (destruct hr_samples; [contradiction | simpl; lia]).
  set (n := Z.of_nat (length hr_samples)) in *.
  destruct (percentage_range _ n (zone_count_range self hr_samples 0) Hl) as (p0 & E0 & R0).
  destruct (percentage_range _ n (zone_count_range self hr_samples 1) Hl) as (p1 & E1 & R1).
  destruct (percentage_range _ n (zone_count_range self hr_samples 2) Hl) as (p2 & E2 & R2).
  destruct (percentage_range _ n (zone_count_range self hr_samples 3) Hl) as (p3 & E3 & R3).
  destruct (percentage_range _ n (zone_count_range self hr_samples 4) Hl) as (p4 & E4 & R4).
  destruct (percentage_range _ n (zone_count_range self hr_samples 5) Hl) as (p5 & E5 & R5).
  rewrite E0, E1, E2, E3, E4, E5. run_res.
  eexists. split; [reflexivity|]. split; [reflexivity|].
  assert (forall z p,
            dict_get [(0, p0); (1, p1); (2, p2); (3, p3); (4, p4); (5, p5)] z = Ok p ->
            percentage (zone_count self hr_samples z) n = Ok p) as Hget.
  { intros z p. cbn [dict_get].
    repeat match goal with
           | |- context [?k =? z] => destruct (Z.eqb_spec k z) as [<-|?]
           end; intros X; inversion X; subst; assumption. }
  split.
  - intros z p Hz. apply Hget in Hz.
    destruct (percentage_range _ n (zone_count_range self hr_samples z) Hl)
      as (p' & E' & R'). congruence.
  - intros z z' p p' Hz Hz' Hle. apply Hget in Hz, Hz'.
    exact (percentage_mono _ _ n p p' Hl Hle Hz Hz').
Qed.

Lemma calculate_zone_distribution_range_witness :
  exists d,
    calculate_zone_distribution [120; 150; 150; 180] __init__ = (Ok d, __init__) /\
    map fst d = [0; 1; 2; 3; 4; 5].
Proof.
  destruct (calculate_zone_distribution_range __init__ [120; 150; 150; 180])
    as (d & E & K & _).
  - left. reflexivity.
  - discriminate.
  - exists d. split; assumption.
Defined.

Lemma zone_count_single self l z :
  (forall hr, In hr l -> fst (get_zone hr self) = Ok z) ->
  forall z', zone_count self l z' = if z =? z' then Z.of_nat (length l) else 0.
Proof.
  intros Hall z'. induction l as [|hr l IH].
  - unfold zone_count. simpl. destruct (z =? z'); reflexivity.
  - assert (get_zone hr self = (Ok z, self)) as E.
    { pose proof (Hall hr (or_introl eq_refl)) as H1.
      pose proof (get_zone_frame hr self) as H2.
      destruct (get_zone hr self) as [a b]. simpl in *. subst. reflexivity. }
    rewrite (zone_count_cons self hr l z' z E).
    rewrite IH by (intros hr' Hin; apply Hall; right; exact Hin).
    destruct (z =? z'); simpl length; lia.
Qed.

(** X12.  When [get_zone] puts every sample in the same zone, that zone
    gets 100 and the others 0; on an engine without a zone table this
    is zone 0, whatever the samples. *)
Theorem calculate_zone_distribution_single self hr_samples :
  wf self -> hr_samples <> [] ->
  (forall z,
     (forall hr, In hr hr_samples -> fst (get_zone hr self) = Ok z) ->
     calculate_zone_distribution hr_samples self =
     (Ok [(0, if z =? 0 then 100 else 0); (1, if z =? 1 then 100 else 0);
          (2, if z =? 2 then 100 else 0); (3, if z =? 3 then 100 else 0);
          (4, if z =? 4 then 100 else 0); (5, if z =? 5 then 100 else 0)], self)) /\
  (zones self = ∅ ->
     calculate_zone_distribution hr_samples self =
     (Ok [(0, 100); (1, 0); (2, 0); (3, 0); (4, 0); (5, 0)], self)).
Proof.
  intros Hwf Hne.
  assert (0 < Z.of_nat (length hr_samples)) as Hl
    by (destruct hr_samples; [contradiction | simpl; lia]).
  assert (forall z,
     (forall hr, In hr hr_samples -> fst (get_zone hr self) = Ok z) ->
     calculate_zone_distribution hr_samples self =
     (Ok [(0, if z =? 0 then 100 else 0); (1, if z =? 1 then 100 else 0);
          (2, if z =? 2 then 100 else 0); (3, if z =? 3 then 100 else 0);
          (4, if z =? 4 then 100 else 0); (5, if z =? 5 then 100 else 0)], self)) as H1.
  { intros z Hall.
    rewrite (calculate_zone_distribution_formula self _ Hwf Hne).
    unfold distribution_formula. cbv zeta.
    rewrite !(zone_count_single self hr_samples z Hall).
    assert (forall z', percentage (if z =? z' then Z.of_nat (length hr_samples) else 0)
                         (Z.of_nat (length hr_samples))
                       = Ok (if z =? z' then 100 else 0)) as Hp.
    { intros z'. destruct (z =? z');
        [apply percentage_full; lia | apply percentage_zero; lia]. }
    rewrite !Hp. reflexivity. }
  split; [exact H1|].
  intros He. apply (H1 0). intros hr _. rewrite get_zone_empty by exact He. reflexivity.
Qed.

Lemma calculate_zone_distribution_single_witness :
  calculate_zone_distribution [120; 150; 150; 180] __init__ =
  (Ok [(0, 100); (1, 0); (2, 0); (3, 0); (4, 0); (5, 0)], __init__).
Proof.
  apply (calculate_zone_distribution_single __init__ [120; 150; 150; 180]).
  - left. reflexivity.
  - discriminate.
  - reflexivity.
Defined.

(** ** Division of a duration by 60 *)

Lemma qs_cancel N D c : 0 < D -> 0 < c -> qs (N * c) (D * c) = qs N D.
Proof.
  intros HD Hc. unfold qs.
  rewrite Z.div_mul_cancel_r by lia.
  rewrite Zmult_mod_distr_r.
  pose proof (Z.mod_pos_bound N D HD).
  destruct (Z.eqb_spec (N mod D) 0) as [E|E];
    destruct (Z.eqb_spec (N mod D * c) 0) as [E'|E']; try reflexivity; nia.
Qed.

Lemma fdiv_good_or_inf a sb mb eb :
  good a -> good (S754_finite sb mb eb) ->
  good (fdiv a (S754_finite sb mb eb)) \/
  exists s, fdiv a (S754_finite sb mb eb) = S754_infinity s.
Proof.
  intros Ga Gb. destruct a as [sa|sa| |sa ma ea]; try contradiction.
  - left. exact I.
  - pose proof (good_exponent _ Ga) as Ha. pose proof (good_exponent _ Gb) as Hb.
    destruct Gb as [_ Hb']. simpl in Ha, Hb.
    pose proof (fdiv_value sa ma ea sb mb eb (-2100) ltac:(lia) ltac:(lia)) as [Hf Hi].
    cbv zeta in Hf, Hi.
    destruct (Z.lt_ge_cases
                (RZ (-1074 - -2100) (qs (Zpos ma * 2 ^ (ea - eb - -2100 - 1)) (Zpos mb)))
                (2 ^ (1024 - -2100))) as [Hlt|Hge].
    + left. apply Hf. exact Hlt.
    + right. eexists. apply Hi. exact Hge.
Qed.

Lemma truediv_float_60 g :
  truediv (Float g) (Int 60) = Ok (fdiv g f60).
Proof. reflexivity. Qed.

Lemma good_f60 : good f60.
Proof. split; [reflexivity | lia]. Qed.

(** [d / 60] of a finite duration is finite, or an infinite float. *)
Lemma truediv_60_good d h :
  finite_num d -> truediv d (Int 60) = Ok h ->
  good h \/ exists s, h = S754_infinity s.
Proof.
  intros Hd E. destruct d as [z|g].
  - left. apply (truediv_int_value z 60 h (-1076) ltac:(lia) E).
  - rewrite truediv_float_60 in E. inversion E; subst.
    apply fdiv_good_or_inf; [exact Hd | exact good_f60].
Qed.

Lemma nonneg_float_sign s m e :
  0 <= sval (-1074) (S754_finite s m e) -> good (S754_finite s m e) -> s = false.
Proof.
  intros Hv G. pose proof (good_exponent _ G) as He. simpl in He.
  rewrite sval_finite in Hv. pose proof (pow2_pos (e - -1074) ltac:(lia)).
  destruct s; [simpl in Hv; nia | reflexivity].
Qed.

(** The value of [d / 60] for a duration that is not negative. *)
Lemma truediv_60_value d h :
  nonneg d -> truediv d (Int 60) = Ok h -> is_inf h = false ->
  good h /\
  sval (-1200) h = RZ 126 (qs (num_value (-1246) d) 8444249301319680).
Proof.
  intros Hd E Hi. destruct d as [z|g].
  - simpl in Hd.
    destruct (truediv_int_value z 60 h (-1200) ltac:(lia) E) as [G V].
    split; [exact G|]. rewrite V. unfold quot_value, num_value.
    rewrite (Z.sgn_pos 60), (Z.abs_eq 60), (Z.abs_eq z) by lia.
    change (-1074 - -1200) with 126.
    replace (z * 2 ^ (- -1246)) with (z * 2 ^ (- -1200 - 1) * 2 ^ 47)
      by (rewrite <- Z.mul_assoc, <- Z.pow_add_r by lia; reflexivity).
    change 8444249301319680 with (60 * 2 ^ 47).
    rewrite qs_cancel by lia.
    destruct (Z.eq_dec z 0) as [->|Hz].
    + simpl. reflexivity.
    + rewrite Z.sgn_pos by lia. lia.
  - rewrite truediv_float_60 in E. inversion E; subst h. clear E.
    destruct Hd as [G Hv]. unfold num_value.
    destruct g as [s|s| |s m e]; try contradiction.
    + split; [exact I|]. reflexivity.
    + pose proof (nonneg_float_sign s m e Hv G) as ->.
      pose proof (good_exponent _ G) as He. simpl in He.
      unfold f60 in *.
      pose proof (fdiv_value false m e false 8444249301319680 (-47) (-1200)
                    ltac:(lia) ltac:(lia)) as [Hf Hinf].
      cbv zeta in Hf, Hinf.
      change (-1074 - -1200) with 126 in Hf, Hinf.
      replace (e - -47 - -1200 - 1) with (e - -1246) in Hf, Hinf by lia.
      destruct (Z.lt_ge_cases
                  (RZ 126 (qs (Zpos m * 2 ^ (e - -1246)) 8444249301319680))
                  (2 ^ (1024 - -1200))) as [Hlt|Hge].
      * destruct (Hf Hlt) as [Gh Vh]. split; [exact Gh|].
        rewrite Vh. reflexivity.
      * rewrite (Hinf Hge) in Hi. discriminate.
Qed.

Lemma truediv_60_mono d1 d2 h1 h2 :
  nonneg d1 -> nonneg d2 ->
  num_value (-1246) d1 <= num_value (-1246) d2 ->
  truediv d1 (Int 60) = Ok h1 -> truediv d2 (Int 60) = Ok h2 ->
  is_inf h1 = false -> is_inf h2 = false ->
  good h1 /\ good h2 /\ 0 <= sval (-1200) h1 <= sval (-1200) h2.
Proof.
  intros N1 N2 Hle E1 E2 I1 I2.
  destruct (truediv_60_value d1 h1 N1 E1 I1) as [G1 V1].
  destruct (truediv_60_value d2 h2 N2 E2 I2) as [G2 V2].
  split; [exact G1|]. split; [exact G2|]. rewrite V1, V2.
  assert (forall d, nonneg d -> 0 <= num_value (-1246) d) as Hnn.
  { intros [z|g]; simpl.
    - intros Hz. apply Z.mul_nonneg_nonneg; [lia | apply Z.pow_nonneg; lia].
    - intros [G Hv]. rewrite (sval_scale g (-1246) (-1074)); [|apply good_scaled; [exact G|lia]|lia].
      apply Z.mul_nonneg_nonneg; [exact Hv | apply Z.pow_nonneg; lia]. }
  pose proof (Hnn d1 N1). pose proof (Hnn d2 N2).
  split.
  - apply RZ_nonneg; [lia|]. apply qs_nonneg; lia.
  - apply RZ_mono; [lia|]. split; [apply qs_nonneg; lia | apply qs_mono; lia].
Qed.

(** ** The recovery time *)

Lemma recovery_multiplier_value p :
  exists kf, recovery_multiplier p = Ok (Float kf) /\ good kf /\
             0 < sval (-1074) kf.
Proof.
  unfold recovery_multiplier.
  destruct (flt p f0_6); [|destruct (flt p f0_75); [|destruct (flt p f0_85)]];
    (eexists; split; [reflexivity|]; split;
     [vm_compute; split; [reflexivity | discriminate] | vm_compute; reflexivity]).
Qed.

Lemma mul_float_2 x :
  mul (Float x) (Int 2) = Ok (Float (fmul x (S754_finite false 4503599627370496 (-51)))).
Proof. reflexivity. Qed.

(** The steps of [calculate_recovery_time], once it returns. *)
Lemma recovery_formula_shape r m d a t :
  recovery_formula r m d a = Ok t ->
  exists p h kf n,
    truediv (Int (a - r)) (Int (m - r)) = Ok p /\
    truediv d (Int 60) = Ok h /\
    recovery_multiplier p = Ok (Float kf) /\
    round (Float (fmul (fmul h kf) (S754_finite false 4503599627370496 (-51)))) = Ok n /\
    truediv (Int n) (Int 2) = Ok t.
Proof.
  unfold recovery_formula.
  destruct (truediv (Int (a - r)) (Int (m - r))) as [p|] eqn:Ep; [|discriminate].
  run_res. cbv zeta.
  destruct (truediv d (Int 60)) as [h|] eqn:Eh; [|discriminate].
  run_res.
  destruct (recovery_multiplier_value p) as (kf & Ek & _).
  unfold recovery_multiplier in Ek. rewrite Ek. run_res.
  rewrite mul_float_float. run_res. rewrite mul_float_2. run_res.
  destruct (round _) as [n|] eqn:En; [|discriminate].
  intros Et. exists p, h, kf, n. unfold recovery_multiplier. auto.
Qed.

Lemma good_f2 : good (S754_finite false 4503599627370496 (-51)).
Proof. split; [reflexivity | lia]. Qed.

(** The rounded number of half hours, from the value of [d / 60]. *)
Lemma recovery_halves_value h kf n :
  good h \/ (exists s, h = S754_infinity s) -> good kf -> 0 < sval (-1074) kf ->
  round (Float (fmul (fmul h kf) (S754_finite false 4503599627370496 (-51)))) = Ok n ->
  good h /\ good (fmul (fmul h kf) (S754_finite false 4503599627370496 (-51))) /\
  n = rnds (RZs 1251 (RZs 1200 (sval (-1200) h * sval (-1074) kf) * 2 ^ 52)) 2325.
Proof.
  intros Hh Gk Hk Hr.
  assert (exists sk mk ek, kf = S754_finite sk mk ek) as (sk & mk & ek & Ekf).
  { destruct kf; try contradiction; try (simpl in Hk; lia). eauto. }
  destruct Hh as [Gh|(s & ->)].
  2:{ exfalso. rewrite Ekf in Hr. simpl in Hr. unfold round in Hr. discriminate. }
  destruct (fmul_good_or_inf h kf Gh Gk) as [Gx|(s & Ex)].
  2:{ exfalso. rewrite Ex in Hr. simpl in Hr. unfold round in Hr. discriminate. }
  pose proof (round_Ok_finite _ _ Hr) as Hi.
  pose proof (good_scaled h (-1200) Gh ltac:(lia)) as Sh.
  pose proof (good_scaled kf (-1074) Gk ltac:(lia)) as Sk.
  pose proof (good_scaled (fmul h kf) (-1200 + -1074) Gx ltac:(lia)) as Sx.
  destruct (fmul_value h kf (-1200) (-1074) Gh Gk Sh Sk ltac:(lia)
              (good_not_inf _ Gx)) as [_ Vx].
  destruct (fmul_value (fmul h kf) _ (-1200 + -1074) (-51) Gx good_f2 Sx
              ltac:(simpl; lia) ltac:(lia) Hi) as [Gy Vy].
  split; [exact Gh|]. split; [exact Gy|].
  rewrite (round_value _ (-1200 + -1074 + -51) Gy) in Hr by lia.
  inversion Hr. rewrite Vy, Vx. reflexivity.
Qed.

(** An integer that [round] returns is a binary64 number. *)
Lemma round_representable f n :
  good f -> round (Float f) = Ok n ->
  exists m j, 0 <= j /\ Z.abs n = m * 2 ^ j /\ 0 <= m < 2 ^ 53.
Proof.
  intros G. destruct f as [s|s| |s mm e]; try contradiction; unfold round.
  - intros X. inversion X. exists 0, 0. simpl. lia.
  - intros X. inversion X. clear X.
    destruct G as [Hc He].
    pose proof (Zdigits2_spec (Zpos mm) ltac:(lia)) as [_ Hhi].
    pose proof (Zdigits2_pos (Zpos mm) ltac:(lia)) as Hd.
    assert (Zpos mm < 2 ^ 53) as Hm.
    { pose proof (pow2_le (Zdigits2 (Zpos mm)) 53 ltac:(unfold fexp64 in Hc; lia)
                    ltac:(lia)). lia. }
    assert (0 <= rne mm e) as Hnn.
    { destruct e as [|p|p]; unfold rne.
      - simpl. lia.
      - pose proof (pow2_pos (Zpos p) ltac:(lia)). nia.
      - change (0 <= rnd (Zpos mm) (Zpos p)). apply rnd_nonneg; lia. }
    assert (Z.abs (cond_Zopp s (rne mm e)) = rne mm e) as ->
      by (destruct s; simpl cond_Zopp; lia).
    destruct e as [|p|p].
    + exists (Zpos mm), 0. unfold rne. simpl. lia.
    + exists (Zpos mm), (Zpos p). unfold rne. lia.
    + exists (rne mm (Zneg p)), 0. split; [lia|]. split; [simpl; lia|].
      split; [exact Hnn|].
      change (rnd (Zpos mm) (Zpos p) < 2 ^ 53).
      pose proof (rnd_range (Zpos mm) (Zpos p) ltac:(lia)) as Hr.
      assert (Zpos mm / 2 ^ Zpos p < 2 ^ 52) as Hq.
      { apply Z.div_lt_upper_bound; [apply pow2_pos; lia|].
        pose proof (pow2_le 1 (Zpos p) ltac:(lia) ltac:(lia)) as H1.
        change (2 ^ 1) with 2 in H1. change (2 ^ 53) with (2 * 2 ^ 52) in Hm. nia. }
      change (2 ^ 53) with (2 * 2 ^ 52). lia.
Qed.

(** Halving such an integer is exact. *)
Lemma truediv_half n t :
  (exists m j, 0 <= j /\ Z.abs n = m * 2 ^ j /\ 0 <= m < 2 ^ 53) ->
  truediv (Int n) (Int 2) = Ok t ->
  good t /\ 2 * sval (-1076) t = n * 2 ^ 1076.
Proof.
  intros (m & j & Hj & Hn & Hm) E.
  destruct (truediv_int_value n 2 t (-1076) ltac:(lia) E) as [G V].
  split; [exact G|]. rewrite V. unfold quot_value.
  change (Z.sgn 2) with 1. change (Z.abs 2) with 2.
  change (-1074 - -1076) with 2. change (- -1076 - 1) with 1075.
  replace (Z.abs n * 2 ^ 1075) with (Z.abs n * 2 ^ 1074 * 2)
    by (change (2 ^ 1075) with (2 ^ 1074 * 2); ring).
  rewrite qs_exact by lia.
  replace (2 * (Z.abs n * 2 ^ 1074)) with (Z.abs n * 2 ^ 1075)
    by (change (2 ^ 1075) with (2 ^ 1074 * 2); ring).
  assert (RZ 2 (Z.abs n * 2 ^ 1075) = Z.abs n * 2 ^ 1075) as ->.
  { rewrite Hn. destruct (Z.eq_dec m 0) as [->|Hm0].
    - simpl. apply RZ_0. lia.
    - rewrite <- Z.mul_assoc, <- Z.pow_add_r by lia.
      apply RZ_exact; try lia.
      pose proof (Zdigits2_le m 53 ltac:(lia) ltac:(lia) ltac:(lia)). lia. }
  change (2 ^ 1076) with (2 * 2 ^ 1075).
  destruct (Z.sgn_spec n) as [[? ->]|[[? ->]|[? ->]]]; lia.
Qed.

(** X13.  The recovery time is a whole number of half hours: the float
    returned is exactly [n / 2] for the integer [n] that [round]
    produced, and [n] is not negative when the duration is not. *)
Theorem calculate_recovery_time_half_hours self workout_duration_minutes avg_hr t :
  finite_num workout_duration_minutes ->
  calculate_recovery_time workout_duration_minutes avg_hr self = (Ok t, self) ->
  exists n : Z,
    truediv (Int n) (Int 2) = Ok t /\ good t /\
    2 * sval (-1076) t = n * 2 ^ 1076 /\
    (nonneg workout_duration_minutes -> 0 <= n).
Proof.
  intros Hd E. rewrite calculate_recovery_time_unfold in E.
  pose proof (f_equal fst E) as E'. cbn [fst] in E'.
  destruct (recovery_formula_shape _ _ _ _ _ E') as (p & h & kf & n & Ep & Eh & Ek & En & Et).
  destruct (recovery_multiplier_value p) as (kf' & Ek' & Gk & Hk).
  rewrite Ek in Ek'. inversion Ek'. subst kf'.
  pose proof (truediv_60_good _ _ Hd Eh) as Hh.
  destruct (recovery_halves_value h kf n Hh Gk Hk En) as (Gh & Gy & Vn).
  exists n. split; [exact Et|].
  destruct (truediv_half n t (round_representable _ _ Gy En) Et) as [Gt Vt].
  split; [exact Gt|]. split; [exact Vt|].
  intros Hnn.
  destruct (truediv_60_value _ _ Hnn Eh (good_not_inf _ Gh)) as [_ Vh].
  rewrite Vn. replace 0 with (rnds (0 * 2 ^ 2325) 2325) at 1 by (rewrite rnds_int; lia).
  apply rnds_mono; [lia|]. rewrite Z.mul_0_l.
  apply (RZs_sign 1251); [lia|]. apply Z.mul_nonneg_nonneg; [|lia].
  apply (RZs_sign 1200); [lia|]. apply Z.mul_nonneg_nonneg; [|lia].
  rewrite Vh. apply RZ_nonneg; [lia|]. apply qs_nonneg; [|lia].
  destruct workout_duration_minutes as [z|g]; simpl in *.
  - apply Z.mul_nonneg_nonneg; [lia | apply Z.pow_nonneg; lia].
  - destruct Hnn as [G Hv].
    rewrite (sval_scale g (-1246) (-1074)); [|apply good_scaled; [exact G|lia]|lia].
    apply Z.mul_nonneg_nonneg; [exact Hv | apply Z.pow_nonneg; lia].
Qed.

Lemma calculate_recovery_time_half_hours_witness :
  exists n : Z,
    truediv (Int n) (Int 2) = Ok (S754_finite false (2 ^ 52) (-52)) /\
    2 * sval (-1076) (S754_finite false (2 ^ 52) (-52)) = n * 2 ^ 1076.
Proof.
  destruct (calculate_recovery_time_half_hours __init__ (Int 60) 100
              (S754_finite false (2 ^ 52) (-52)))
    as (n & Hn & _ & Hv & _).
  - exact I.
  - vm_compute. reflexivity.
  - exists n. split; assumption.
Defined.

(** X14.  A longer workout never gets a shorter recovery time: for the
    same average heart rate the result does not decrease when the
    duration increases, and it is not negative for a duration that is
    not. *)
Theorem calculate_recovery_time_monotone self d1 d2 avg_hr t1 t2 :
  nonneg d1 -> nonneg d2 -> le_num d1 d2 ->
  calculate_recovery_time d1 avg_hr self = (Ok t1, self) ->
  calculate_recovery_time d2 avg_hr self = (Ok t2, self) ->
  le_num (Int 0) (Float t1) /\ le_num (Float t1) (Float t2).
Proof.
  intros N1 N2 Hle E1 E2.
  rewrite calculate_recovery_time_unfold in E1, E2.
  pose proof (f_equal fst E1) as E1'. pose proof (f_equal fst E2) as E2'.
  cbn [fst] in E1', E2'.
  destruct (recovery_formula_shape _ _ _ _ _ E1')
    as (p & h1 & kf & n1 & Ep & Eh1 & Ek & En1 & Et1).
  destruct (recovery_formula_shape _ _ _ _ _ E2')
    as (p' & h2 & kf' & n2 & Ep' & Eh2 & Ek' & En2 & Et2).
  rewrite Ep in Ep'. inversion Ep'. subst p'.
  rewrite Ek in Ek'. inversion Ek'. subst kf'.
  destruct (recovery_multiplier_value p) as (kf'' & Ek'' & Gk & Hk).
  rewrite Ek in Ek''. inversion Ek''. subst kf''.
  assert (forall d, nonneg d -> finite_num d) as Hfin
    by (intros [z|g]; simpl; tauto).
  destruct (recovery_halves_value h1 kf n1 (truediv_60_good _ _ (Hfin _ N1) Eh1) Gk Hk En1)
    as (Gh1 & Gy1 & Vn1).
  destruct (recovery_halves_value h2 kf n2 (truediv_60_good _ _ (Hfin _ N2) Eh2) Gk Hk En2)
    as (Gh2 & Gy2 & Vn2).
  destruct (truediv_60_mono d1 d2 h1 h2 N1 N2 Hle Eh1 Eh2
              (good_not_inf _ Gh1) (good_not_inf _ Gh2)) as (_ & _ & H0 & H12).
  destruct (truediv_half n1 t1 (round_representable _ _ Gy1 En1) Et1) as [Gt1 Vt1].
  destruct (truediv_half n2 t2 (round_representable _ _ Gy2 En2) Et2) as [Gt2 Vt2].
  assert (0 <= n1 <= n2) as Hn.
  { rewrite Vn1, Vn2. split.
    - replace 0 with (rnds (0 * 2 ^ 2325) 2325) at 1 by (rewrite rnds_int; lia).
      apply rnds_mono; [lia|]. rewrite Z.mul_0_l.
      apply (RZs_sign 1251); [lia|]. apply Z.mul_nonneg_nonneg; [|lia].
      apply (RZs_sign 1200); [lia|]. apply Z.mul_nonneg_nonneg; lia.
    - apply rnds_mono; [lia|]. apply RZs_mono; [lia|].
      apply Z.mul_le_mono_nonneg_r; [lia|]. apply RZs_mono; [lia|].
      apply Z.mul_le_mono_nonneg_r; lia. }
  unfold le_num, num_value.
  rewrite (sval_scale t1 (-1246) (-1076)); [|apply good_scaled; [exact Gt1|lia]|lia].
  rewrite (sval_scale t2 (-1246) (-1076)); [|apply good_scaled; [exact Gt2|lia]|lia].
  pose proof (pow2_pos (-1076 - -1246) ltac:(lia)) as Hp.
  pose proof (pow2_pos 1076 ltac:(lia)) as Hp'.
  split; [rewrite Z.mul_0_l|]; nia.
Qed.

Lemma calculate_recovery_time_monotone_witness :
  le_num (Int 0) (Float (S754_finite false (2 ^ 52) (-52))) /\
  le_num (Float (S754_finite false (2 ^ 52) (-52)))
         (Float (S754_finite false 4503599627370496 (-51))).
Proof.
  apply (calculate_recovery_time_monotone __init__ (Int 60) (Int 90) 100).
  - simpl. lia.
  - simpl. lia.
  - unfold le_num, num_value. pose proof (pow2_pos (- -1246) ltac:(lia)). nia.
  - vm_compute. reflexivity.
  - vm_compute. reflexivity.
Defined.

(** ** Calories *)

Lemma to_float_nonneg x a :
  nonneg x -> to_float x = Ok a -> good a /\ 0 <= sval (-1074) a.
Proof.
  destruct x as [z|f]; simpl.
  - intros Hz E. exact (float_of_int_nonneg z a Hz E).
  - intros H E. inversion E; subst. exact H.
Qed.

(** A product of two numbers that are not negative is not negative. *)
Lemma mul_nonneg x y b B :
  nonneg x -> nonneg y -> mul x y = Ok b -> to_float b = Ok B ->
  is_inf B = false -> good B /\ 0 <= sval (-1074) B.
Proof.
  intros Hx Hy.
  assert (forall a c, to_float x = Ok a -> to_float y = Ok c ->
            is_inf (fmul a c) = false ->
            good (fmul a c) /\ 0 <= sval (-1074) (fmul a c)) as Hf.
  { intros a c Ea Ec Hi.
    destruct (to_float_nonneg x a Hx Ea) as [Ga Va].
    destruct (to_float_nonneg y c Hy Ec) as [Gc Vc].
    destruct (fmul_value a c (-1074) (-1074) Ga Gc
                (good_scaled a (-1074) Ga ltac:(lia))
                (good_scaled c (-1074) Gc ltac:(lia)) ltac:(lia) Hi) as [G V].
    split; [exact G|].
    rewrite (sval_scale _ (-1074 + -1074) (-1074)) in V;
      [|apply good_scaled; [exact G | lia] | lia].
    assert (0 <= RZs (-1074 - (-1074 + -1074)) (sval (-1074) a * sval (-1074) c)) as Hnn
      by (apply RZs_sign; [lia | apply Z.mul_nonneg_nonneg; assumption]).
    rewrite <- V in Hnn.
    pose proof (pow2_pos (-1074 - (-1074 + -1074)) ltac:(lia)). nia. }
  destruct x as [zx|fx], y as [zy|fy]; unfold mul.
  - intros X. inversion X; subst. simpl in *. intros E _.
    apply (float_of_int_nonneg (zx * zy)); [nia | exact E].
  - run_res. destruct (to_float (Int zx)) as [a|] eqn:Ea; [|discriminate].
    simpl to_float at 1. intros X. inversion X; subst. simpl to_float.
    intros Y. inversion Y; subst. apply Hf; reflexivity.
  - run_res. simpl to_float at 1.
    destruct (to_float (Int zy)) as [c|] eqn:Ec; [|discriminate].
    intros X. inversion X; subst. simpl to_float.
    intros Y. inversion Y; subst. apply Hf; reflexivity.
  - run_res. simpl to_float. intros X. inversion X; subst.
    intros Y. inversion Y; subst. apply Hf; reflexivity.
Qed.

Lemma met_nonneg (p : float) :
  nonneg
    (if flt p f0_5 then Int 2
     else if flt p f0_6 then Float f3_5
     else if flt p f0_7 then Int 5
     else if flt p f0_8 then Int 7
     else if flt p f0_9 then Int 10
     else Int 12).
Proof.
  repeat match goal with |- context [if ?b then _ else _] => destruct b end;
    simpl; try lia.
  split; [split; [reflexivity | lia] | vm_compute; discriminate].
Qed.

Lemma mul_to_float a h :
  mul a (Float h) =
  match to_float a with Ok A => Ok (Float (fmul A h)) | Raise e => Raise e end.
Proof.
  destruct a as [z|g].
  - apply mul_int_float.
  - reflexivity.
Qed.

Lemma fmul_inf_r a s n : round (Float (fmul a (S754_infinity s))) <> Ok n.
Proof. destruct a; unfold round; simpl; congruence. Qed.

(** The steps of [calculate_calories] for [hr >= resting_hr], once it
    returns. *)
Lemma calories_formula_shape m hr d w n :
  nonneg w -> nonneg d ->
  calories_formula m hr d w = Ok n ->
  exists A h,
    (forall d' n', calories_formula m hr d' w = Ok n' ->
       exists h', truediv d' (Int 60) = Ok h' /\
                  round (Float (fmul A h')) = Ok n') /\
    good A /\ 0 <= sval (-1074) A /\
    truediv d (Int 60) = Ok h /\ round (Float (fmul A h)) = Ok n.
Proof.
  intros Hw Hd. unfold calories_formula.
  destruct (truediv (Int hr) (Int m)) as [p|] eqn:Ep; [|discriminate].
  run_res. cbv zeta.
  destruct (mul _ w) as [a|] eqn:Ea; [|discriminate].
  run_res.
  destruct (truediv d (Int 60)) as [h|] eqn:Eh; [|discriminate].
  run_res. rewrite mul_to_float.
  destruct (to_float a) as [A|] eqn:EA; [|discriminate].
  intros Hr.
  destruct (is_inf A) eqn:Hi.
  { destruct A; try discriminate. exfalso. exact (fmul_inf_l _ _ _ Hr). }
  destruct (mul_nonneg _ w a A (met_nonneg p) Hw Ea EA Hi) as [GA VA].
  exists A, h. split; [|auto].
  intros d' n'.
  destruct (truediv d' (Int 60)) as [h'|] eqn:Eh'; [|discriminate].
  run_res. rewrite mul_to_float, EA. eauto.
Qed.

(** X15.  For a weight that is not negative, more minutes never give
    fewer calories, and the estimate is never negative. *)
Theorem calculate_calories_monotone self hr d1 d2 weight n1 n2 :
  nonneg weight -> nonneg d1 -> nonneg d2 -> le_num d1 d2 ->
  calculate_calories hr d1 weight self = (Ok n1, self) ->
  calculate_calories hr d2 weight self = (Ok n2, self) ->
  0 <= n1 <= n2.
Proof.
  intros Hw N1 N2 Hle. rewrite !calculate_calories_unfold.
  destruct (hr <? resting_hr self).
  { intros X1 X2. inversion X1; inversion X2; subst. lia. }
  intros X1 X2.
  pose proof (f_equal fst X1) as E1. pose proof (f_equal fst X2) as E2.
  cbn [fst] in E1, E2.
  destruct (calories_formula_shape _ _ _ _ _ Hw N1 E1)
    as (A & h1 & Hall & GA & VA & Eh1 & Er1).
  destruct (Hall d2 n2 E2) as (h2 & Eh2 & Er2).
  assert (forall d, nonneg d -> finite_num d) as Hfin
    by (intros [z|g]; simpl; tauto).
  assert (forall d h n, nonneg d -> truediv d (Int 60) = Ok h ->
            round (Float (fmul A h)) = Ok n -> is_inf h = false) as Hh.
  { intros d h n Nd Eh Er.
    destruct (truediv_60_good d h (Hfin d Nd) Eh) as [G|(s & ->)];
      [apply good_not_inf; exact G|].
    exfalso. exact (fmul_inf_r _ _ _ Er). }
  destruct (truediv_60_mono d1 d2 h1 h2 N1 N2 Hle Eh1 Eh2
              (Hh _ _ _ N1 Eh1 Er1) (Hh _ _ _ N2 Eh2 Er2)) as (G1 & G2 & H0 & H12).
  pose proof (good_scaled A (-1074) GA ltac:(lia)) as SA.
  rewrite (round_fmul_value A h1 (-1074) (-1200) n1 GA G1 SA
             (good_scaled h1 (-1200) G1 ltac:(lia)) ltac:(lia) Er1).
  rewrite (round_fmul_value A h2 (-1074) (-1200) n2 GA G2 SA
             (good_scaled h2 (-1200) G2 ltac:(lia)) ltac:(lia) Er2).
  split.
  - replace 0 with (rnds (0 * 2 ^ (- (-1074 + -1200))) (- (-1074 + -1200))) at 1
      by (rewrite rnds_int; lia).
    apply rnds_mono; [lia|]. rewrite Z.mul_0_l.
    apply (RZs_sign (-1074 - (-1074 + -1200))); [lia|].
    apply Z.mul_nonneg_nonneg; lia.
  - apply rnds_mono; [lia|]. apply RZs_mono; [lia|].
    apply Z.mul_le_mono_nonneg_l; lia.
Qed.

Lemma calculate_calories_monotone_witness :
  calculate_calories 125 (Int 30) (Int 70) __init__ = (Ok 175, __init__) /\
  calculate_calories 125 (Int 60) (Int 70) __init__ = (Ok 350, __init__) /\
  0 <= 175 <= 350.
Proof.
  split; [vm_compute; reflexivity|]. split; [vm_compute; reflexivity|].
  apply (calculate_calories_monotone __init__ 125 (Int 30) (Int 60) (Int 70)).
  - simpl. lia.
  - simpl. lia.
  - simpl. lia.
  - unfold le_num, num_value. pose proof (pow2_pos (- -1246) ltac:(lia)). nia.
  - vm_compute. reflexivity.
  - vm_compute. reflexivity.
Defined.

(** ** A duration of zero *)

Lemma truediv_60_zero d :
  d = Int 0 \/ (exists s, d = Float (S754_zero s)) ->
  exists s', truediv d (Int 60) = Ok (S754_zero s').
Proof. intros [->|(s & ->)]; eexists; reflexivity. Qed.

(** X16.  With a duration of zero, [calculate_calories] returns 0 and
    [calculate_recovery_time] returns [0.0], for every heart rate and
    weight of plausible size. *)
Theorem zero_duration self hr weight d :
  d = Int 0 \/ (exists s, d = Float (S754_zero s)) ->
  sane_int (resting_hr self) -> sane_int (max_hr self) -> sane_int hr ->
  (max_hr self <> 0 -> sane weight ->
   calculate_calories hr d weight self = (Ok 0, self)) /\
  (max_hr self <> resting_hr self ->
   calculate_recovery_time d hr self = (Ok (S754_zero false), self)).
Proof.
  intros Hd Sr Sm Sh. destruct (truediv_60_zero d Hd) as (s & E60).
  unfold sane_int in *. split.
  - intros Hm Sw. unfold sane in Sw. rewrite calculate_calories_unfold.
    destruct (hr <? resting_hr self); [reflexivity|]. f_equal.
    unfold calories_formula.
    destruct (truediv_int_within hr (max_hr self) 64) as (p & -> & Wp); try lia.
    run_res.
    destruct (mul_within _ weight 4 64 (met_within p) Sw) as (a & -> & Wa); try lia.
    run_res. rewrite E60. run_res.
    destruct (mul_zero_r a s _ Wa ltac:(lia) ltac:(lia)) as (s' & ->).
    reflexivity.
  - intros Hne. rewrite calculate_recovery_time_unfold. f_equal.
    unfold recovery_formula.
    destruct (truediv_int_within (hr - resting_hr self) (max_hr self - resting_hr self) 65)
      as (p & -> & Wp); try lia.
    run_res. rewrite E60. run_res.
    destruct (recovery_multiplier_value p) as (kf & Ek & Gk & _).
    unfold recovery_multiplier in Ek. rewrite Ek. run_res.
    rewrite mul_float_float. run_res.
    destruct (fmul_zero_l kf s Gk) as (s1 & ->).
    rewrite mul_float_2. run_res.
    destruct (fmul_zero_l _ s1 good_f2) as (s2 & ->).
    reflexivity.
Qed.

Lemma zero_duration_witness :
  calculate_calories 125 (Int 0) (Int 70) __init__ = (Ok 0, __init__) /\
  calculate_recovery_time (Int 0) 125 __init__ = (Ok (S754_zero false), __init__).
Proof.
  destruct (zero_duration __init__ 125 (Int 70) (Int 0)) as [H1 H2].
  - left. reflexivity.
  - vm_compute. reflexivity.
  - vm_compute. reflexivity.
  - vm_compute. reflexivity.
  - split; [apply H1 | apply H2].
    + simpl. lia.
    + vm_compute. reflexivity.
    + simpl. lia.
Defined.

(** ** A profile without a reserve *)

(** X17.  [calculate_zones] accepts a maximum that is not above the
    resting heart rate; on the table it stores then, [get_zone] only
    ever returns 0 or 5: below the lower bound of zone 1 it is 0 and
    from there on 5. *)
Theorem get_zone_inverted_profile age r m self tbl self' hr :
  or_estimated age m <= r ->
  calculate_zones age r m self = (Ok tbl, self') ->
  exists z z1,
    get_zone hr self' = (Ok z, self') /\ tbl !! 1 = Some z1 /\
    (hr < zmin z1 -> z = 0) /\ (zmin z1 <= hr -> z = 5).
Proof.
  intros Hh E. apply calculate_zones_Ok in E. cbv zeta in E.
  destruct E as (x5 & x6 & x7 & x8 & x9 & H5 & H6 & H7 & H8 & H9 & -> & ->).
  destruct (bounds_ordered _ _ _ _ _ _ _ H5 H6 H7 H8 H9) as [_ Hdown].
  specialize (Hdown ltac:(lia)). destruct Hdown as (O1 & O2 & O3 & O4).
  rewrite get_zone_table.
  destruct (table_lookup x5 x6 x7 x8 x9 (or_estimated age m)) as (L1 & _).
  eexists _, _. split; [reflexivity|]. split; [exact L1|]. cbn [zmin].
  destruct (Z.ltb_spec hr x5); [split; [reflexivity | lia]|].
  destruct (Z.leb_spec hr (x6 - 1)); [lia|].
  destruct (Z.leb_spec hr (x7 - 1)); [lia|].
  destruct (Z.leb_spec hr (x8 - 1)); [lia|].
  destruct (Z.leb_spec hr (x9 - 1)); [lia|]. split; [lia | reflexivity].
Qed.

Lemma get_zone_inverted_profile_witness :
  exists z z1,
    get_zone 70 (snd (calculate_zones 30 100 (Some 50) __init__))
    = (Ok z, snd (calculate_zones 30 100 (Some 50) __init__)) /\
    fst (calculate_zones 30 100 (Some 50) __init__) = Ok (table 75 70 65 60 55 50) /\
    table 75 70 65 60 55 50 !! 1 = Some z1 /\
    (70 < zmin z1 -> z = 0).
Proof.
  destruct (get_zone_inverted_profile 30 100 (Some 50) __init__
              (table 75 70 65 60 55 50)
              (snd (calculate_zones 30 100 (Some 50) __init__)) 70)
    as (z & z1 & Hz & L & H0 & _).
  - simpl. lia.
  - vm_compute. reflexivity.
  - exists z, z1. split; [exact Hz|]. split; [vm_compute; reflexivity|].
    split; assumption.
Defined.

(** * Comparisons with the thresholds *)

(** ** [<] on floats *)

Lemma good_lt_exp s1 m1 e1 s2 m2 e2 k :
  good (S754_finite s1 m1 e1) -> good (S754_finite s2 m2 e2) ->
  e1 < e2 -> k <= -1074 ->
  Zpos m1 * 2 ^ (e1 - k) < Zpos m2 * 2 ^ (e2 - k).
Proof.
  intros [C1 _] [C2 _] Hlt Hk. unfold fexp64 in C1, C2.
  pose proof (Zdigits2_spec (Zpos m1) ltac:(lia)) as [_ H1].
  pose proof (Zdigits2_spec (Zpos m2) ltac:(lia)) as [H2 _].
  pose proof (Zdigits2_pos (Zpos m1) ltac:(lia)) as D1.
  assert (Zdigits2 (Zpos m2) = 53) as D2 by lia. rewrite D2 in H2.
  assert (Zpos m1 < 2 ^ 53) as B1.
  { pose proof (pow2_le (Zdigits2 (Zpos m1)) 53 ltac:(lia) ltac:(lia)). lia. }
  pose proof (pow2_pos (e1 - k) ltac:(lia)) as P1.
  pose proof (pow2_pos (e2 - k) ltac:(lia)) as P2.
  apply Z.lt_le_trans with (2 ^ 53 * 2 ^ (e1 - k)).
  - apply Z.mul_lt_mono_pos_r; assumption.
  - apply Z.le_trans with (2 ^ (53 - 1) * 2 ^ (e2 - k)).
    + rewrite <- !Z.pow_add_r by lia. apply pow2_le; lia.
    + apply Z.mul_le_mono_nonneg_r; lia.
Qed.

(** On canonical floats [<] is the order of the values. *)
Lemma flt_value a b k :
  good a -> good b -> k <= -1074 -> flt a b = (sval k a <? sval k b).
Proof.
  intros Ga Gb Hk.
  assert (forall s m e, good (S754_finite s m e) -> 0 < Zpos m * 2 ^ (e - k)) as Hpos.
  { intros s m e G. pose proof (good_exponent _ G) as He. simpl in He.
    pose proof (pow2_pos (e - k) ltac:(lia)). nia. }
  destruct a as [sa|sa| |sa ma ea]; try contradiction;
    destruct b as [sb|sb| |sb mb eb]; try contradiction;
    unfold flt, SFltb, SFcompare; rewrite ?sval_finite.
  - reflexivity.
  - pose proof (Hpos _ _ _ Gb). unfold sval.
    destruct sb; simpl cond_Zopp; symmetry;
      [apply Z.ltb_ge | apply Z.ltb_lt]; lia.
  - pose proof (Hpos _ _ _ Ga). unfold sval.
    destruct sa; simpl cond_Zopp; symmetry;
      [apply Z.ltb_lt | apply Z.ltb_ge]; lia.
  - pose proof (Hpos _ _ _ Ga) as Pa. pose proof (Hpos _ _ _ Gb) as Pb.
    assert (ea = eb -> (Zpos ma * 2 ^ (ea - k) ?= Zpos mb * 2 ^ (eb - k))
                       = Pos.compare_cont Eq ma mb) as Heq.
    { intros ->. pose proof (good_exponent _ Gb) as He. simpl in He.
      rewrite <- Zmult_compare_compat_r by (apply Z.lt_gt, pow2_pos; lia). reflexivity. }
    destruct sa, sb; simpl cond_Zopp.
    + destruct (Z.compare_spec ea eb) as [E|E|E].
      * specialize (Heq E). rewrite <- Heq. symmetry.
        destruct (Z.compare_spec (Zpos ma * 2 ^ (ea - k)) (Zpos mb * 2 ^ (eb - k)));
          simpl; [apply Z.ltb_ge | apply Z.ltb_ge | apply Z.ltb_lt]; lia.
      * pose proof (good_lt_exp _ _ _ _ _ _ k Ga Gb E Hk). symmetry. apply Z.ltb_ge. lia.
      * pose proof (good_lt_exp _ _ _ _ _ _ k Gb Ga ltac:(lia) Hk).
        symmetry. apply Z.ltb_lt. lia.
    + symmetry. apply Z.ltb_lt. lia.
    + symmetry. apply Z.ltb_ge. lia.
    + destruct (Z.compare_spec ea eb) as [E|E|E].
      * specialize (Heq E). rewrite <- Heq. symmetry.
        destruct (Z.compare_spec (Zpos ma * 2 ^ (ea - k)) (Zpos mb * 2 ^ (eb - k)));
          simpl; [apply Z.ltb_ge | apply Z.ltb_lt | apply Z.ltb_ge]; lia.
      * pose proof (good_lt_exp _ _ _ _ _ _ k Ga Gb E Hk). symmetry. apply Z.ltb_lt. lia.
      * pose proof (good_lt_exp _ _ _ _ _ _ k Gb Ga ltac:(lia) Hk).
        symmetry. apply Z.ltb_ge. lia.
Qed.

(** ** A quotient against a threshold *)

Lemma qs_mono_ratio N1 D1 N2 D2 :
  0 < D1 -> 0 < D2 -> N1 * D2 <= N2 * D1 -> qs N1 D1 <= qs N2 D2.
Proof.
  intros H1 H2 Hle. unfold qs.
  pose proof (Z.div_mod N1 D1 ltac:(lia)) as E1.
  pose proof (Z.div_mod N2 D2 ltac:(lia)) as E2.
  pose proof (Z.mod_pos_bound N1 D1 H1) as B1.
  pose proof (Z.mod_pos_bound N2 D2 H2) as B2.
  set (q1 := N1 / D1) in *. set (q2 := N2 / D2) in *.
  set (r1 := N1 mod D1) in *. set (r2 := N2 mod D2) in *.
  assert (q1 <= q2) as Hq.
  { destruct (Z.le_gt_cases q1 q2) as [|Hgt]; [assumption|]. exfalso.
    assert (q2 + 1 <= q1) as Hq by lia.
    assert (N2 * D1 < (q2 + 1) * D2 * D1) by nia.
    assert ((q2 + 1) * D2 * D1 <= q1 * D1 * D2) by nia.
    assert (q1 * D1 * D2 <= N1 * D2) by nia. lia. }
  destruct (Z.eqb_spec r1 0) as [Z1|Z1]; destruct (Z.eqb_spec r2 0) as [Z2|Z2]; try lia.
  destruct (Z.eq_dec q1 q2) as [E|E]; [|lia]. exfalso.
  assert (N1 * D2 > q1 * D1 * D2) by nia.
  assert (N2 * D1 = q1 * D2 * D1) by (rewrite E2, Z2, E; ring). nia.
Qed.

Lemma qs_below a b c j :
  0 <= a -> 0 < b -> 0 <= j -> a * 2 ^ j < c * b -> qs (a * 2 ^ j) b < 2 * c.
Proof.
  intros Ha Hb Hj Hlt. unfold qs.
  assert (a * 2 ^ j / b < c) as Hq by (apply Z.div_lt_upper_bound; lia).
  destruct (_ =? 0); lia.
Qed.

Lemma rnd_below_mid X q n :
  1 <= n -> 0 <= X -> X < q * 2 ^ n + 2 ^ (n - 1) -> rnd X n <= q.
Proof.
  intros Hn HX Hlt.
  pose proof (pow2_pos (n - 1) ltac:(lia)) as Hp.
  assert (2 ^ n = 2 * 2 ^ (n - 1)) as En.
  { replace n with (1 + (n - 1)) at 1 by lia. rewrite Z.pow_add_r by lia. reflexivity. }
  pose proof (Z.div_mod X (2 ^ n) ltac:(lia)) as E.
  pose proof (Z.mod_pos_bound X (2 ^ n) ltac:(lia)) as B.
  pose proof (rnd_range X n ltac:(lia)) as R.
  assert (X / 2 ^ n <= q) as Hq.
  { assert (X / 2 ^ n < q + 1); [|lia]. apply Z.div_lt_upper_bound; lia. }
  destruct (Z.eq_dec (X / 2 ^ n) q) as [Eq|Ne]; [|lia].
  unfold rnd. rewrite Eq in *.
  destruct (Z.compare_spec (2 * (X mod 2 ^ n)) (2 ^ n)); lia.
Qed.

(** A value below the midpoint under [c * 2^n] rounds below [c * 2^n]. *)
Lemma RZ_below K T c n :
  0 <= K <= n - 1 -> 0 <= T -> 2 ^ 52 <= c < 2 ^ 53 ->
  T < (2 * c - 1) * 2 ^ (n - 1) -> RZ K T < c * 2 ^ n.
Proof.
  intros HK HT Hc Hlt.
  pose proof (pow2_pos (n - 1) ltac:(lia)) as Hp.
  assert (2 ^ n = 2 * 2 ^ (n - 1)) as En.
  { replace n with (1 + (n - 1)) at 1 by lia. rewrite Z.pow_add_r by lia. reflexivity. }
  destruct (Z.eq_dec T 0) as [->|HT0].
  { rewrite RZ_0 by lia. nia. }
  assert (0 < T) as HTp by lia.
  pose proof (Zdigits2_spec T HTp) as [Dlo Dhi].
  pose proof (Zdigits2_pos T HTp) as Dp.
  set (d := Zdigits2 T) in *.
  assert (2 ^ (n + 53) = 2 ^ 54 * 2 ^ (n - 1)) as E53.
  { rewrite <- Z.pow_add_r by lia. f_equal. lia. }
  assert (2 ^ (n + 52) = 2 ^ 53 * 2 ^ (n - 1)) as E52.
  { rewrite <- Z.pow_add_r by lia. f_equal. lia. }
  assert (2 ^ (n + 51) = 2 ^ 52 * 2 ^ (n - 1)) as E51.
  { rewrite <- Z.pow_add_r by lia. f_equal. lia. }
  assert (d <= n + 53) as Hd.
  { apply Zdigits2_le; [lia | lia |]. rewrite E53.
    change (2 ^ 54) with (2 * 2 ^ 53). nia. }
  destruct (Z.eq_dec d (n + 53)) as [E|E].
  - unfold RZ. fold d. replace (Z.max (d - 53) K) with n by lia.
    assert (rnd T n <= c - 1) as Hr.
    { apply rnd_below_mid; [lia | lia |]. rewrite En. nia. }
    pose proof (pow2_pos n ltac:(lia)). nia.
  - destruct (Z.eq_dec d (n + 52)) as [E'|E'].
    + unfold RZ. fold d. replace (Z.max (d - 53) K) with (n - 1) by lia.
      assert (rnd T (n - 1) <= 2 * c - 1) as Hr
        by (apply rnd_le_bound; lia).
      rewrite En. nia.
    + assert (RZ K T <= 2 ^ (n + 51)) as Hr.
      { apply RZ_le_pow2; [lia | lia | | fold d; lia].
        pose proof (pow2_le d (n + 51) ltac:(lia) ltac:(lia)). lia. }
      rewrite E51 in Hr. rewrite En. nia.
Qed.

(** A quotient of integers against a threshold [P / Q] whose binary64
    value is [Mc * 2^-53]: the comparison of the floats is the
    comparison of the fractions. *)
Lemma flt_threshold a b P Q (Mc : positive) p :
  0 < b < 2 ^ 46 -> 0 < P -> 0 < Q ->
  2 ^ 52 <= Zpos Mc < 2 ^ 53 ->
  truediv (Int P) (Int Q) = Ok (S754_finite false Mc (-53)) ->
  0 <= P * 2 ^ 54 - (2 * Zpos Mc - 1) * Q <= 2 ^ 8 ->
  truediv (Int a) (Int b) = Ok p ->
  flt p (S754_finite false Mc (-53)) = (a * Q <? P * b).
Proof.
  intros Hb HP HQ HM EF Hd Ep.
  destruct (truediv_int_value a b p (-1076) ltac:(lia) Ep) as [Gp Vp].
  destruct (truediv_int_value P Q _ (-1076) ltac:(lia) EF) as [GF VF].
  rewrite (flt_value p _ (-1076) Gp GF) by lia.
  rewrite Vp.
  assert (sval (-1076) (S754_finite false Mc (-53)) = Zpos Mc * 2 ^ 1023) as VM
    by reflexivity.
  destruct (Z.ltb_spec (a * Q) (P * b)) as [Hlt|Hge].
  - apply Z.ltb_lt. rewrite VM.
    destruct (Z.le_gt_cases 0 a) as [Ha|Ha].
    + unfold quot_value.
      rewrite (Z.abs_eq a), (Z.abs_eq b), (Z.sgn_pos b) by lia.
      change (-1074 - -1076) with 2. change (- -1076 - 1) with 1075.
      assert (RZ 2 (qs (a * 2 ^ 1075) b) < Zpos Mc * 2 ^ 1023) as Hr.
      { apply RZ_below; [lia | apply qs_nonneg; [|lia] | lia |].
        - apply Z.mul_nonneg_nonneg; [lia | apply Z.pow_nonneg; lia].
        - replace ((2 * Zpos Mc - 1) * 2 ^ (1023 - 1)) with (2 * ((2 * Zpos Mc - 1) * 2 ^ 1021))
            by (change (2 ^ (1023 - 1)) with (2 * 2 ^ 1021); ring).
          apply qs_below; [lia | lia | lia |].
          change (2 ^ 1075) with (2 ^ 54 * 2 ^ 1021).
          assert (a * 2 ^ 54 < (2 * Zpos Mc - 1) * b) as Hk.
          { assert (a * 2 ^ 54 * Q < (2 * Zpos Mc - 1) * b * Q); [|nia].
            assert (a * Q + 1 <= P * b) as H1 by lia.
            assert (b * (P * 2 ^ 54 - (2 * Zpos Mc - 1) * Q) < 2 ^ 54) as H2.
            { apply Z.le_lt_trans with ((2 ^ 46 - 1) * 2 ^ 8); [|reflexivity].
              apply Z.mul_le_mono_nonneg; lia. }
            nia. }
          pose proof (pow2_pos 1021 ltac:(lia)). nia. }
      pose proof (RZ_nonneg 2 (qs (a * 2 ^ 1075) b) ltac:(lia)
                    ltac:(apply qs_nonneg; [apply Z.mul_nonneg_nonneg;
                            [lia | apply Z.pow_nonneg; lia] | lia])).
      destruct (Z.sgn_spec a) as [[? ->]|[[? ->]|[? ->]]]; lia.
    + assert (quot_value (-1076) a b <= quot_value (-1076) 0 b) as H0
        by (apply quot_value_mono; lia).
      unfold quot_value at 2 in H0. simpl in H0.
      pose proof (pow2_pos 1023 ltac:(lia)). nia.
  - apply Z.ltb_ge. rewrite VF. unfold quot_value.
    rewrite (Z.abs_eq b), (Z.sgn_pos b), (Z.abs_eq P), (Z.sgn_pos P),
      (Z.abs_eq Q), (Z.sgn_pos Q) by lia.
    assert (0 <= a) as Ha by nia.
    rewrite (Z.abs_eq a) by lia.
    assert (0 < a) as Ha' by nia.
    rewrite (Z.sgn_pos a) by lia. rewrite !Z.mul_1_l.
    pose proof (pow2_pos (- -1076 - 1) ltac:(lia)) as Hp.
    apply RZ_mono; [lia|]. split.
    + apply qs_nonneg; nia.
    + apply qs_mono_ratio; try lia; nia.
Qed.

Lemma more_fractions :
  f0_75 = S754_finite false 6755399441055744 (-53) /\
  f0_85 = S754_finite false 7656119366529843 (-53).
Proof. split; reflexivity. Qed.

(** X18.  For a stored maximum between 1 and [2^46], the MET value that
    [calculate_calories] picks with float comparisons is the one the
    exact fractions give: 2 below half of the maximum, 3.5 below 60%,
    5 below 70%, 7 below 80%, 10 below 90% and 12 from there on; the
    rounding of [hr / max_hr] never moves a heart rate into another
    band. *)
Theorem calculate_calories_bands self hr duration_minutes weight :
  0 < max_hr self < 2 ^ 46 -> sane_int hr ->
  calculate_calories hr duration_minutes weight self =
  (if hr <? resting_hr self then Ok 0
   else a ← mul (met_exact hr (max_hr self)) weight;
        h ← truediv duration_minutes (Int 60);
        x ← mul a (Float h);
        round x, self).
Proof.
  intros Hm Hhr. rewrite calculate_calories_unfold.
  destruct (hr <? resting_hr self); [reflexivity|]. f_equal.
  unfold calories_formula, sane_int in *.
  destruct (truediv_int_within hr (max_hr self) 64) as (p & Ep & _); try lia.
  rewrite Ep. run_res. cbv zeta.
  destruct fractions as (E5 & E6 & E7 & E8 & E9).
  assert (flt p f0_5 = (10 * hr <? 5 * max_hr self)) as ->.
  { rewrite E5, (Z.mul_comm 10 hr).
    apply (flt_threshold hr (max_hr self) 5 10); try lia; try reflexivity; exact Ep. }
  assert (flt p f0_6 = (10 * hr <? 6 * max_hr self)) as ->.
  { rewrite E6, (Z.mul_comm 10 hr).
    apply (flt_threshold hr (max_hr self) 6 10); try lia; try reflexivity; exact Ep. }
  assert (flt p f0_7 = (10 * hr <? 7 * max_hr self)) as ->.
  { rewrite E7, (Z.mul_comm 10 hr).
    apply (flt_threshold hr (max_hr self) 7 10); try lia; try reflexivity; exact Ep. }
  assert (flt p f0_8 = (10 * hr <? 8 * max_hr self)) as ->.
  { rewrite E8, (Z.mul_comm 10 hr).
    apply (flt_threshold hr (max_hr self) 8 10); try lia; try reflexivity; exact Ep. }
  assert (flt p f0_9 = (10 * hr <? 9 * max_hr self)) as ->.
  { rewrite E9, (Z.mul_comm 10 hr).
    apply (flt_threshold hr (max_hr self) 9 10); try lia; try reflexivity; exact Ep. }
  reflexivity.
Qed.

Lemma calculate_calories_bands_witness :
  calculate_calories 125 (Int 30) (Int 70) __init__ =
  (a ← mul (met_exact 125 190) (Int 70);
   h ← truediv (Int 30) (Int 60);
   x ← mul a (Float h);
   round x, __init__).
Proof.
  apply (calculate_calories_bands __init__ 125 (Int 30) (Int 70)).
  - simpl. lia.
  - vm_compute. reflexivity.
Defined.

(** X19.  For a reserve between 1 and [2^46], the recovery factor that
    [calculate_recovery_time] picks with float comparisons is the one
    the exact fractions give: 0.2 below 60% of the reserve, 0.3 below
    75%, 0.5 below 85% and 0.7 from there on; an average heart rate
    at or below the resting one gets 0.2. *)
Theorem calculate_recovery_time_bands self workout_duration_minutes avg_hr :
  0 < max_hr self - resting_hr self < 2 ^ 46 ->
  sane_int avg_hr -> sane_int (resting_hr self) ->
  calculate_recovery_time workout_duration_minutes avg_hr self =
  (base_recovery_hours ← truediv workout_duration_minutes (Int 60);
   k ← add (Int 1)
         (Float (recovery_factor_exact (resting_hr self) (max_hr self) avg_hr));
   a ← mul (Float base_recovery_hours) k;
   b ← mul a (Int 2);
   n ← round b;
   truediv (Int n) (Int 2), self) /\
  (avg_hr <= resting_hr self ->
   recovery_factor_exact (resting_hr self) (max_hr self) avg_hr = f0_2).
Proof.
  intros Hm Ha Hr. split.
  - rewrite calculate_recovery_time_unfold. f_equal.
    unfold recovery_formula, recovery_factor_exact, sane_int in *. cbv zeta.
    set (a := avg_hr - resting_hr self). set (b := max_hr self - resting_hr self) in *.
    destruct (truediv_int_within a b 65) as (p & Ep & _); try (unfold a; lia).
    rewrite Ep. run_res.
    destruct fractions as (_ & E6 & _). destruct more_fractions as (E75 & E85).
    assert (flt p f0_6 = (10 * a <? 6 * b)) as ->.
    { rewrite E6, (Z.mul_comm 10 a).
      apply (flt_threshold a b 6 10); try lia; try reflexivity; exact Ep. }
    assert (flt p f0_75 = (100 * a <? 75 * b)) as ->.
    { rewrite E75, (Z.mul_comm 100 a).
      apply (flt_threshold a b 75 100); try lia; try reflexivity; exact Ep. }
    assert (flt p f0_85 = (100 * a <? 85 * b)) as ->.
    { rewrite E85, (Z.mul_comm 100 a).
      apply (flt_threshold a b 85 100); try lia; try reflexivity; exact Ep. }
    reflexivity.
  - intros Hle. unfold recovery_factor_exact. cbv zeta.
    destruct (Z.ltb_spec (10 * (avg_hr - resting_hr self))
                (6 * (max_hr self - resting_hr self))); [reflexivity | lia].
Qed.

Lemma calculate_recovery_time_bands_witness :
  recovery_factor_exact 60 190 55 = f0_2.
Proof.
  apply (calculate_recovery_time_bands __init__ (Int 60) 55).
  - simpl. lia.
  - vm_compute. reflexivity.
  - vm_compute. reflexivity.
  - simpl. lia.
Defined.

(** * The width of the zones *)

(** Rounding moves a value by less than one unit of its grid. *)
Lemma RZ_error K X B :
  0 <= K -> 0 <= X -> X < 2 ^ B -> K <= B - 53 ->
  X - 2 ^ (B - 53) <= RZ K X <= X + 2 ^ (B - 53).
Proof.
  intros HK HX HB HKB.
  pose proof (pow2_pos (B - 53) ltac:(lia)) as HpB.
  destruct (Z.eq_dec X 0) as [->|Hnz]; [rewrite RZ_0 by lia; lia|].
  pose proof (Zdigits2_le X B ltac:(lia) ltac:(lia) HB) as Hd.
  unfold RZ. set (n := Z.max (Zdigits2 X - 53) K).
  assert (0 <= n <= B - 53) as Hn by (unfold n; lia).
  pose proof (pow2_pos n ltac:(lia)) as Hp.
  pose proof (pow2_le n (B - 53) ltac:(lia) ltac:(lia)) as Hle.
  pose proof (rnd_range X n ltac:(lia)) as R.
  pose proof (Z.div_mod X (2 ^ n) ltac:(lia)) as E.
  pose proof (Z.mod_pos_bound X (2 ^ n) Hp) as Bm.
  assert (X / 2 ^ n * 2 ^ n <= rnd X n * 2 ^ n) by (apply Z.mul_le_mono_nonneg_r; lia).
  assert (rnd X n * 2 ^ n <= (X / 2 ^ n + 1) * 2 ^ n)
    by (apply Z.mul_le_mono_nonneg_r; lia).
  lia.
Qed.

Lemma rnd_above_mid X c n :
  1 <= n -> c * 2 ^ n + 2 ^ (n - 1) < X -> c + 1 <= rnd X n.
Proof.
  intros Hn Hlt.
  pose proof (pow2_pos (n - 1) ltac:(lia)) as Hp.
  assert (2 ^ n = 2 * 2 ^ (n - 1)) as En.
  { replace n with (1 + (n - 1)) at 1 by lia. rewrite Z.pow_add_r by lia. reflexivity. }
  pose proof (Z.div_mod X (2 ^ n) ltac:(lia)) as E.
  pose proof (Z.mod_pos_bound X (2 ^ n) ltac:(lia)) as B.
  pose proof (rnd_range X n ltac:(lia)) as R.
  assert (c <= X / 2 ^ n) as Hq by (apply Z.div_le_lower_bound; lia).
  destruct (Z.eq_dec (X / 2 ^ n) c) as [Eq|Ne]; [|lia].
  unfold rnd. rewrite Eq in *.
  destruct (Z.compare_spec (2 * (X mod 2 ^ n)) (2 ^ n)); lia.
Qed.

(** Two values more than one unit apart round to different integers. *)
Lemma rnd_step X Y n : 1 <= n -> X + 2 ^ n + 1 <= Y -> rnd X n + 1 <= rnd Y n.
Proof.
  intros Hn Hle.
  pose proof (pow2_pos (n - 1) ltac:(lia)) as Hp.
  assert (2 ^ n = 2 * 2 ^ (n - 1)) as En.
  { replace n with (1 + (n - 1)) at 1 by lia. rewrite Z.pow_add_r by lia. reflexivity. }
  pose proof (Z.div_mod X (2 ^ n) ltac:(lia)) as E.
  pose proof (Z.mod_pos_bound X (2 ^ n) ltac:(lia)) as B.
  pose proof (rnd_range X n ltac:(lia)) as R.
  set (q := X / 2 ^ n) in *. set (rem := X mod 2 ^ n) in *.
  destruct (Z.lt_ge_cases (2 * rem) (2 ^ n)) as [Hlo|Hhi].
  - assert (rnd X n = q) as ->.
    { unfold rnd. fold q rem.
      destruct (Z.compare_spec (2 * rem) (2 ^ n)); lia. }
    apply rnd_ge_bound; [lia|]. lia.
  - assert (q + 1 + 1 <= rnd Y n); [|lia].
    apply rnd_above_mid; [lia|]. lia.
Qed.

(** With a reserve of 11 or more, neighbouring bounds are at least
    one apart. *)
Lemma bound_value_gap r h c1 c2 :
  0 <= r -> 11 <= h -> r + h < 2 ^ 31 ->
  2 ^ 52 <= c1 -> c2 < 2 ^ 53 -> c1 + 900719925474099 <= c2 ->
  bound_value r h c1 + 1 <= bound_value r h c2.
Proof.
  intros Hr Hh Hm Hc1 Hc2 Hgap. unfold bound_value.
  rewrite (RZs_int 0 h 1074) by lia.
  rewrite (RZs_int 53 r 1127) by lia.
  pose proof (pow2_pos 1074 ltac:(lia)) as P1074.
  pose proof (pow2_pos 1127 ltac:(lia)) as P1127.
  assert (forall c, 0 <= c -> RZs 53 (h * 2 ^ 1074 * c) = RZ 53 (h * 2 ^ 1074 * c)) as HPs.
  { intros c Hc. unfold RZs. destruct (Z.eq_dec c 0) as [->|Hcz].
    - rewrite Z.mul_0_r. simpl. rewrite RZ_0 by lia. reflexivity.
    - rewrite Z.sgn_pos, Z.abs_eq by nia. lia. }
  rewrite !HPs by lia.
  set (X1 := h * 2 ^ 1074 * c1). set (X2 := h * 2 ^ 1074 * c2).
  assert (0 <= X1 /\ 0 <= X2) as [HX1 HX2] by (unfold X1, X2; split; nia).
  assert (2 ^ 1158 = 2 ^ 31 * 2 ^ 1074 * 2 ^ 53) as E1158 by reflexivity.
  assert (X1 < 2 ^ 1158 /\ X2 < 2 ^ 1158) as [HB1 HB2].
  { rewrite E1158. unfold X1, X2. split.
    - apply Z.le_lt_trans with (h * 2 ^ 1074 * 2 ^ 53); [nia|].
      apply Z.mul_lt_mono_pos_r; [lia|]. nia.
    - apply Z.le_lt_trans with (h * 2 ^ 1074 * 2 ^ 53); [nia|].
      apply Z.mul_lt_mono_pos_r; [lia|]. nia. }
  pose proof (RZ_error 53 X1 1158 ltac:(lia) HX1 HB1 ltac:(lia)) as R1.
  pose proof (RZ_error 53 X2 1158 ltac:(lia) HX2 HB2 ltac:(lia)) as R2.
  change (1158 - 53) with 1105 in R1, R2.
  set (P1 := RZ 53 X1) in *. set (P2 := RZ 53 X2) in *.
  assert (0 <= P1 /\ 0 <= P2) as [HP1 HP2]
    by (split; apply RZ_nonneg; lia).
  assert (P1 <= h * 2 ^ 1127 /\ P2 <= h * 2 ^ 1127) as [HU1 HU2].
  { assert (forall c, 0 <= c <= 2 ^ 53 -> RZ 53 (h * 2 ^ 1074 * c) <= h * 2 ^ 1127) as HU.
    { intros c Hc.
      apply Z.le_trans with (RZ 53 (h * 2 ^ 1127)).
      - apply RZ_mono; [lia|]. split; [nia|].
        change (2 ^ 1127) with (2 ^ 1074 * 2 ^ 53). nia.
      - rewrite RZ_exact; try lia.
        pose proof (Zdigits2_le h 31 ltac:(lia) ltac:(lia) ltac:(lia)). lia. }
    split; apply HU; lia. }
  assert (forall P, 0 <= P <= h * 2 ^ 1127 ->
            RZs 53 (r * 2 ^ 1127 + P) = RZ 53 (r * 2 ^ 1127 + P) /\
            r * 2 ^ 1127 + P - 2 ^ 1106 <= RZ 53 (r * 2 ^ 1127 + P)
              <= r * 2 ^ 1127 + P + 2 ^ 1106) as HS.
  { intros P HP.
    assert (0 <= r * 2 ^ 1127 + P) as H0 by nia.
    split.
    - unfold RZs. destruct (Z.eq_dec (r * 2 ^ 1127 + P) 0) as [->|Hz].
      + simpl. rewrite RZ_0 by lia. reflexivity.
      + rewrite Z.sgn_pos, Z.abs_eq by lia. lia.
    - apply (RZ_error 53 _ 1159); lia. }
  destruct (HS P1 ltac:(lia)) as [-> S1]. destruct (HS P2 ltac:(lia)) as [-> S2].
  set (S1v := RZ 53 (r * 2 ^ 1127 + P1)) in *.
  set (S2v := RZ 53 (r * 2 ^ 1127 + P2)) in *.
  assert (0 <= S1v) as HS1 by (apply RZ_nonneg; nia).
  assert (S1v + 2 ^ 1127 + 1 <= S2v) as Hstep.
  { assert (X1 + 11 * 2 ^ 1074 * 900719925474099 <= X2) as HX.
    { unfold X1, X2.
      apply Z.le_trans with (h * 2 ^ 1074 * c1 + h * 2 ^ 1074 * 900719925474099); [nia|].
      rewrite <- Z.mul_add_distr_l. apply Z.mul_le_mono_nonneg_l; nia. }
    assert (2 ^ 1127 + 1 + 2 * 2 ^ 1105 + 2 * 2 ^ 1106 <= 11 * 2 ^ 1074 * 900719925474099)
      by (vm_compute; discriminate).
    lia. }
  assert (forall S, 0 <= S -> rnds S 1127 = rnd S 1127) as Hrs.
  { intros S HS0. unfold rnds. destruct (Z.eq_dec S 0) as [->|Hz].
    - simpl. unfold rnd. simpl. reflexivity.
    - rewrite Z.sgn_pos, Z.abs_eq by lia. lia. }
  rewrite !Hrs by lia.
  apply rnd_step; lia.
Qed.

(** With a reserve of exactly 10 the bounds are [r + 5], ..., [r + 9]. *)
Lemma bound_value_10 r :
  Z.abs r < 2 ^ 52 ->
  bound_value r 10 4503599627370496 = r + 5 /\
  bound_value r 10 5404319552844595 = r + 6 /\
  bound_value r 10 6305039478318694 = r + 7 /\
  bound_value r 10 7205759403792794 = r + 8 /\
  bound_value r 10 8106479329266893 = r + 9.
Proof.
  intros Hr.
  assert (forall mc j, 0 <= j <= 9 ->
            RZs 53 (RZs 0 (10 * 2 ^ 1074) * mc) = j * 2 ^ 1127 ->
            bound_value r 10 mc = r + j) as H.
  { intros mc j Hj E. unfold bound_value. rewrite E.
    rewrite (RZs_int 53 r 1127) by lia.
    rewrite <- Z.mul_add_distr_r.
    rewrite (RZs_int 53 (r + j) 1127) by lia.
    apply rnds_int. lia. }
  repeat split; apply H; try lia; vm_compute; reflexivity.
Qed.

(** X20.  With a reserve of 10 or more (and heart rates below [2^31])
    every zone of the table holds at least one heart rate; with a
    reserve of 9 a zone can be empty. *)
Theorem zones_nonempty :
  (forall age r m self tbl self',
     0 <= r -> r + 10 <= or_estimated age m -> or_estimated age m < 2 ^ 31 ->
     calculate_zones age r m self = (Ok tbl, self') ->
     forall i zi, 1 <= i <= 5 -> tbl !! i = Some zi -> zmin zi <= zmax zi) /\
  (exists tbl,
     fst (calculate_zones 30 1 (Some 10) __init__) = Ok tbl /\
     tbl !! 1 = Some (Zone 6 5)).
Proof.
  split.
  - intros age r m self tbl self' Hr Hh Hm E.
    apply calculate_zones_Ok in E. cbv zeta in E.
    destruct E as (x5 & x6 & x7 & x8 & x9 & H5 & H6 & H7 & H8 & H9 & -> & _).
    set (mx := or_estimated age m) in *.
    assert (x5 + 1 <= x6 /\ x6 + 1 <= x7 /\ x7 + 1 <= x8 /\ x8 + 1 <= x9 /\ x9 <= mx)
      as (G1 & G2 & G3 & G4 & G5).
    { destruct (bounds_between r (mx - r) x5 x9) as [_ Hhi]; try assumption; try lia.
      replace (r + (mx - r)) with mx in Hhi by lia.
      destruct fractions as (E5 & E6 & E7 & E8 & E9).
      rewrite E5 in H5. rewrite E6 in H6. rewrite E7 in H7.
      rewrite E8 in H8. rewrite E9 in H9.
      apply bound_is_value in H5; [|reflexivity].
      apply bound_is_value in H6; [|reflexivity].
      apply bound_is_value in H7; [|reflexivity].
      apply bound_is_value in H8; [|reflexivity].
      apply bound_is_value in H9; [|reflexivity].
      destruct (Z.eq_dec (mx - r) 10) as [E10|N10].
      - rewrite E10 in *.
        destruct (bound_value_10 r ltac:(lia)) as (B5 & B6 & B7 & B8 & B9).
        lia.
      - pose proof (bound_value_gap r (mx - r) 4503599627370496 5404319552844595
                      ltac:(lia) ltac:(lia) ltac:(lia) ltac:(lia) ltac:(lia) ltac:(lia)).
        pose proof (bound_value_gap r (mx - r) 5404319552844595 6305039478318694
                      ltac:(lia) ltac:(lia) ltac:(lia) ltac:(lia) ltac:(lia) ltac:(lia)).
        pose proof (bound_value_gap r (mx - r) 6305039478318694 7205759403792794
                      ltac:(lia) ltac:(lia) ltac:(lia) ltac:(lia) ltac:(lia) ltac:(lia)).
        pose proof (bound_value_gap r (mx - r) 7205759403792794 8106479329266893
                      ltac:(lia) ltac:(lia) ltac:(lia) ltac:(lia) ltac:(lia) ltac:(lia)).
        lia. }
    intros i zi Hi L. apply table_lookup_inv in L; [|lia].
    destruct L as [[_ ->] | [[_ ->] | [[_ ->] | [[_ ->] | [_ ->]]]]];
      cbn [zmin zmax]; lia.
  - eexists. split; [vm_compute; reflexivity|]. vm_compute. reflexivity.
Qed.

Lemma zones_nonempty_witness : zmin (Zone 151 163) <= zmax (Zone 151 163).
Proof.
  apply (proj1 zones_nonempty 30 60 (Some 190) __init__
           (table 125 138 151 164 177 190)
           (mkHRController (table 125 138 151 164 177 190) 0 60 190 70)) with 3.
  - lia.
  - simpl. lia.
  - simpl. lia.
  - vm_compute. reflexivity.
  - lia.
  - vm_compute. reflexivity.
Defined.

(** * The engine over time *)

(** X21.  In every state the engine can reach, the attributes
    [current_zone] and [weight_kg] still have the values of the
    constructor (no method writes them, and no method reads the stored
    weight), and the zone table is either empty with the default
    profile 60/190 or the table of the stored profile: table, resting
    and maximum heart rate never get out of step. *)
Theorem reachable_invariant self :
  reachable self ->
  current_zone self = 0 /\ weight_kg self = 70 /\
  ((zones self = ∅ /\ resting_hr self = 60 /\ max_hr self = 190) \/
   exists x5 x6 x7 x8 x9,
     bound (resting_hr self) (max_hr self - resting_hr self) f0_5 = Ok x5 /\
     bound (resting_hr self) (max_hr self - resting_hr self) f0_6 = Ok x6 /\
     bound (resting_hr self) (max_hr self - resting_hr self) f0_7 = Ok x7 /\
     bound (resting_hr self) (max_hr self - resting_hr self) f0_8 = Ok x8 /\
     bound (resting_hr self) (max_hr self - resting_hr self) f0_9 = Ok x9 /\
     zones self = table x5 x6 x7 x8 x9 (max_hr self)).
Proof.
  induction 1 as [|c self Hr IH].
  - split; [reflexivity|]. split; [reflexivity|]. left. repeat split.
  - destruct IH as (Hc & Hw & Ht).
    destruct (after_keeps c self) as [Kc Kw].
    split; [congruence|]. split; [congruence|].
    pose proof (after_reads c self) as Hrd.
    destruct c as [age r m| | | | |]; try (rewrite Hrd; exact Ht).
    simpl. destruct (calculate_zones age r m self) as [[tbl|e] s'] eqn:E.
    + apply calculate_zones_Ok in E. cbv zeta in E.
      destruct E as (x5 & x6 & x7 & x8 & x9 & H5 & H6 & H7 & H8 & H9 & -> & ->).
      right. exists x5, x6, x7, x8, x9. simpl. auto 10.
    + apply calculate_zones_Raise in E. simpl. subst. exact Ht.
Qed.

Lemma reachable_invariant_witness :
  current_zone (after (CalculateZones 30 60 (Some 190)) __init__) = 0 /\
  weight_kg (after (CalculateZones 30 60 (Some 190)) __init__) = 70.
Proof.
  destruct (reachable_invariant (after (CalculateZones 30 60 (Some 190)) __init__))
    as (H1 & H2 & _).
  - apply reach_call, reach_init.
  - split; assumption.
Defined.

(** X22.  The estimators work on the profile of the last
    [calculate_zones] that returned: after it, wattage, calories and
    recovery time are those of the resting and maximum heart rate it
    was given (or estimated), whatever the profile before. *)
Theorem estimators_use_last_profile age r m self tbl s :
  calculate_zones age r m self = (Ok tbl, s) ->
  (forall hr weight,
     calculate_wattage hr weight s =
     (if hr <? r then Ok 0
      else wattage_formula r (or_estimated age m) hr weight, s)) /\
  (forall hr duration_minutes weight,
     calculate_calories hr duration_minutes weight s =
     (if hr <? r then Ok 0
      else calories_formula (or_estimated age m) hr duration_minutes weight, s)) /\
  (forall workout_duration_minutes avg_hr,
     calculate_recovery_time workout_duration_minutes avg_hr s =
     (recovery_formula r (or_estimated age m) workout_duration_minutes avg_hr, s)).
Proof.
  intros E. apply calculate_zones_Ok in E. cbv zeta in E.
  destruct E as (x5 & x6 & x7 & x8 & x9 & _ & _ & _ & _ & _ & _ & ->).
  split; [|split]; intros.
  - rewrite calculate_wattage_unfold. reflexivity.
  - rewrite calculate_calories_unfold. reflexivity.
  - rewrite calculate_recovery_time_unfold. reflexivity.
Qed.

Lemma estimators_use_last_profile_witness :
  calculate_wattage 150 (Int 70) (mkHRController (table 125 138 151 164 177 190) 0 60 190 70)
  = (if 150 <? 60 then Ok 0 else wattage_formula 60 (or_estimated 30 (Some 190)) 150 (Int 70),
     mkHRController (table 125 138 151 164 177 190) 0 60 190 70).
Proof.
  apply (estimators_use_last_profile 30 60 (Some 190) __init__
           (table 125 138 151 164 177 190)).
  vm_compute. reflexivity.
Defined.

(** * The sum of the percentages *)

Lemma rnd_half X n : 0 <= n -> Z.abs (2 * (rnd X n * 2 ^ n - X)) <= 2 ^ n.
Proof.
  intros Hn. pose proof (pow2_pos n Hn) as Hp.
  pose proof (Z.div_mod X (2 ^ n) ltac:(lia)) as E.
  pose proof (Z.mod_pos_bound X (2 ^ n) Hp) as B.
  unfold rnd. set (q := X / 2 ^ n) in *. set (rem := X mod 2 ^ n) in *.
  destruct (Z.compare_spec (2 * rem) (2 ^ n)); [destruct (Z.even q)| |]; lia.
Qed.

Lemma zone_count_sum self l :
  wf self ->
  zone_count self l 0 + zone_count self l 1 + zone_count self l 2 +
  zone_count self l 3 + zone_count self l 4 + zone_count self l 5
  = Z.of_nat (length l).
Proof.
  intros Hwf. induction l as [|hr l IH].
  - reflexivity.
  - destruct (get_zone_range hr self Hwf) as (z & E & Hz).
    rewrite !(zone_count_cons self hr l _ z E).
    assert (z = 0 \/ z = 1 \/ z = 2 \/ z = 3 \/ z = 4 \/ z = 5) as Hc by lia.
    simpl length. rewrite Nat2Z.inj_succ.
    destruct Hc as [-> | [-> | [-> | [-> | [-> | ->]]]]]; simpl; lia.
Qed.

(** One percentage is within half a point, and a little, of the exact
    share. *)
Lemma percentage_error c t p :
  0 <= c <= t -> 0 < t -> percentage c t = Ok p ->
  Z.abs (2 * (t * p * 2 ^ 1122 - 100 * c * 2 ^ 1122)) <= t * (2 ^ 1122 + 2 ^ 1100).
Proof.
  intros Hc Ht E. rewrite (percentage_value _ _ _ E).
  unfold quot_value.
  rewrite (Z.abs_eq c), (Z.abs_eq t), (Z.sgn_pos t) by lia.
  change (-1074 - -1076) with 2. change (- -1076 - 1) with 1075.
  set (T := qs (c * 2 ^ 1075) t).
  pose proof (pow2_pos 1075 ltac:(lia)) as P1075.
  assert (0 <= T) as HT0 by (apply qs_nonneg; nia).
  (* the quotient with its sticky bit *)
  assert (c * 2 ^ 1076 - 2 * t <= t * T <= c * 2 ^ 1076 + t) as HT.
  { unfold T, qs.
    pose proof (Z.div_mod (c * 2 ^ 1075) t ltac:(lia)) as Ed.
    pose proof (Z.mod_pos_bound (c * 2 ^ 1075) t Ht) as Bd.
    change (2 ^ 1076) with (2 * 2 ^ 1075).
    destruct (_ =? 0); nia. }
  assert (T <= 2 ^ 1076 + 1) as HTu.
  { assert (t * T <= t * (2 ^ 1076 + 1)); [|nia].
    apply Z.le_trans with (c * 2 ^ 1076 + t); [lia|]. nia. }
  (* its rounding *)
  set (Q := RZ 2 T).
  assert (0 <= Q) as HQ0 by (apply RZ_nonneg; lia).
  assert (T - 2 ^ 1024 <= Q <= T + 2 ^ 1024) as HQ.
  { apply (RZ_error 2 T 1077); lia. }
  assert (Z.sgn c * 1 * Q = Q) as ->.
  { destruct (Z.eq_dec c 0) as [->|Hcz].
    - unfold Q, T. simpl. reflexivity.
    - rewrite Z.sgn_pos by lia. lia. }
  (* times 100 *)
  set (v := 7036874417766400) in *.
  assert (RZs 48 (Q * v) = RZ 48 (Q * v)) as ->.
  { unfold RZs. destruct (Z.eq_dec Q 0) as [->|Hqz].
    - simpl. rewrite RZ_0 by lia. reflexivity.
    - rewrite Z.sgn_pos, Z.abs_eq by (unfold v; nia). lia. }
  set (X := RZ 48 (Q * v)).
  assert (0 <= X) as HX0 by (apply RZ_nonneg; [lia | unfold v; nia]).
  assert (Q * v - 2 ^ 1077 <= X <= Q * v + 2 ^ 1077) as HX.
  { apply (RZ_error 48 (Q * v) 1130).
    - lia.
    - unfold v. nia.
    - apply Z.le_lt_trans with ((2 ^ 1076 + 1 + 2 ^ 1024) * v); [unfold v; nia|].
      vm_compute. reflexivity.
    - lia. }
  assert (rnds X 1122 = rnd X 1122) as ->.
  { unfold rnds. destruct (Z.eq_dec X 0) as [->|Hxz].
    - simpl. unfold rnd. simpl. reflexivity.
    - rewrite Z.sgn_pos, Z.abs_eq by lia. lia. }
  pose proof (rnd_half X 1122 ltac:(lia)) as Hh.
  set (p' := rnd X 1122) in *.
  (* all the errors, times [t] *)
  assert (100 * 2 ^ 1122 = 2 ^ 1076 * v) as Ev by (vm_compute; reflexivity).
  assert (Z.abs (t * X - c * (2 ^ 1076 * v))
          <= t * (2 ^ 1077 + 2 ^ 1024 * v + 2 * v)) as HtX.
  { assert (t * (Q * v) - t * 2 ^ 1077 <= t * X <= t * (Q * v) + t * 2 ^ 1077) by nia.
    assert (t * T * v - t * 2 ^ 1024 * v <= t * (Q * v) <= t * T * v + t * 2 ^ 1024 * v)
      by (unfold v in *; nia).
    assert (c * 2 ^ 1076 * v - 2 * t * v <= t * T * v <= c * 2 ^ 1076 * v + t * v)
      by (unfold v in *; nia).
    lia. }
  assert (2 * (2 ^ 1077 + 2 ^ 1024 * v + 2 * v) <= 2 ^ 1100) as Heps
    by (vm_compute; discriminate).
  assert (Z.abs (2 * (t * (p' * 2 ^ 1122) - t * X)) <= t * 2 ^ 1122) as Hr.
  { replace (2 * (t * (p' * 2 ^ 1122) - t * X)) with (t * (2 * (p' * 2 ^ 1122 - X)))
      by ring.
    rewrite Z.abs_mul, (Z.abs_eq t) by lia.
    apply Z.mul_le_mono_nonneg_l; lia. }
  replace (100 * c * 2 ^ 1122) with (c * (2 ^ 1076 * v)) by lia.
  lia.
Qed.

(** X23.  The six percentages of a non-empty list of samples add up to
    a number between 97 and 103: each is rounded on its own, and
    each is within half a point of the exact share. *)
Theorem calculate_zone_distribution_total self hr_samples :
  wf self -> hr_samples <> [] ->
  exists d,
    calculate_zone_distribution hr_samples self = (Ok d, self) /\
    97 <= total d <= 103.
Proof.
  intros Hwf Hne. rewrite (calculate_zone_distribution_formula self _ Hwf Hne).
  unfold distribution_formula. cbv zeta.
  assert (0 < Z.of_nat (length hr_samples)) as Hl
    by (destruct hr_samples; [contradiction | simpl; lia]).
  pose proof (zone_count_sum self hr_samples Hwf) as Hsum.
  set (t := Z.of_nat (length hr_samples)) in *.
  pose proof (zone_count_range self hr_samples 0) as R0.
  pose proof (zone_count_range self hr_samples 1) as R1.
  pose proof (zone_count_range self hr_samples 2) as R2.
  pose proof (zone_count_range self hr_samples 3) as R3.
  pose proof (zone_count_range self hr_samples 4) as R4.
  pose proof (zone_count_range self hr_samples 5) as R5.
  fold t in R0, R1, R2, R3, R4, R5.
  set (c0 := zone_count self hr_samples 0) in *.
  set (c1 := zone_count self hr_samples 1) in *.
  set (c2 := zone_count self hr_samples 2) in *.
  set (c3 := zone_count self hr_samples 3) in *.
  set (c4 := zone_count self hr_samples 4) in *.
  set (c5 := zone_count self hr_samples 5) in *.
  destruct (percentage_returns c0 t R0 Hl) as (p0 & E0).
  destruct (percentage_returns c1 t R1 Hl) as (p1 & E1).
  destruct (percentage_returns c2 t R2 Hl) as (p2 & E2).
  destruct (percentage_returns c3 t R3 Hl) as (p3 & E3).
  destruct (percentage_returns c4 t R4 Hl) as (p4 & E4).
  destruct (percentage_returns c5 t R5 Hl) as (p5 & E5).
  rewrite E0, E1, E2, E3, E4, E5. run_res.
  eexists. split; [reflexivity|].
  unfold total. cbn [map snd foldr].
  pose proof (percentage_error c0 t p0 R0 Hl E0) as D0.
  pose proof (percentage_error c1 t p1 R1 Hl E1) as D1.
  pose proof (percentage_error c2 t p2 R2 Hl E2) as D2.
  pose proof (percentage_error c3 t p3 R3 Hl E3) as D3.
  pose proof (percentage_error c4 t p4 R4 Hl E4) as D4.
  pose proof (percentage_error c5 t p5 R5 Hl E5) as D5.
  assert (0 < 2 ^ 1122) as HU by (apply pow2_pos; lia).
  assert (8 * 2 ^ 1100 <= 2 ^ 1122) as Hsmall by (vm_compute; discriminate).
  clear E0 E1 E2 E3 E4 E5 Hwf Hne.
  clearbody c0 c1 c2 c3 c4 c5 t.
  revert D0 D1 D2 D3 D4 D5 HU Hsmall.
  generalize (2 ^ 1122) as U. generalize (2 ^ 1100) as e.
  intros e U D0 D1 D2 D3 D4 D5 HU Hsmall.
  apply Z.abs_le in D0, D1, D2, D3, D4, D5.
  set (a0 := t * p0) in *. set (a1 := t * p1) in *. set (a2 := t * p2) in *.
  set (a3 := t * p3) in *. set (a4 := t * p4) in *. set (a5 := t * p5) in *.
  assert (t * (p0 + (p1 + (p2 + (p3 + (p4 + (p5 + 0))))))
          = a0 + a1 + a2 + a3 + a4 + a5) as ES by (unfold a0, a1, a2, a3, a4, a5; ring).
  set (S := p0 + (p1 + (p2 + (p3 + (p4 + (p5 + 0)))))) in *.
  assert (- (4 * (t * U)) < (t * S - 100 * t) * U < 4 * (t * U)) as Hb.
  { rewrite ES.
    assert (t * (8 * e) <= t * U) as He by (apply Z.mul_le_mono_nonneg_l; lia).
    replace ((a0 + a1 + a2 + a3 + a4 + a5 - 100 * t) * U)
      with ((a0 * U - 100 * c0 * U) + (a1 * U - 100 * c1 * U) +
            (a2 * U - 100 * c2 * U) + (a3 * U - 100 * c3 * U) +
            (a4 * U - 100 * c4 * U) + (a5 * U - 100 * c5 * U))
      by (rewrite <- Hsum; ring).
    set (d0 := a0 * U - 100 * c0 * U) in *. set (d1 := a1 * U - 100 * c1 * U) in *.
    set (d2 := a2 * U - 100 * c2 * U) in *. set (d3 := a3 * U - 100 * c3 * U) in *.
    set (d4 := a4 * U - 100 * c4 * U) in *. set (d5 := a5 * U - 100 * c5 * U) in *.
    assert (0 < t * U) as HtU0 by (apply Z.mul_pos_pos; lia).
    set (tU := t * U) in *. set (te := t * e) in *.
    replace (t * (U + e)) with (tU + te) in D0, D1, D2, D3, D4, D5
      by (unfold tU, te; ring).
    replace (t * (8 * e)) with (8 * te) in He by (unfold te; ring).
    clearbody d0 d1 d2 d3 d4 d5 tU te. lia. }
  assert (0 < t * U) as HtU by (apply Z.mul_pos_pos; lia).
  replace ((t * S - 100 * t) * U) with ((t * U) * (S - 100)) in Hb by ring.
  set (tU := t * U) in *. clearbody tU.
  assert (-4 < S - 100 < 4); [|lia].
  split.
  - apply Z.mul_lt_mono_pos_l with tU; [exact HtU | lia].
  - apply Z.mul_lt_mono_pos_l with tU; [exact HtU | lia].
Qed.

Lemma calculate_zone_distribution_total_witness :
  exists d,
    calculate_zone_distribution [120; 150; 150; 180] __init__ = (Ok d, __init__) /\
    97 <= total d <= 103.
Proof.
  apply (calculate_zone_distribution_total __init__ [120; 150; 150; 180]).
  - left. reflexivity.
  - discriminate.
Defined.

(** * The distribution, zone by zone *)

(** The bound of [percentage_error] without its scale. *)
Lemma percentage_near c t p :
  0 <= c <= t -> 0 < t -> percentage c t = Ok p ->
  2 ^ 22 * (2 * Z.abs (t * p - 100 * c)) <= (2 ^ 22 + 1) * t.
Proof.
  intros Hc Ht E. pose proof (percentage_error c t p Hc Ht E) as H.
  pose proof (pow2_pos 1100 ltac:(lia)) as He.
  replace (2 ^ 1122) with (2 ^ 22 * 2 ^ 1100) in H
    by (rewrite <- Z.pow_add_r by lia; reflexivity).
  revert H He. generalize (2 ^ 1100). intros e H He.
  replace (2 * (t * p * (2 ^ 22 * e) - 100 * c * (2 ^ 22 * e)))
    with (2 ^ 22 * (2 * (t * p - 100 * c)) * e) in H by ring.
  rewrite !Z.abs_mul, (Z.abs_eq e), (Z.abs_eq (2 ^ 22)), (Z.abs_eq 2) in H by lia.
  replace (t * (2 ^ 22 * e + e)) with ((2 ^ 22 + 1) * t * e) in H by ring.
  apply Z.mul_le_mono_pos_r in H; assumption.
Qed.

(** C7.  For a non-empty sample list [calculate_zone_distribution]
    returns a dictionary with the keys 0..5 that maps each zone to
    [round(count / totalSamples * 100)], with count the number of
    samples [get_zone] puts in that zone; this number differs from the
    exact share [100 * count / totalSamples] by at most half a point
    (and a [2^-23] part of a point for the rounding of the quotient
    and of the product).  The percentages are rounded one by one, and
    for some non-empty sample list and zone table they do not add up
    to 100: three samples in three zones give 33 + 33 + 33.  For the
    empty list the result is {0:0, 1:0, 2:0, 3:0, 4:0, 5:0}. *)
Theorem calculate_zone_distribution_spec :
  (forall self hr_samples,
     wf self -> hr_samples <> [] ->
     let totalSamples := Z.of_nat (length hr_samples) in
     exists d,
       calculate_zone_distribution hr_samples self = (Ok d, self) /\
       map fst d = [0; 1; 2; 3; 4; 5] /\
       forall z, 0 <= z <= 5 ->
         let count := zone_count self hr_samples z in
         exists p,
           dict_get d z = Ok p /\
           percentage_formula count totalSamples = Ok p /\
           2 ^ 22 * (2 * Z.abs (totalSamples * p - 100 * count))
           <= (2 ^ 22 + 1) * totalSamples) /\
  (exists self hr_samples d,
     reachable self /\ hr_samples <> [] /\
     fst (calculate_zone_distribution hr_samples self) = Ok d /\
     total d <> 100) /\
  (calculate_zone_distribution [130; 140; 155]
     (after (CalculateZones 30 60 (Some 190)) __init__)
   = (Ok [(0, 0); (1, 33); (2, 33); (3, 33); (4, 0); (5, 0)],
      after (CalculateZones 30 60 (Some 190)) __init__)) /\
  (forall self,
     calculate_zone_distribution [] self
     = (Ok [(0, 0); (1, 0); (2, 0); (3, 0); (4, 0); (5, 0)], self)).
Proof.
  split; [|split; [|split]].
  - intros self hr_samples Hwf Hne totalSamples.
    rewrite (calculate_zone_distribution_formula self _ Hwf Hne).
    unfold distribution_formula. cbv zeta. fold totalSamples.
    assert (0 < totalSamples) as Hl
      by (unfold totalSamples; destruct hr_samples; [contradiction | simpl; lia]).
    pose proof (zone_count_range self hr_samples) as Hc. fold totalSamples in Hc.
    destruct (percentage_returns _ totalSamples (Hc 0) Hl) as (p0 & E0).
    destruct (percentage_returns _ totalSamples (Hc 1) Hl) as (p1 & E1).
    destruct (percentage_returns _ totalSamples (Hc 2) Hl) as (p2 & E2).
    destruct (percentage_returns _ totalSamples (Hc 3) Hl) as (p3 & E3).
    destruct (percentage_returns _ totalSamples (Hc 4) Hl) as (p4 & E4).
    destruct (percentage_returns _ totalSamples (Hc 5) Hl) as (p5 & E5).
    rewrite E0, E1, E2, E3, E4, E5. run_res.
    eexists. split; [reflexivity|]. split; [reflexivity|].
    intros z Hz.
    assert (z = 0 \/ z = 1 \/ z = 2 \/ z = 3 \/ z = 4 \/ z = 5) as Hcase by lia.
    destruct Hcase as [-> | [-> | [-> | [-> | [-> | ->]]]]];
      eexists; (split; [reflexivity|]);
      (split; [eassumption | apply percentage_near; [apply Hc | exact Hl | assumption]]).
  - exists (after (CalculateZones 30 60 (Some 190)) __init__), [130; 140; 155].
    eexists. split; [apply reach_call, reach_init|].
    split; [discriminate|]. split; [vm_compute; reflexivity|].
    vm_compute. discriminate.
  - vm_compute. reflexivity.
  - reflexivity.
Qed.

Lemma calculate_zone_distribution_spec_witness :
  exists d p,
    calculate_zone_distribution [120; 150; 150; 180]
      (mkHRController (table 125 138 151 164 177 190) 0 60 190 70)
    = (Ok d, mkHRController (table 125 138 151 164 177 190) 0 60 190 70) /\
    dict_get d 2 = Ok p /\
    percentage_formula 2 4 = Ok p /\
    2 ^ 22 * (2 * Z.abs (4 * p - 100 * 2)) <= (2 ^ 22 + 1) * 4.
Proof.
  destruct (proj1 calculate_zone_distribution_spec
              (mkHRController (table 125 138 151 164 177 190) 0 60 190 70)
              [120; 150; 150; 180])
    as (d & E & _ & H).
  - right. intros k Hk.
    assert (k = 1 \/ k = 2 \/ k = 3 \/ k = 4 \/ k = 5) as Hc by lia.
    destruct Hc as [-> | [-> | [-> | [-> | ->]]]]; vm_compute; eexists; reflexivity.
  - discriminate.
  - destruct (H 2 ltac:(lia)) as (p & Hp & Hf & Hb).
    exists d, p. split; [exact E|]. split; [exact Hp|]. split; [exact Hf | exact Hb].
Defined.
